(* ===== verification/_CoqProject ===== *)
-Q . S2P
Prelude.v
Monad.v
Config.v
Platform.v
Script.v
Readiness.v
NetMgmt.v
Syscalls.v
ScriptRun.v
Protocol.v
ProtocolFacts.v
ProtocolCheck.v
Conform.v
Wait.v
Resolver.v
Establisher.v
Driver.v
Endless.v
Main.v
Isolation.v
Diagnostics.v
