(* ===== verification/Prelude.v ===== *)
(** * Verification of the Zephyr [http_get] socket sample (HL7800 variant)

    Source: [src/samples/net/sockets/http_get/src/http_get.c] (one C file,
    208 lines).  The program registers three network-management callbacks,
    resets the cellular modem, polls a global readiness flag until a DNS
    server is known, optionally provisions a TLS trust anchor, resolves the
    host, opens a (TLS) stream socket, sends one fixed HTTP/1.0 GET request
    and dumps the response to standard output until end of stream.

    ** The files, in the order they are compiled

    Foundations.
    - [Prelude] (this file): bytes and C strings ([cstr] is what
      [printf("%s", buf)] prints), checked array accesses ([buf_store],
      [buf_write]) that make an out-of-bounds store a value, the latch that
      the readiness flag is an instance of, the list lemmas, the tactic
      [by_compute] and the hint databases the other files share.
    - [Monad]: the state-and-outcome monad [M] in which the stateful code is
      written ([x <- c ;; k] in scope [prog_scope]), the outcomes of a run
      ([Returned], [Exited code], [Faulted f], [OutOfFuel]), the loop
      combinator [forM_] and a Hoare logic with outcomes ([triple],
      [preserves]) with one rule per combinator.
    - [Config]: the macros and static objects of lines 33-52 ([HTTP_HOST],
      [HTTP_PORT], [HTTP_PATH], [SSTRLEN], [REQUEST], [response],
      [is_network_ready]) and the constants of the socket headers as the
      class [SocketConsts]; the bytes of [REQUEST].
    - [Platform]: what [main] calls outside the file, as the class
      [Platform] over an abstract world, with the laws the program relies
      on ([PlatformLaws]); the log of calls [io] and its projections
      ([main_log], [printed_body], [count_io]); the program state [state]
      (flag, response buffer, callback table, registered callbacks, log,
      world).  A node [addrinfo] holds its socket address, and not a pointer
      to one: the promise of POSIX that the nodes of a successful
      [getaddrinfo] carry an address is made by the type.
    - [Script]: the executable instance of [Platform], a world that answers
      from a finite script, and the proof that it is lawful.

    The callbacks.
    - [Readiness]: the three handlers of lines 54-84 over the event codes
      of class [NetEventCodes], the Readiness Tracker of the
      specification ([InterfaceEvent], [on_event], [tracker], [classify]),
      and the invariant [flag_logged]: the flag is what the lines the
      handlers have printed say it is.
    - [NetMgmt]: the table [iface_events] and the loop [setup_iface_events]
      of lines 86-107, and the event bus they talk to
      ([net_mgmt_init_event_callback], [net_mgmt_add_event_callback],
      [mgmt_run_callbacks], [deliver_raised]).  The bus is not under src/:
      it is modelled from its interface, and the class [EventBus] states
      the one promise the program needs of it.  [dispatch], [deliver] and
      [after_raised] are the same operations as functions on states, and
      [subscribe_all] is the state the loop leaves.
    - [Syscalls]: one wrapper per call of [main] into the platform, under
      the name of the source; a wrapper runs the call on the world, logs it
      and delivers the events raised meanwhile.  [CHECK] is the macro of
      line 46.
    - [ScriptRun]: symbolic execution against a script: [at_log l w s]
      says that [main] has logged [l] and that the answers still to come
      are those of [w]; one rule per kind of call.

    The specification and the refinement method.
    - [Protocol]: the abstract specification of a run, a labelled
      transition system [step] over phases ([Subscribing], [Ready],
      [Resolved], [Created], [Connected], [Receiving], [Printing],
      [Closing], [Failing], [Stopped]) whose labels are the logged calls;
      [run], [ends], and the error taxonomy [stop].
    - [ProtocolFacts]: what follows from the transition system alone:
      determinism, counters that are functions of the phase, what precedes
      a connect, what follows the end of the stream, what is printed.
    - [ProtocolCheck]: the transition function [next] and the acceptor
      [accepts], proved to decide [step] and [run], so that a recorded log
      is checked against the protocol by evaluation.
    - [Conform]: the assertion [at_phase] (the calls logged so far are a
      run of the protocol to a phase, and the state is safe), a Hoare rule
      for each basic operation, and [refines], the statement that an
      operation implements a segment of the protocol from every safe state
      ([refines_from] is the statement at one state).

    The phases of [main], each with its definitions, its refinement
    theorem, and its run against a script.
    - [Wait]: [wait_network_ready], lines 133-137.
    - [Resolver]: [hints], [resolve], [dump_addrinfo], lines 109-116 and
      144-163.
    - [Establisher]: [tls_provision], [open_socket], [tls_configure],
      [connect_to], lines 139-142 and 165-184.
    - [Driver]: [send_request], [recv_loop], [dump_response], lines
      185-207.
    - [Endless]: a second implementation of [Platform], a peer that never
      closes, against which the receive loop uses up any fuel.
    - [Main]: [http_get] (lines 139-207), [main] (lines 118-208) and
      [run_main]; the theorems about whole runs.
    - [Isolation]: the relation [same_main] between states that agree on
      what [main] owns, and the proof that every step of the request
      respects it.
    - [Diagnostics]: [reported], what the log ends with when a run gives
      up, and the proof that every phase leaves the log so.

    ** How state and effects are modelled

    C [int] and [uint32_t] values are [Z]; the program only compares them
    with 0 and -1, so no arithmetic can wrap and none is modelled.  The
    buffer [response] is a [list byte] of length 1024; the store
    [response[len] = 0] is checked, and a store outside the array ends the
    run with [Faulted OutOfBounds].  Dereferencing the null result of a
    resolver ends it with [Faulted NullDeref].  [exit(1)] inside [CHECK]
    ends it with [Exited 1], [return] from [main] with [Returned].  The
    build option [CONFIG_NET_SOCKETS_SOCKOPT_TLS] is a [bool] argument.

    The callbacks run in the context of the network stack.  The only state
    they share with [main] is the flag, and [main] reads it only in the
    condition of the wait loop, so an interleaving is determined by the
    calls of [main] during which events are raised: after every call of
    [main] into the platform, the events the world reports as raised are
    dispatched to the registered callbacks, newest registration first.
    Delivery in the middle of a call of [main] is not modelled.

    ** Fuel

    The two loops of [main] have no bound in the source.
    [wait_network_ready] and [recv_loop] take a fuel argument that bounds
    the number of iterations; running out of it gives [OutOfFuel], which
    stands for "still looping".  The safety and refinement theorems hold
    for every fuel.  Every theorem that says a loop finishes names the fuel
    that suffices (one more than the number of batches of events before the
    one that sets the flag; one more than the number of chunks of the
    response) and concludes that the run yields a value; the divergence
    theorems say that no fuel suffices.  The registration loop needs no
    fuel from outside: [setup_iface_events] runs [setup_loop] with the
    length of the table.

    ** What the theorems show

    - Readiness ([Readiness], [NetMgmt]): each handler ignores every event
      but its own; after any sequence of raised events the flag is set
      exactly when a DNS-server-added event occurred with no interface-down
      after it; dispatch through the bus refines the tracker of the
      specification.
    - Subscription ([NetMgmt]): the loop registers the three callbacks in
      table order and stops at the terminator, without a fault.  The order
      matters: an interface-down raised before the third registration is
      missed, and the flag then disagrees with the tracker.
    - Wait loop ([Wait]): it returns only with the flag set, at the first
      poll that finds it set, after one sleep per earlier poll; it never
      returns when nothing sets the flag.
    - Components ([Resolver], [Establisher], [Driver]): each operation
      refines its segment of the protocol on every lawful platform: the
      calls it makes, their arguments, and what each result leads to.  The
      receive loop never writes outside [response]; on a finite stream it
      terminates and prints every chunk up to its first NUL; on a stream
      that does not end it does not return.
    - Whole runs ([Main]): the calls of every run of [main], for both
      builds, every lawful platform and every fuel, are a run of the
      protocol that ends in a phase fitting the outcome; hence no run
      faults, the socket is closed exactly when [main] runs to its end, a
      connect follows a successful establishment, nothing follows the end
      of the stream but the close, and what is printed is what was
      received.  The protocol lets [main] sleep any number of times
      before the request; that the request starts only when the flag is
      set, after the registration, the modem reset and one sleep per poll
      that found it clear, is a theorem of its own, and so is what a send
      carries: the 40 bytes of the request, once, after a connect that
      succeeded.  A failed [tls_credential_add] does not stop the run.  The
      end-to-end theorem gives the whole log of a run in which every call
      succeeds.
    - Isolation ([Isolation]): from states that differ in the flag, in the
      registered callbacks and in what the handlers printed, the request
      makes the same calls with the same results and ends the same way.
    - Diagnostics ([Diagnostics]): a run that gives up has logged, as its
      last lines, the call that failed and the message that says so.

    ** Not modelled

    The modem driver, the network stack, the resolver, the socket layer and
    the credential store are external: the development fixes only their
    interface, and the scripted world is one implementation of it.  The
    formatting done by [printf] and [printk] is not modelled: the log
    records the format string and the arguments.  Time is not modelled:
    [k_sleep] is a call during which events may be raised. *)

From Stdlib Require Import ZArith List Lia.
From Stdlib Require Import Strings.String Strings.Ascii.
From Stdlib Require Strings.Byte.
From stdpp Require Import base tactics list.

(** ** Bytes *)

Abbreviation byte := Byte.byte.

#[export] Instance byte_eq_dec : EqDecision byte.
Proof.
  intros x y. destruct (Byte.eqb x y) eqn:E.
  - left. now apply Byte.byte_dec_bl.
  - right. now apply Byte.eqb_false.
Defined.

(** The terminator of a C string. *)
Definition NUL : byte := Byte.x00.

(** The bytes of a string literal, without the terminator the compiler
    appends. *)
Definition bytes_of (s : string) : list byte := list_byte_of_string s.

(** [sizeof] of a string literal: its characters and the terminator. *)
Definition c_sizeof (s : string) : nat := S (String.length s).

(** What a [%s] conversion reads from an array: the bytes before the first
    NUL (all of them when there is none, where C would read on). *)
Fixpoint cstr (buf : list byte) : list byte :=
  match buf with
  | [] => []
  | b :: rest => if decide (b = NUL) then [] else b :: cstr rest
  end.

(** A line feed and a CR LF pair, which string literals cannot hold. *)
Definition LF : string := String (ascii_of_nat 10) EmptyString.
Definition CRLF : string :=
  String (ascii_of_nat 13) (String (ascii_of_nat 10) EmptyString).

(** ** Checked array accesses *)

(** [buf[i] = v]: [None] when [i] is outside the array. *)
Definition buf_store (buf : list byte) (i : Z) (v : byte) : option (list byte) :=
  if decide (0 <= i < Z.of_nat (length buf))%Z
  then Some (<[Z.to_nat i := v]> buf)
  else None.

(** A callee writes [data] at the start of [buf]: [None] when it does not
    fit. *)
Definition buf_write (data buf : list byte) : option (list byte) :=
  if decide (length data <= length buf)
  then Some (data ++ drop (length data) buf)
  else None.

(** ** Tactics *)

(** Case analysis on the [decide] or the [match] the goal is stuck on. *)
Ltac case_step :=
  match goal with
  | |- context [decide ?P] => destruct (decide P)
  | |- context [match ?x with _ => _ end] => destruct x eqn:?
  end.

(** Turn boolean tests of hypotheses into propositions. *)
Ltac bool_hyps :=
  repeat match goal with
  | H : (_ =? _)%Z = true |- _ => apply Z.eqb_eq in H
  | H : (_ =? _)%Z = false |- _ => apply Z.eqb_neq in H
  | H : (_ <? _)%Z = true |- _ => apply Z.ltb_lt in H
  | H : (_ <? _)%Z = false |- _ => apply Z.ltb_ge in H
  | H : negb _ = true |- _ => apply negb_true_iff in H
  | H : negb _ = false |- _ => apply negb_false_iff in H
  | H : andb _ _ = true |- _ => apply andb_true_iff in H; destruct H
  end.

(** Prove a decidable proposition about closed terms by evaluation. *)
Ltac by_compute :=
  match goal with
  | |- ?P => refine (bool_decide_eq_true_1 P _); vm_compute; reflexivity
  end.

Create HintDb httpget discriminated.
Create Rewrite HintDb httpget.

(** ** Lists *)

Section Lists.
Context {A : Type}.
Implicit Types (l k : list A) (x : A).

Lemma filter_snoc (P : A -> Prop) `{!forall x, Decision (P x)} l x :
  filter P (l ++ [x]) = filter P l ++ (if decide (P x) then [x] else []).
Proof.
  rewrite filter_app. reflexivity.
Qed.

Lemma length_filter_snoc (P : A -> Prop) `{!forall x, Decision (P x)} l x :
  length (filter P (l ++ [x])) =
  length (filter P l) + (if decide (P x) then 1 else 0).
Proof.
  rewrite filter_snoc, length_app. destruct (decide (P x)); reflexivity.
Qed.

Lemma fold_left_inv {B} (I : A -> Prop) (f : A -> B -> A) (bs : list B) a :
  I a -> (forall a b, I a -> I (f a b)) -> I (fold_left f bs a).
Proof.
  intros Ha Hf. revert a Ha. induction bs as [|b bs IH]; simpl; auto.
Qed.

Lemma elem_of_concat x (ls : list (list A)) :
  x ∈ concat ls <-> exists l, l ∈ ls /\ x ∈ l.
Proof.
  induction ls as [|l0 ls IH]; simpl.
  - split; [intros []%elem_of_nil | intros (l & []%elem_of_nil & _)].
  - rewrite elem_of_app, IH. split.
    + intros [H | (l & Hl & Hx)]; [exists l0 | exists l]; split; auto; now constructor.
    + intros (l & [-> | Hl]%elem_of_cons & Hx); eauto.
Qed.

Lemma take_S_app_cons l x k : take (S (length l)) (l ++ x :: k) = l ++ [x].
Proof. induction l as [|y l IH]; simpl; [now rewrite take_0 | now rewrite IH]. Qed.

Lemma drop_S_app_cons l x k : drop (S (length l)) (l ++ x :: k) = k.
Proof. induction l as [|y l IH]; simpl; [now rewrite drop_0 | exact IH]. Qed.

(** Filtering out elements that [f] maps to nothing does not change
    [omap f]. *)
Lemma omap_filter {B} (f : A -> option B) (P : A -> Prop)
    `{!forall x, Decision (P x)} l :
  (forall x, ~ P x -> f x = None) -> omap f (filter P l) = omap f l.
Proof.
  intros Hf. induction l as [|x l IH]; [reflexivity|].
  change (x :: l) with ([x] ++ l). rewrite filter_app, !omap_app, IH. f_equal.
  rewrite filter_cons. destruct (decide (P x)) as [|Hx]; [reflexivity|].
  simpl. now rewrite Hf.
Qed.

Lemma tail_drop l (k : nat) : tail (drop k l) = drop (S k) l.
Proof. revert l. induction k as [|k IH]; intros [|x l]; simpl; auto. Qed.

Lemma head_drop l (k : nat) : head (drop k l) = l !! k.
Proof. now rewrite head_lookup, lookup_drop, Nat.add_0_r. Qed.

(** What holds of the first [n] elements holds of element [k < n], and of
    the default when there is none. *)
Lemma Forall_take_lookup (P : A -> Prop) l (n k : nat) (d : A) :
  Forall P (take n l) -> P d -> k < n -> P (default d (l !! k)).
Proof.
  intros Hall Hd Hk. destruct (l !! k) as [x|] eqn:E; [|exact Hd]. simpl.
  apply (proj1 (Forall_forall _ _) Hall). apply list_elem_of_lookup.
  exists k. now rewrite lookup_take_lt.
Qed.

Lemma elem_of_take_weaken x n l : x ∈ take n l -> x ∈ l.
Proof.
  intros (i & Hi & _)%elem_of_take. apply list_elem_of_lookup. eauto.
Qed.

End Lists.

(** ** A latch driven by a list of events

    [kind x] says whether [x] sets the latch ([Some true]), clears it
    ([Some false]) or leaves it ([None]).  After a sequence, the latch is
    set exactly when some event set it and none cleared it afterwards, or
    it was set at the start and none cleared it. *)

Section Latch.
Context {A : Type} (kind : A -> option bool).

Definition latch_step (r : bool) (x : A) : bool :=
  match kind x with
  | Some b => b
  | None => r
  end.

Definition latch (l : list A) (r : bool) : bool := fold_left latch_step l r.

Definition no_clear (l : list A) : Prop :=
  Forall (fun x => kind x <> Some false) l.

Lemma latch_cons x l r : latch (x :: l) r = latch l (latch_step r x).
Proof. reflexivity. Qed.

Lemma latch_app l k r : latch (l ++ k) r = latch k (latch l r).
Proof. apply fold_left_app. Qed.

Lemma latch_true_iff l r :
  latch l r = true <->
  (exists pre x post,
      l = pre ++ x :: post /\ kind x = Some true /\ no_clear post) \/
  (r = true /\ no_clear l).
Proof.
  revert r. induction l as [|a l IH]; intros r.
  - simpl. split.
    + intros ->. right. split; [reflexivity | constructor].
    + intros [(pre & x & post & E & _) | [-> _]]; [|reflexivity].
      now destruct pre.
  - rewrite latch_cons, IH. unfold latch_step. split.
    + intros [(pre & x & post & -> & Hx & Hpost) | [Hr Hl]].
      * left. exists (a :: pre), x, post. auto.
      * destruct (kind a) as [[]|] eqn:Ha; [|discriminate|].
        -- left. exists [], a, l. auto.
        -- right. split; [assumption|]. constructor; [congruence | assumption].
    + intros [(pre & x & post & E & Hx & Hpost) | [-> Hl]].
      * destruct pre as [|a' pre]; simpl in E; injection E as -> ->.
        -- right. now rewrite Hx.
        -- left. exists pre, x, post. auto.
      * right. inversion Hl as [|? ? Ha Hl']; subst.
        split; [|assumption]. destruct (kind a) as [[]|]; congruence.
Qed.

End Latch.

(** ** C strings and buffers *)

Lemma cstr_app_nul (data rest : list byte) :
  NUL ∉ data -> cstr (data ++ NUL :: rest) = data.
Proof.
  induction data as [|b data IH]; simpl; intros Hnul.
  - destruct (decide (NUL = NUL)); congruence.
  - destruct (decide (b = NUL)) as [->|_].
    + exfalso. apply Hnul. left.
    + f_equal. apply IH. intros Hin. apply Hnul. now right.
Qed.

Lemma cstr_prefix (buf : list byte) : cstr buf `prefix_of` buf.
Proof.
  induction buf as [|b buf IH]; simpl.
  - reflexivity.
  - destruct (decide (b = NUL)).
    + apply prefix_nil.
    + now apply prefix_cons.
Qed.

Lemma cstr_no_nul (buf : list byte) : NUL ∉ cstr buf.
Proof.
  induction buf as [|b buf IH]; simpl.
  - apply not_elem_of_nil.
  - destruct (decide (b = NUL)).
    + apply not_elem_of_nil.
    + rewrite elem_of_cons. intros [E|Hin]; [congruence | contradiction].
Qed.

Lemma cstr_id (data : list byte) : NUL ∉ data -> cstr data = data.
Proof.
  intros H. rewrite <- (app_nil_r data) at 1.
  induction data as [|b data IH]; simpl; [reflexivity|].
  destruct (decide (b = NUL)) as [->|_].
  - exfalso. apply H. left.
  - f_equal. apply IH. intros Hin. apply H. now right.
Qed.

Lemma buf_store_length buf i v buf' :
  buf_store buf i v = Some buf' -> length buf' = length buf.
Proof.
  unfold buf_store. destruct (decide _); [|discriminate].
  intros [= <-]. apply length_insert.
Qed.

Lemma buf_write_length data buf buf' :
  buf_write data buf = Some buf' -> length buf' = length buf.
Proof.
  unfold buf_write. destruct (decide _); [|discriminate].
  intros [= <-]. rewrite length_app, length_drop. lia.
Qed.

Lemma buf_store_in_range buf i v :
  (0 <= i < Z.of_nat (length buf))%Z -> is_Some (buf_store buf i v).
Proof. intros H. unfold buf_store. destruct (decide _); [eauto | contradiction]. Qed.

Lemma buf_write_fits data buf :
  length data <= length buf -> is_Some (buf_write data buf).
Proof. intros H. unfold buf_write. destruct (decide _); [eauto | contradiction]. Qed.

(** After a callee wrote [data] and the caller stored the terminator right
    behind it, the array reads back as [data] up to its first NUL. *)
Lemma cstr_write_store data buf buf1 buf2 :
  buf_write data buf = Some buf1 ->
  buf_store buf1 (Z.of_nat (length data)) NUL = Some buf2 ->
  cstr buf2 = cstr data.
Proof.
  unfold buf_write, buf_store.
  destruct (decide _) as [Hfit|]; [|discriminate]. intros [= <-].
  destruct (decide _) as [Hin|]; [|discriminate]. intros [= <-].
  rewrite Nat2Z.id.
  rewrite insert_app_r_alt by lia. rewrite Nat.sub_diag.
  destruct (drop (length data) buf) as [|b rest] eqn:Hd.
  { rewrite length_app in Hin. simpl in Hin. lia. }
  simpl. clear. induction data as [|c data IH]; simpl.
  - destruct (decide (NUL = NUL)); congruence.
  - destruct (decide (c = NUL)); [reflexivity | now f_equal].
Qed.

#[export] Hint Resolve cstr_prefix cstr_no_nul : httpget.
#[export] Hint Rewrite @filter_snoc @filter_app @length_app : httpget.
