(* ===== verification/Monad.v ===== *)
(** * The monad of the stateful code and its Hoare logic

    A computation reads and updates a state and either yields a value or
    ends the whole run with an [outcome]: [main] returned, [exit] was
    called, an undefined behaviour was reached, or a loop ran out of fuel.
    [triple] is partial-correctness-with-outcomes: it says what holds of the
    state when the computation yields a value and what holds when it ends
    the run. *)

From Stdlib Require Import ZArith List.
From stdpp Require Import base tactics.
From S2P Require Import Prelude.

(** The undefined behaviours the program can reach. *)
Inductive fault : Type :=
| NullDeref
| OutOfBounds.

(** How a run ends. *)
Inductive outcome : Type :=
| Returned
| Exited (code : Z)
| Faulted (f : fault)
| OutOfFuel.

Inductive res (A : Type) : Type :=
| Val (a : A)
| Halt (o : outcome).

Arguments Val {A} a.
Arguments Halt {A} o.

#[export] Instance fault_eq_dec : EqDecision fault.
Proof. solve_decision. Defined.

#[export] Instance outcome_eq_dec : EqDecision outcome.
Proof. solve_decision. Defined.

Definition M (S A : Type) : Type := S -> res A * S.

Section Ops.
Context {S : Type}.

Definition ret {A} (a : A) : M S A := fun s => (Val a, s).

Definition bind {A B} (m : M S A) (k : A -> M S B) : M S B :=
  fun s => match m s with
           | (Val a, s') => k a s'
           | (Halt o, s') => (Halt o, s')
           end.

Definition halt {A} (o : outcome) : M S A := fun s => (Halt o, s).

Definition gets {A} (f : S -> A) : M S A := fun s => (Val (f s), s).

Definition modify (f : S -> S) : M S unit := fun s => (Val tt, f s).

(** A checked access: the value of [o], or the fault [f]. *)
Definition check {A} (f : fault) (o : option A) : M S A :=
  match o with
  | Some a => ret a
  | None => halt (Faulted f)
  end.

End Ops.

Declare Scope prog_scope.
Delimit Scope prog_scope with prog.
Notation "x <- c1 ;; c2" := (bind c1 (fun x => c2))
  (at level 100, c1 at next level, c2 at level 200, right associativity)
  : prog_scope.
Notation "c1 ;; c2" := (bind c1 (fun _ => c2))
  (at level 100, c2 at level 200, right associativity) : prog_scope.

(** What a run leaves: the outcome of a whole program that is run to its
    end ([Returned] when it yields its value), and the final state. *)
Definition outcome_of {A} (r : res A) : outcome :=
  match r with
  | Val _ => Returned
  | Halt o => o
  end.

(** ** Equations of the monad *)

Section Laws.
Context {S : Type}.
Implicit Types (s : S).

Lemma bind_ret_l {A B} (a : A) (k : A -> M S B) s : bind (ret a) k s = k a s.
Proof. reflexivity. Qed.

Lemma bind_halt {A B} (o : outcome) (k : A -> M S B) s :
  bind (halt o) k s = (Halt o, s).
Proof. reflexivity. Qed.

Lemma bind_assoc {A B C} (m : M S A) (k : A -> M S B) (h : B -> M S C) s :
  bind (bind m k) h s = bind m (fun a => bind (k a) h) s.
Proof. unfold bind. destruct (m s) as [[a|o] s']; reflexivity. Qed.

Lemma bind_val {A B} (m : M S A) (k : A -> M S B) s a s' :
  m s = (Val a, s') -> bind m k s = k a s'.
Proof. unfold bind. now intros ->. Qed.

Lemma bind_stop {A B} (m : M S A) (k : A -> M S B) s o s' :
  m s = (Halt o, s') -> bind m k s = (Halt o, s').
Proof. unfold bind. now intros ->. Qed.

(** Continuations that agree on every value and state give the same run. *)
Lemma bind_ext {A B} (m : M S A) (k1 k2 : A -> M S B) s :
  (forall a s', k1 a s' = k2 a s') -> bind m k1 s = bind m k2 s.
Proof. intros Hk. unfold bind. destruct (m s) as [[a|o] s']; auto. Qed.

(** A run of [bind m k] that yields a value went through a value of [m]. *)
Lemma bind_inv_val {A B} (m : M S A) (k : A -> M S B) s b s2 :
  bind m k s = (Val b, s2) ->
  exists a s1, m s = (Val a, s1) /\ k a s1 = (Val b, s2).
Proof.
  unfold bind. destruct (m s) as [[a|o] s1]; [eauto | discriminate].
Qed.

(** A run of [bind m k] that stops was stopped by [m] or by [k]. *)
Lemma bind_inv_halt {A B} (m : M S A) (k : A -> M S B) s o s2 :
  bind m k s = (Halt o, s2) ->
  m s = (Halt o, s2) \/ exists a s1, m s = (Val a, s1) /\ k a s1 = (Halt o, s2).
Proof.
  unfold bind. destruct (m s) as [[a|o'] s1]; [eauto | intros [= -> ->]; eauto].
Qed.

End Laws.

(** ** Hoare triples *)

Section Hoare.
Context {S : Type}.
Implicit Types (P : S -> Prop) (E : outcome -> S -> Prop).

(** From a state in [P], [m] yields a value and a state in [Q], or ends the
    run with an outcome and a state in [E]. *)
Definition triple {A} P (m : M S A) (Q : A -> S -> Prop) E : Prop :=
  forall s, P s ->
    match m s with
    | (Val a, s') => Q a s'
    | (Halt o, s') => E o s'
    end.

Lemma triple_ret {A} (a : A) P E : triple P (ret a) (fun x s => x = a /\ P s) E.
Proof. intros s HP. simpl. auto. Qed.

Lemma triple_halt {A} o P : triple P (halt (A:=A) o) (fun _ _ => False) (fun o' s => o' = o /\ P s).
Proof. intros s HP. simpl. auto. Qed.

Lemma triple_bind {A B} P (m : M S A) (k : A -> M S B) Q R E :
  triple P m Q E ->
  (forall a, triple (Q a) (k a) R E) ->
  triple P (bind m k) R E.
Proof.
  intros Hm Hk s HP. specialize (Hm s HP). unfold bind.
  destruct (m s) as [[a|o] s']; [apply (Hk a s' Hm) | exact Hm].
Qed.

Lemma triple_conseq {A} P P' (m : M S A) (Q Q' : A -> S -> Prop) E E' :
  triple P' m Q' E' ->
  (forall s, P s -> P' s) ->
  (forall a s, Q' a s -> Q a s) ->
  (forall o s, E' o s -> E o s) ->
  triple P m Q E.
Proof.
  intros Hm HP HQ HE s Hs. specialize (Hm s (HP s Hs)).
  destruct (m s) as [[a|o] s']; auto.
Qed.

Lemma triple_gets {A} (f : S -> A) P E :
  triple P (gets f) (fun a s => a = f s /\ P s) E.
Proof. intros s HP. simpl. auto. Qed.

Lemma triple_modify (f : S -> S) P E :
  triple P (modify f) (fun _ s => exists s0, s = f s0 /\ P s0) E.
Proof. intros s HP. simpl. eauto. Qed.

Lemma triple_check {A} f (o : option A) P :
  triple P (check f o) (fun a s => o = Some a /\ P s)
         (fun o' s => o = None /\ o' = Faulted f /\ P s).
Proof. intros s HP. destruct o; simpl; auto. Qed.

Lemma triple_bind_ret {A B} (a : A) (k : A -> M S B) P Q E :
  triple P (k a) Q E -> triple P (bind (ret a) k) Q E.
Proof. intros H s HP. exact (H s HP). Qed.

(** A fact that does not depend on the state can be taken out of the
    precondition. *)
Lemma triple_pure {A} (F : Prop) P (m : M S A) Q E :
  (F -> triple P m Q E) -> triple (fun s => P s /\ F) m Q E.
Proof. intros H s [HP HF]. now apply H. Qed.

(** A state invariant that every step preserves, whatever the step does:
    the shape of most safety proofs. *)
Definition preserves {A} (I : S -> Prop) (m : M S A) : Prop :=
  triple I m (fun _ => I) (fun _ => I).

Lemma preserves_ret {A} I (a : A) : preserves I (ret a).
Proof. intros s H. exact H. Qed.

Lemma preserves_halt {A} I o : preserves I (halt (A:=A) o).
Proof. intros s H. exact H. Qed.

Lemma preserves_bind {A B} I (m : M S A) (k : A -> M S B) :
  preserves I m -> (forall a, preserves I (k a)) -> preserves I (bind m k).
Proof. intros Hm Hk. eapply triple_bind; [exact Hm | exact Hk]. Qed.

Lemma preserves_gets {A} I (f : S -> A) : preserves I (gets f).
Proof. intros s H. exact H. Qed.

Lemma preserves_modify I (f : S -> S) :
  (forall s, I s -> I (f s)) -> preserves I (modify f).
Proof. intros Hf s H. simpl. auto. Qed.

Lemma preserves_check {A} I f (o : option A) : preserves I (check f o).
Proof. intros s H. destruct o; exact H. Qed.

(** The final state of a run from a state of the invariant is in it. *)
Lemma preserves_run {A} I (m : M S A) s :
  preserves I m -> I s -> I (snd (m s)).
Proof.
  intros Hm Hs. specialize (Hm s Hs). destruct (m s) as [[a|o] s']; exact Hm.
Qed.

End Hoare.

#[export] Hint Resolve preserves_ret preserves_halt preserves_gets
  preserves_check : httpget.
#[export] Hint Rewrite @bind_ret_l @bind_halt : httpget.

(** Split a [preserves] goal along the structure of the program. *)
Ltac preserves_step :=
  first
    [ apply preserves_ret | apply preserves_halt | apply preserves_gets
    | apply preserves_check
    | apply preserves_bind; [|intros ?]
    | match goal with
      | |- preserves _ (if ?b then _ else _) => destruct b
      | |- preserves _ (match ?x with _ => _ end) => destruct x
      end ].

(** ** Iteration over a list *)

Section ForM.
Context {S A : Type}.

(** Run [f] on each element, first to last; a halt stops the iteration. *)
Fixpoint forM_ (l : list A) (f : A -> M S unit) : M S unit :=
  match l with
  | [] => ret tt
  | x :: l' => bind (f x) (fun _ => forM_ l' f)
  end.

Lemma forM__app (l k : list A) (f : A -> M S unit) s :
  forM_ (l ++ k) f s = bind (forM_ l f) (fun _ => forM_ k f) s.
Proof.
  revert s. induction l as [|x l IH]; intros s; simpl; [reflexivity|].
  rewrite bind_assoc. apply bind_ext. intros _ s'. apply IH.
Qed.

Lemma preserves_forM_ (I : S -> Prop) (l : list A) (f : A -> M S unit) :
  (forall x, preserves I (f x)) -> preserves I (forM_ l f).
Proof.
  intros Hf. induction l as [|x l IH]; simpl.
  - apply preserves_ret.
  - apply preserves_bind; [apply Hf | intros _; exact IH].
Qed.

(** When every step yields a value, the iteration is a fold of the state
    transformer the steps denote. *)
Lemma forM__fold (l : list A) (f : A -> M S unit) (g : A -> S -> S) s :
  (forall x s, f x s = (Val tt, g x s)) ->
  forM_ l f s = (Val tt, fold_left (fun s x => g x s) l s).
Proof.
  intros Hf. revert s. induction l as [|x l IH]; intros s; simpl; [reflexivity|].
  unfold bind. rewrite Hf. apply IH.
Qed.

End ForM.
