(* ===== verification/Config.v ===== *)
(** * Compile-time configuration (http_get.c, lines 33-50)

    The macros that fix the host, the port, the path and the request, the
    size of the response buffer, and the header constants the program
    passes to the socket layer.  The build option
    [CONFIG_NET_SOCKETS_SOCKOPT_TLS] is a [bool] argument of everything that
    depends on it. *)

From Stdlib Require Import ZArith List Lia.
From Stdlib Require Import Strings.String Strings.Ascii.
From stdpp Require Import base tactics list.
From S2P Require Import Prelude.

#[local] Open Scope string_scope.

(** [#define HTTP_HOST "google.com"] *)
Definition HTTP_HOST : string := "google.com".

(** [HTTP_PORT]: "443" when TLS is configured, "80" otherwise. *)
Definition HTTP_PORT (tls : bool) : string := if tls then "443" else "80".

(** [#define HTTP_PATH "/"] *)
Definition HTTP_PATH : string := "/".

(** [#define SSTRLEN(s) (sizeof(s) - 1)] *)
Definition SSTRLEN (s : string) : nat := c_sizeof s - 1.

(** [#define REQUEST "GET " HTTP_PATH " HTTP/1.0\r\nHost: www." HTTP_HOST "\r\n\r\n"] *)
Definition REQUEST : string :=
  "GET " ++ HTTP_PATH ++ " HTTP/1.0" ++ CRLF ++
  "Host: www." ++ HTTP_HOST ++ CRLF ++ CRLF.

(** [static char response[1024]]: static storage, so zero-initialised. *)
Definition response : list byte := replicate 1024 NUL.

(** [static bool is_network_ready = false] *)
Definition is_network_ready : bool := false.

(** The array a string literal denotes: its bytes and the terminator. *)
Definition literal (s : string) : list byte := (bytes_of s ++ [NUL])%list.

(** The constants of the socket and TLS headers that the program names.
    Their values belong to the platform; nothing proved here depends on
    them. *)
Class SocketConsts : Type := {
  AF_INET : Z;
  SOCK_STREAM : Z;
  IPPROTO_TLS_1_2 : Z;
  SOL_TLS : Z;
  TLS_SEC_TAG_LIST : Z;
  TLS_HOSTNAME : Z;
  CA_CERTIFICATE_TAG : Z;
  TLS_CREDENTIAL_CA_CERTIFICATE : Z;
  ca_certificate : list byte;
}.

(** The values of a Zephyr build, for running the model. *)
Definition zephyr_socket_consts : SocketConsts := {|
  AF_INET := 1;
  SOCK_STREAM := 1;
  IPPROTO_TLS_1_2 := 258;
  SOL_TLS := 282;
  TLS_SEC_TAG_LIST := 1;
  TLS_HOSTNAME := 2;
  CA_CERTIFICATE_TAG := 1;
  TLS_CREDENTIAL_CA_CERTIFICATE := 1;
  ca_certificate := bytes_of "-----BEGIN CERTIFICATE-----";
|}.

(** ** Properties *)

Lemma length_bytes_of (s : string) : length (bytes_of s) = String.length s.
Proof.
  unfold bytes_of, list_byte_of_string.
  rewrite length_map. induction s; simpl; congruence.
Qed.

(** [SSTRLEN] of a literal is its length without the terminator. *)
Lemma SSTRLEN_length (s : string) : SSTRLEN s = length (bytes_of s).
Proof. unfold SSTRLEN, c_sizeof. rewrite length_bytes_of. lia. Qed.

(** The first [SSTRLEN s] bytes of the array of a literal are its
    characters: the terminator is left out. *)
Lemma take_SSTRLEN_literal (s : string) :
  take (SSTRLEN s) (literal s) = bytes_of s.
Proof.
  unfold literal. rewrite SSTRLEN_length. now rewrite take_app_length.
Qed.

Lemma length_response : length response = 1024.
Proof. reflexivity. Qed.

(** The request on the wire: the [SSTRLEN(REQUEST)] bytes of the literal
    are the 40 bytes of the request line, the Host header and the empty
    line that closes the head; the terminator is not among them. *)
Lemma REQUEST_bytes :
  bytes_of REQUEST =
    (bytes_of "GET / HTTP/1.0" ++ bytes_of CRLF ++
     bytes_of "Host: www.google.com" ++ bytes_of CRLF ++ bytes_of CRLF)%list /\
  length (bytes_of REQUEST) = 40 /\ NUL ∉ bytes_of REQUEST.
Proof.
  split; [reflexivity|]. split; [reflexivity|].
  intros H%list_elem_of_In. vm_compute in H. intuition discriminate.
Qed.
