(* ===== verification/Platform.v ===== *)
(** * The platform interface, the log of calls and the program state

    Everything [main] calls that is not in http_get.c: the modem driver, the
    kernel sleep, the credential store, the resolver and the socket layer.
    The class [Platform] gives each call as a function of an abstract world;
    [PlatformLaws] states what the program relies on.  The program state
    holds the two static objects of the file, the callback table, the bus's
    list of registered callbacks, the log of calls made so far and the
    world. *)

From Stdlib Require Import ZArith List Lia.
From Stdlib Require Import Strings.String.
From stdpp Require Import base tactics numbers strings list.
From S2P Require Import Prelude Monad Config.

(** ** Data of the socket interface *)

(** [struct sockaddr_in], as far as the program reads it. *)
Record sockaddr : Type := {
  sa_family : Z;
  sin_port : Z;
  sin_addr : Z;
}.

(** One node of the list [getaddrinfo] returns.  [ai_self] is the address
    of the node, which [dump_addrinfo] prints.  [ai_addr] is the socket
    address itself and not a pointer that could be null: POSIX promises
    that every node of a successful [getaddrinfo] carries one, and that
    promise is made here by the type, so that reading [ai->ai_addr->...]
    (lines 114-115) cannot fault.  The pointer [res] itself can be null:
    see [plat_getaddrinfo_spec]. *)
Record addrinfo : Type := {
  ai_self : Z;
  ai_family : Z;
  ai_socktype : Z;
  ai_protocol : Z;
  ai_addr : sockaddr;
  ai_addrlen : Z;
}.

(** The fields of [hints] the resolver reads.  [hints] is static, so the
    fields the program does not assign are zero. *)
Record addrinfo_hints : Type := {
  hint_flags : Z;
  hint_family : Z;
  hint_socktype : Z;
  hint_protocol : Z;
}.

(** The value a [setsockopt] points to. *)
Inductive optval : Type :=
| OptTags (tags : list Z)
| OptBytes (bytes : list byte).

(** An argument of a [printf] or [printk]. *)
Inductive arg : Type :=
| AInt (z : Z)
| AStr (s : list byte)
| APtr (p : Z).

(** The handlers of the file, as the function pointers the callback table
    holds. *)
Inductive fnptr : Type :=
| FN_iface_dns_added_evt_handler
| FN_iface_up_evt_handler
| FN_iface_down_evt_handler.

Definition all_handlers : list fnptr :=
  [FN_iface_dns_added_evt_handler; FN_iface_up_evt_handler;
   FN_iface_down_evt_handler].

(** The line of each handler, by function pointer, for the statements
    that sort the entries of the log.  The handlers of [Readiness.v] carry
    their own literals (lines 61, 72, 82); [call_handler_run] there proves
    that what they print is this line. *)
Definition handler_message (f : fnptr) : string :=
  match f with
  | FN_iface_dns_added_evt_handler => "DNS ready" ++ LF
  | FN_iface_up_evt_handler => "interface is up" ++ LF
  | FN_iface_down_evt_handler => "Interface is down" ++ LF
  end.

(** ** The log *)

(** One entry per call that leaves the program, with its arguments and what
    it returned.  Output is logged as the format and its arguments. *)
Inductive io : Type :=
| IoPrintk (fmt : string) (args : list arg)
| IoPrintf (fmt : string) (args : list arg)
| IoAddCallback (handler : option fnptr) (mask : Z)
| IoModemReset (ret : Z)
| IoSleep (seconds : Z)
| IoTlsCredentialAdd (tag type : Z) (cred : list byte) (len : nat) (ret : Z)
| IoGetaddrinfo (host port : string) (hints : addrinfo_hints) (ret : Z)
    (res : list addrinfo)
| IoSocket (family type proto : Z) (ret : Z)
| IoSetsockopt (sock level optname : Z) (val : optval) (len : nat) (ret : Z)
| IoConnect (sock : Z) (addr : sockaddr) (addrlen : Z) (ret : Z)
| IoSend (sock : Z) (data : list byte) (flags : Z) (ret : Z)
| IoRecv (sock : Z) (cap : nat) (flags : Z) (ret : Z) (data : list byte)
| IoClose (sock : Z) (ret : Z)
| IoExit (code : Z).

#[export] Instance sockaddr_eq_dec : EqDecision sockaddr.
Proof. solve_decision. Defined.
#[export] Instance addrinfo_eq_dec : EqDecision addrinfo.
Proof. solve_decision. Defined.
#[export] Instance addrinfo_hints_eq_dec : EqDecision addrinfo_hints.
Proof. solve_decision. Defined.
#[export] Instance optval_eq_dec : EqDecision optval.
Proof. solve_decision. Defined.
#[export] Instance arg_eq_dec : EqDecision arg.
Proof. solve_decision. Defined.
#[export] Instance fnptr_eq_dec : EqDecision fnptr.
Proof. solve_decision. Defined.
#[export] Instance io_eq_dec : EqDecision io.
Proof. solve_decision. Defined.

(** ** The platform *)

(** Each call takes the world and gives its result and the next world.
    [plat_raised] gives the events the network stack raised since the
    previous call; [send] is given the [len] bytes it may read. *)
Class Platform (W : Type) : Type := {
  plat_raised : W -> list Z * W;
  plat_mdm_hl7800_reset : W -> Z * W;
  plat_k_sleep : Z -> W -> unit * W;
  plat_tls_credential_add : Z -> Z -> list byte -> nat -> W -> Z * W;
  plat_getaddrinfo :
    string -> string -> addrinfo_hints -> W -> (Z * list addrinfo) * W;
  plat_socket : Z -> Z -> Z -> W -> Z * W;
  plat_setsockopt : Z -> Z -> Z -> optval -> nat -> W -> Z * W;
  plat_connect : Z -> sockaddr -> Z -> W -> Z * W;
  plat_send : Z -> list byte -> Z -> W -> Z * W;
  plat_recv : Z -> nat -> Z -> W -> (Z * list byte) * W;
  plat_close : Z -> W -> Z * W;
}.

(** What POSIX promises of the two calls whose results the program uses
    as an index or dereferences.  A third promise, that the nodes
    [getaddrinfo] returns carry a socket address, is part of the type
    [addrinfo]. *)
Class PlatformLaws (W : Type) `{Platform W} : Prop := {
  (** [recv] returns a negative value and writes nothing, or the number of
      bytes it wrote, which is at most the capacity it was given. *)
  plat_recv_spec : forall sock cap flags w len data w',
    plat_recv sock cap flags w = (len, data, w') ->
    (len < 0 /\ data = [])%Z \/
    (0 <= len <= Z.of_nat cap /\ Z.of_nat (length data) = len)%Z;
  (** [getaddrinfo] that reports success returns at least one node. *)
  plat_getaddrinfo_spec : forall host port hints w res w',
    plat_getaddrinfo host port hints w = (0%Z, res, w') -> res <> [];
}.

(** ** The program state *)

(** [struct net_mgmt_event_callback], as [net_mgmt_init_event_callback]
    fills it. *)
Record net_mgmt_event_callback : Type := {
  cb_handler : option fnptr;
  cb_event_mask : Z;
}.

(** [struct mgmt_events] (lines 86-90). *)
Record mgmt_events : Type := {
  event : Z;
  handler : option fnptr;
  cb : net_mgmt_event_callback;
}.

Record state (W : Type) : Type := {
  st_ready : bool;                       (* is_network_ready *)
  st_response : list byte;               (* response[1024] *)
  st_iface_events : list mgmt_events;    (* iface_events[] *)
  st_callbacks : list nat;               (* the bus's list, newest first:
                                            indices into iface_events *)
  st_log : list io;                      (* oldest first *)
  st_world : W;
}.

Arguments st_ready {W} _.
Arguments st_response {W} _.
Arguments st_iface_events {W} _.
Arguments st_callbacks {W} _.
Arguments st_log {W} _.
Arguments st_world {W} _.

#[export] Instance net_mgmt_event_callback_eq_dec :
  EqDecision net_mgmt_event_callback.
Proof. solve_decision. Defined.
#[export] Instance mgmt_events_eq_dec : EqDecision mgmt_events.
Proof. solve_decision. Defined.

Section State.
Context {W : Type}.
Implicit Types (s : state W).

Definition set_ready (b : bool) s : state W :=
  {| st_ready := b; st_response := st_response s;
     st_iface_events := st_iface_events s; st_callbacks := st_callbacks s;
     st_log := st_log s; st_world := st_world s |}.

Definition set_response (r : list byte) s : state W :=
  {| st_ready := st_ready s; st_response := r;
     st_iface_events := st_iface_events s; st_callbacks := st_callbacks s;
     st_log := st_log s; st_world := st_world s |}.

Definition set_iface_events (t : list mgmt_events) s : state W :=
  {| st_ready := st_ready s; st_response := st_response s;
     st_iface_events := t; st_callbacks := st_callbacks s;
     st_log := st_log s; st_world := st_world s |}.

Definition set_callbacks (l : list nat) s : state W :=
  {| st_ready := st_ready s; st_response := st_response s;
     st_iface_events := st_iface_events s; st_callbacks := l;
     st_log := st_log s; st_world := st_world s |}.

Definition set_log (l : list io) s : state W :=
  {| st_ready := st_ready s; st_response := st_response s;
     st_iface_events := st_iface_events s; st_callbacks := st_callbacks s;
     st_log := l; st_world := st_world s |}.

Definition set_world (w : W) s : state W :=
  {| st_ready := st_ready s; st_response := st_response s;
     st_iface_events := st_iface_events s; st_callbacks := st_callbacks s;
     st_log := st_log s; st_world := w |}.

(** Append an entry to the log. *)
Definition emit (e : io) : M (state W) unit :=
  modify (fun s => set_log (st_log s ++ [e]) s).

(** [printk(fmt, args...)] and [printf(fmt, args...)]. *)
Definition printk (fmt : string) (args : list arg) : M (state W) unit :=
  emit (IoPrintk fmt args).

Definition printf (fmt : string) (args : list arg) : M (state W) unit :=
  emit (IoPrintf fmt args).

(** [exit(code)]: the run ends here. *)
Definition exit {A} (code : Z) : M (state W) A :=
  (emit (IoExit code) ;; halt (Exited code))%prog.

(** Run a call of the platform on the world. *)
Definition world_call {A} (f : W -> A * W) : M (state W) A :=
  fun s => let (a, w) := f (st_world s) in (Val a, set_world w s).

End State.

(** ** Projections of the log *)

(** The entries that are calls of the socket layer. *)
Definition is_socket_io (e : io) : bool :=
  match e with
  | IoSocket _ _ _ _ | IoSetsockopt _ _ _ _ _ _ | IoConnect _ _ _ _
  | IoSend _ _ _ _ | IoRecv _ _ _ _ _ | IoClose _ _ => true
  | _ => false
  end.

Definition socket_calls (log : list io) : list io :=
  filter (fun e => is_socket_io e = true) log.

(** What reaches standard output through [%s] conversions: the response
    as it is printed. *)
Definition printed_body (log : list io) : list byte :=
  concat (omap (fun e => match e with
                         | IoPrintf _ [AStr s] => Some s
                         | _ => None
                         end) log).

(** The number of entries of the log that satisfy [p]. *)
Definition count_io (p : io -> bool) (log : list io) : nat :=
  length (filter (fun e => p e = true) log).

Definition is_close (e : io) : bool :=
  match e with IoClose _ _ => true | _ => false end.
Definition is_socket (e : io) : bool :=
  match e with IoSocket _ _ _ _ => true | _ => false end.
Definition is_connect (e : io) : bool :=
  match e with IoConnect _ _ _ _ => true | _ => false end.
Definition is_send (e : io) : bool :=
  match e with IoSend _ _ _ _ => true | _ => false end.
Definition is_recv (e : io) : bool :=
  match e with IoRecv _ _ _ _ _ => true | _ => false end.
Definition is_setsockopt (e : io) : bool :=
  match e with IoSetsockopt _ _ _ _ _ _ => true | _ => false end.
Definition is_tls_credential_add (e : io) : bool :=
  match e with IoTlsCredentialAdd _ _ _ _ _ => true | _ => false end.
Definition is_sleep (e : io) : bool :=
  match e with IoSleep _ => true | _ => false end.
Definition is_getaddrinfo (e : io) : bool :=
  match e with IoGetaddrinfo _ _ _ _ _ => true | _ => false end.

(** The entries the handlers log, on the network stack's context. *)
Definition handler_prints : list io :=
  (fun f => IoPrintk (handler_message f) []) <$> all_handlers.

(** The log of [main]'s own calls: everything but the handlers' lines. *)
Definition main_log (log : list io) : list io :=
  filter (fun e => e ∉ handler_prints) log.

(** ** States that differ by what the callbacks do

    [quiet s s']: from [s] to [s'] only the flag and the world changed and
    only lines of the handlers were logged.  This is all a dispatch of
    events can do. *)
Definition quiet {W} (s s' : state W) : Prop :=
  st_response s' = st_response s /\
  st_iface_events s' = st_iface_events s /\
  st_callbacks s' = st_callbacks s /\
  exists k, st_log s' = st_log s ++ k /\ Forall (fun e => e ∈ handler_prints) k.

#[export] Instance quiet_preorder {W} : PreOrder (@quiet W).
Proof.
  split.
  - intros s. repeat split. exists []. now rewrite app_nil_r.
  - intros s1 s2 s3 (R1 & T1 & C1 & k1 & L1 & P1) (R2 & T2 & C2 & k2 & L2 & P2).
    repeat split; try congruence.
    exists (k1 ++ k2). rewrite L2, L1, app_assoc. split; [reflexivity|].
    now apply Forall_app.
Qed.

(** ** Frame lemmas of the basic operations *)

Section Frame.
Context {W : Type}.
Implicit Types (s : state W).

Lemma emit_run e s : emit e s = (Val tt, set_log (st_log s ++ [e]) s).
Proof. reflexivity. Qed.

Lemma printk_run fmt args s :
  printk fmt args s = (Val tt, set_log (st_log s ++ [IoPrintk fmt args]) s).
Proof. reflexivity. Qed.

Lemma printf_run fmt args s :
  printf fmt args s = (Val tt, set_log (st_log s ++ [IoPrintf fmt args]) s).
Proof. reflexivity. Qed.

Lemma exit_run {A} code s :
  exit (A:=A) code s = (Halt (Exited code), set_log (st_log s ++ [IoExit code]) s).
Proof. reflexivity. Qed.

Lemma count_io_app p (l k : list io) :
  count_io p (l ++ k) = count_io p l + count_io p k.
Proof. unfold count_io. now rewrite filter_app, length_app. Qed.

Lemma count_io_snoc p (l : list io) e :
  count_io p (l ++ [e]) = count_io p l + (if p e then 1 else 0).
Proof.
  rewrite count_io_app. f_equal. unfold count_io. rewrite filter_cons.
  destruct (p e); destruct (decide _); simpl; congruence.
Qed.

Lemma socket_calls_app (l k : list io) :
  socket_calls (l ++ k) = socket_calls l ++ socket_calls k.
Proof. apply filter_app. Qed.

Lemma printed_body_app (l k : list io) :
  printed_body (l ++ k) = printed_body l ++ printed_body k.
Proof. unfold printed_body. now rewrite omap_app, concat_app. Qed.

Lemma filter_handler_prints (P : io -> Prop) `{!forall e, Decision (P e)}
    (k : list io) :
  (forall e, e ∈ handler_prints -> ~ P e) ->
  Forall (fun e => e ∈ handler_prints) k ->
  filter P k = [].
Proof.
  intros Hp Hk. induction Hk as [|e k He _ IH]; [reflexivity|].
  rewrite filter_cons, IH. now rewrite decide_False by auto.
Qed.

(** What [quiet] leaves alone: every projection of the log that ignores
    the handlers' lines. *)
Lemma quiet_filter (P : io -> Prop) `{!forall e, Decision (P e)} s s' :
  (forall e, e ∈ handler_prints -> ~ P e) ->
  quiet s s' -> filter P (st_log s') = filter P (st_log s).
Proof.
  intros Hp (_ & _ & _ & k & -> & Hk).
  now rewrite filter_app, (filter_handler_prints P k Hp Hk), app_nil_r.
Qed.

Lemma handler_prints_printk e :
  e ∈ handler_prints -> exists f, e = IoPrintk (handler_message f) [].
Proof. intros (f & -> & _)%list_elem_of_fmap. eauto. Qed.

Lemma quiet_main_log s s' :
  quiet s s' -> main_log (st_log s') = main_log (st_log s).
Proof. apply quiet_filter. tauto. Qed.

Lemma quiet_count_io (p : io -> bool) s s' :
  (forall fmt args, p (IoPrintk fmt args) = false) ->
  quiet s s' -> count_io p (st_log s') = count_io p (st_log s).
Proof.
  intros Hp Hq. unfold count_io. rewrite (quiet_filter _ s s'); [reflexivity| |exact Hq].
  intros e (f & ->)%handler_prints_printk. now rewrite Hp.
Qed.

Lemma quiet_socket_calls s s' :
  quiet s s' -> socket_calls (st_log s') = socket_calls (st_log s).
Proof.
  apply quiet_filter. now intros e (f & ->)%handler_prints_printk.
Qed.

Lemma quiet_printed_body s s' :
  quiet s s' -> printed_body (st_log s') = printed_body (st_log s).
Proof.
  intros (_ & _ & _ & k & -> & Hk). rewrite printed_body_app.
  rewrite <- (app_nil_r (printed_body (st_log s))) at 2. f_equal.
  induction Hk as [|e k He _ IH]; [reflexivity|].
  apply handler_prints_printk in He as (f & ->). exact IH.
Qed.

(** The handlers print nothing of the response. *)
Lemma printed_body_main_log (l : list io) :
  printed_body (main_log l) = printed_body l.
Proof.
  unfold printed_body, main_log. f_equal. apply omap_filter.
  intros e He. apply dec_stable in He.
  now apply handler_prints_printk in He as (f & ->).
Qed.

Lemma quiet_set_ready b s : quiet s (set_ready b s).
Proof. repeat split. exists []. now rewrite app_nil_r. Qed.

Lemma quiet_set_world w s : quiet s (set_world w s).
Proof. repeat split. exists []. now rewrite app_nil_r. Qed.

Lemma quiet_handler_print f s :
  quiet s (set_log (st_log s ++ [IoPrintk (handler_message f) []]) s).
Proof.
  repeat split. exists [IoPrintk (handler_message f) []].
  split; [reflexivity|]. constructor; [|constructor].
  apply list_elem_of_fmap. exists f. split; [reflexivity|].
  destruct f; unfold all_handlers; repeat constructor.
Qed.

Lemma main_log_app (l k : list io) : main_log (l ++ k) = main_log l ++ main_log k.
Proof. apply filter_app. Qed.

(** An entry that is not a handler's line stays in [main]'s log. *)
Lemma main_log_snoc (l : list io) e :
  e ∉ handler_prints -> main_log (l ++ [e]) = main_log l ++ [e].
Proof.
  intros He. rewrite main_log_app. f_equal. unfold main_log.
  now rewrite filter_cons, decide_True.
Qed.

End Frame.

#[export] Hint Resolve quiet_set_ready quiet_set_world quiet_handler_print
  : httpget.

#[export] Hint Rewrite @emit_run @printk_run @printf_run @exit_run : httpget.
#[export] Hint Rewrite count_io_app socket_calls_app printed_body_app
  main_log_app : httpget.
