(* ===== verification/Script.v ===== *)
(** * A platform that answers from a script

    The executable instance of [Platform]: a world is the list of answers
    the platform will still give.  Every finite run of [main] against any
    deterministic platform is the run against one script, so theorems about
    all scripts are theorems about all such platforms; the script makes the
    hypotheses of those theorems statements about the answers themselves.
    A script cannot express an unlawful answer: [PlatformLaws] holds of
    it. *)

From Stdlib Require Import ZArith List Lia.
From Stdlib Require Import Strings.String.
From stdpp Require Import base tactics numbers list.
From S2P Require Import Prelude Monad Config Platform.

#[local] Open Scope Z_scope.

(** What the resolver answers: success with a first node and the rest of
    the list, or an error status (zero is read as -1). *)
Inductive resolve_answer : Type :=
| ResolveOk (first : addrinfo) (rest : list addrinfo)
| ResolveErr (status : Z).

(** What one [recv] finds: bytes that have arrived (none: the peer closed),
    or an error. *)
Inductive recv_answer : Type :=
| RecvData (data : list byte)
| RecvErr (errno : positive).

Record script : Type := {
  sc_raised : list (list Z);      (* events raised during successive calls *)
  sc_modem : Z;                   (* mdm_hl7800_reset *)
  sc_credential : Z;              (* tls_credential_add *)
  sc_resolve : resolve_answer;    (* getaddrinfo *)
  sc_socket : Z;                  (* socket *)
  sc_setsockopt : list Z;         (* successive setsockopt calls *)
  sc_connect : Z;                 (* connect *)
  sc_send : Z;                    (* send *)
  sc_recv : list recv_answer;     (* successive recv calls; then the peer
                                     has closed *)
  sc_close : Z;                   (* close *)
}.

Definition set_sc_raised (l : list (list Z)) (w : script) : script :=
  {| sc_raised := l; sc_modem := sc_modem w; sc_credential := sc_credential w;
     sc_resolve := sc_resolve w; sc_socket := sc_socket w;
     sc_setsockopt := sc_setsockopt w; sc_connect := sc_connect w;
     sc_send := sc_send w; sc_recv := sc_recv w; sc_close := sc_close w |}.

Definition set_sc_setsockopt (l : list Z) (w : script) : script :=
  {| sc_raised := sc_raised w; sc_modem := sc_modem w;
     sc_credential := sc_credential w;
     sc_resolve := sc_resolve w; sc_socket := sc_socket w;
     sc_setsockopt := l; sc_connect := sc_connect w;
     sc_send := sc_send w; sc_recv := sc_recv w; sc_close := sc_close w |}.

Definition set_sc_recv (l : list recv_answer) (w : script) : script :=
  {| sc_raised := sc_raised w; sc_modem := sc_modem w;
     sc_credential := sc_credential w;
     sc_resolve := sc_resolve w; sc_socket := sc_socket w;
     sc_setsockopt := sc_setsockopt w; sc_connect := sc_connect w;
     sc_send := sc_send w; sc_recv := l; sc_close := sc_close w |}.

Definition script_raised (w : script) : list Z * script :=
  match sc_raised w with
  | [] => ([], w)
  | evs :: rest => (evs, set_sc_raised rest w)
  end.

Definition script_getaddrinfo (w : script) : Z * list addrinfo :=
  match sc_resolve w with
  | ResolveOk first rest => (0, first :: rest)
  | ResolveErr status => (if status =? 0 then -1 else status, [])
  end.

Definition script_setsockopt (w : script) : Z * script :=
  match sc_setsockopt w with
  | [] => (0, w)
  | r :: rest => (r, set_sc_setsockopt rest w)
  end.

(** [recv] with room for [cap] bytes: at most [cap] of the bytes that have
    arrived are taken, the others stay for the next call. *)
Definition script_recv (cap : nat) (w : script) : (Z * list byte) * script :=
  match sc_recv w with
  | [] => ((0, []), w)
  | RecvErr errno :: rest => ((Z.neg errno, []), set_sc_recv rest w)
  | RecvData data :: rest =>
    if decide (length data <= cap)%nat
    then ((Z.of_nat (length data), data), set_sc_recv rest w)
    else ((Z.of_nat cap, take cap data),
          set_sc_recv (RecvData (drop cap data) :: rest) w)
  end.

#[export] Instance script_platform : Platform script := {|
  plat_raised := script_raised;
  plat_mdm_hl7800_reset := fun w => (sc_modem w, w);
  plat_k_sleep := fun _ w => (tt, w);
  plat_tls_credential_add := fun _ _ _ _ w => (sc_credential w, w);
  plat_getaddrinfo := fun _ _ _ w => (script_getaddrinfo w, w);
  plat_socket := fun _ _ _ w => (sc_socket w, w);
  plat_setsockopt := fun _ _ _ _ _ w => script_setsockopt w;
  plat_connect := fun _ _ _ w => (sc_connect w, w);
  plat_send := fun _ _ _ w => (sc_send w, w);
  plat_recv := fun _ cap _ w => script_recv cap w;
  plat_close := fun _ w => (sc_close w, w);
|}.

(** A script in which everything succeeds at once: the modem comes up, the
    resolver gives [a], every socket call returns 0 (the socket is 3), and
    the peer sends [chunks]. *)
Definition happy_script (raised : list (list Z)) (a : addrinfo)
    (chunks : list (list byte)) : script :=
  {| sc_raised := raised; sc_modem := 0; sc_credential := 0;
     sc_resolve := ResolveOk a []; sc_socket := 3; sc_setsockopt := [];
     sc_connect := 0; sc_send := 40; sc_recv := RecvData <$> chunks;
     sc_close := 0 |}.

(** A script given by the answers of the request, with no events, a
    modem that comes up and a credential that is installed. *)
Definition answer_script (resolve : resolve_answer) (socket : Z)
    (sockopts : list Z) (connect send : Z) (recv : list recv_answer) : script :=
  {| sc_raised := []; sc_modem := 0; sc_credential := 0;
     sc_resolve := resolve; sc_socket := socket; sc_setsockopt := sockopts;
     sc_connect := connect; sc_send := send; sc_recv := recv; sc_close := 0 |}.

(** An IPv4 stream address, for the examples. *)
Definition example_addrinfo : addrinfo :=
  {| ai_self := 0x20001000; ai_family := 1; ai_socktype := 1;
     ai_protocol := 6;
     ai_addr := {| sa_family := 1; sin_port := 0x5000; sin_addr := 0x7F000001 |};
     ai_addrlen := 8 |}.

(** ** The script is lawful *)

Lemma script_recv_spec cap w len data w' :
  script_recv cap w = (len, data, w') ->
  (len < 0 /\ data = []) \/
  (0 <= len <= Z.of_nat cap /\ Z.of_nat (length data) = len).
Proof.
  unfold script_recv. destruct (sc_recv w) as [|[d|e] rest].
  - intros [= <- <- <-]. right. simpl. lia.
  - destruct (decide _) as [Hle|Hgt]; intros [= <- <- <-]; right.
    + lia.
    + rewrite length_take. lia.
  - intros [= <- <- <-]. left. split; [lia | reflexivity].
Qed.

Lemma script_getaddrinfo_spec w res :
  script_getaddrinfo w = (0, res) -> res <> [].
Proof.
  unfold script_getaddrinfo. destruct (sc_resolve w) as [a rest|st].
  - now intros [= <-].
  - destruct (Z.eqb_spec st 0); intros [= E _]; congruence.
Qed.

#[export] Instance script_laws : PlatformLaws script.
Proof.
  split.
  - intros sock cap flags w len data w'. apply script_recv_spec.
  - intros host port hints w res w' [= E _]. simpl in E.
    now apply script_getaddrinfo_spec in E.
Qed.
