(* ===== verification/Readiness.v ===== *)
(** * The readiness flag and its event handlers (http_get.c, lines 52-84)

    The three handlers the program registers with the network-management
    bus, over the state of [Platform], and the Readiness Tracker of the
    specification: a boolean driven by classified events.  The theorems say
    what each handler does on every event, that the handlers together
    implement the tracker, and that the flag is always what the lines the
    handlers have printed say it is ([flag_logged]). *)

From Stdlib Require Import ZArith List Lia.
From Stdlib Require Import Strings.String.
From stdpp Require Import base tactics numbers list.
From S2P Require Import Prelude Monad Config Platform.

#[local] Open Scope Z_scope.
#[local] Open Scope prog_scope.

(** The event codes of [net_event.h] that the program names.  The bus and
    the registration loop rely on their being nonzero and distinct. *)
Class NetEventCodes : Type := {
  NET_EVENT_DNS_SERVER_ADD : Z;
  NET_EVENT_IF_UP : Z;
  NET_EVENT_IF_DOWN : Z;
  net_event_nonzero :
    NET_EVENT_DNS_SERVER_ADD <> 0 /\ NET_EVENT_IF_UP <> 0 /\
    NET_EVENT_IF_DOWN <> 0;
  net_event_distinct :
    NET_EVENT_DNS_SERVER_ADD <> NET_EVENT_IF_UP /\
    NET_EVENT_DNS_SERVER_ADD <> NET_EVENT_IF_DOWN /\
    NET_EVENT_IF_UP <> NET_EVENT_IF_DOWN;
}.

(** The codes of a Zephyr build: event bit, interface bit, layer, layer
    code and command. *)
Program Definition zephyr_event_codes : NetEventCodes := {|
  NET_EVENT_DNS_SERVER_ADD := 0xF1140003;
  NET_EVENT_IF_UP := 0xD0010002;
  NET_EVENT_IF_DOWN := 0xD0010001;
|}.
Next Obligation. repeat split; discriminate. Qed.
Next Obligation. repeat split; discriminate. Qed.

(** ** The handlers *)

Section Handlers.
Context {W : Type} {codes : NetEventCodes}.

(** Lines 54-63.  The parameters [cb] and [iface], which no handler reads,
    are left out. *)
Definition iface_dns_added_evt_handler (mgmt_event : Z) : M (state W) unit :=
  if bool_decide (mgmt_event <> NET_EVENT_DNS_SERVER_ADD) then ret tt
  else
    printk ("DNS ready" ++ LF) [] ;;
    modify (set_ready true).

(** Lines 65-73. *)
Definition iface_up_evt_handler (mgmt_event : Z) : M (state W) unit :=
  if bool_decide (mgmt_event <> NET_EVENT_IF_UP) then ret tt
  else printk ("interface is up" ++ LF) [].

(** Lines 75-84. *)
Definition iface_down_evt_handler (mgmt_event : Z) : M (state W) unit :=
  if bool_decide (mgmt_event <> NET_EVENT_IF_DOWN) then ret tt
  else
    printk ("Interface is down" ++ LF) [] ;;
    modify (set_ready false).

(** A call through a function pointer of the callback table. *)
Definition call_handler (f : fnptr) (mgmt_event : Z) : M (state W) unit :=
  match f with
  | FN_iface_dns_added_evt_handler => iface_dns_added_evt_handler mgmt_event
  | FN_iface_up_evt_handler => iface_up_evt_handler mgmt_event
  | FN_iface_down_evt_handler => iface_down_evt_handler mgmt_event
  end.

End Handlers.

(** ** The Readiness Tracker of the specification *)

Inductive InterfaceEvent : Type :=
| InterfaceUp
| InterfaceDown
| DnsServerAdded
| Other.

#[export] Instance InterfaceEvent_eq_dec : EqDecision InterfaceEvent.
Proof. solve_decision. Defined.

(** [on_event]: down clears the flag, DNS-added sets it, the rest leave
    it. *)
Definition on_event (ev : InterfaceEvent) (ready : bool) : bool :=
  match ev with
  | InterfaceDown => false
  | DnsServerAdded => true
  | InterfaceUp | Other => ready
  end.

(** The tracker after a sequence of events, oldest first. *)
Definition tracker (evs : list InterfaceEvent) (ready : bool) : bool :=
  fold_left (fun r ev => on_event ev r) evs ready.

(** How the Event Subscriber classifies a raw event code. *)
Definition classify `{NetEventCodes} (mgmt_event : Z) : InterfaceEvent :=
  if decide (mgmt_event = NET_EVENT_DNS_SERVER_ADD) then DnsServerAdded
  else if decide (mgmt_event = NET_EVENT_IF_UP) then InterfaceUp
  else if decide (mgmt_event = NET_EVENT_IF_DOWN) then InterfaceDown
  else Other.

(** The event a handler is written for. *)
Definition handler_event `{NetEventCodes} (f : fnptr) : Z :=
  match f with
  | FN_iface_dns_added_evt_handler => NET_EVENT_DNS_SERVER_ADD
  | FN_iface_up_evt_handler => NET_EVENT_IF_UP
  | FN_iface_down_evt_handler => NET_EVENT_IF_DOWN
  end.

(** The tracker event a handler stands for. *)
Definition handler_kind (f : fnptr) : InterfaceEvent :=
  match f with
  | FN_iface_dns_added_evt_handler => DnsServerAdded
  | FN_iface_up_evt_handler => InterfaceUp
  | FN_iface_down_evt_handler => InterfaceDown
  end.

(** ** Properties of the tracker *)

(** The tracker is a latch: DNS-added sets it, down clears it. *)
Definition tracker_kind (ev : InterfaceEvent) : option bool :=
  match ev with
  | DnsServerAdded => Some true
  | InterfaceDown => Some false
  | InterfaceUp | Other => None
  end.

Lemma on_event_latch ev r : on_event ev r = latch_step tracker_kind r ev.
Proof. destruct ev; reflexivity. Qed.

Lemma tracker_latch evs r : tracker evs r = latch tracker_kind evs r.
Proof.
  unfold tracker, latch. revert r.
  induction evs as [|ev evs IH]; intros r; simpl; [reflexivity|].
  now rewrite IH, on_event_latch.
Qed.

Lemma tracker_app evs1 evs2 r :
  tracker (evs1 ++ evs2) r = tracker evs2 (tracker evs1 r).
Proof. apply fold_left_app. Qed.

Lemma on_event_idem ev r : on_event ev (on_event ev r) = on_event ev r.
Proof. destruct ev; reflexivity. Qed.

(** The tracker on classified raw events is a latch on the raw events. *)
Lemma tracker_classify `{NetEventCodes} (evs : list Z) r :
  tracker (classify <$> evs) r =
  latch (fun ev => tracker_kind (classify ev)) evs r.
Proof.
  rewrite tracker_latch. unfold latch. revert r.
  induction evs as [|ev evs IH]; intros r; simpl; [reflexivity|]. apply IH.
Qed.

Lemma classify_sets `{NetEventCodes} ev :
  tracker_kind (classify ev) = Some true <-> ev = NET_EVENT_DNS_SERVER_ADD.
Proof.
  unfold classify. repeat case_decide; simpl; split; congruence.
Qed.

Lemma classify_clears `{NetEventCodes} ev :
  tracker_kind (classify ev) = Some false <-> ev = NET_EVENT_IF_DOWN.
Proof.
  pose proof net_event_distinct as (H1 & H2 & H3).
  unfold classify. repeat case_decide; simpl; split; congruence.
Qed.

Lemma no_clear_classify `{NetEventCodes} (evs : list Z) :
  no_clear (fun ev => tracker_kind (classify ev)) evs <->
  NET_EVENT_IF_DOWN ∉ evs.
Proof.
  unfold no_clear. rewrite Forall_forall. split.
  - intros Hf Hin. apply (Hf _ Hin). now apply classify_clears.
  - intros Hn ev Hin Hk. apply classify_clears in Hk. now subst.
Qed.

(** ** The flag in the log

    A handler that changes the flag says so: the flag is set exactly when,
    of the lines "DNS ready" and "Interface is down", the last one logged
    is the former. *)

(** What a logged entry tells about the flag. *)
Definition print_kind (e : io) : option bool :=
  if decide (e = IoPrintk (handler_message FN_iface_dns_added_evt_handler) [])
  then Some true
  else if decide (e = IoPrintk (handler_message FN_iface_down_evt_handler) [])
  then Some false
  else None.

Definition flag_logged {W} (s : state W) : Prop :=
  st_ready s = latch print_kind (st_log s) is_network_ready.

(** The log shows that the network is ready. *)
Definition dns_ready_logged (log : list io) : Prop :=
  exists pre post,
    log = pre ++ IoPrintk (handler_message FN_iface_dns_added_evt_handler) []
              :: post /\
    IoPrintk (handler_message FN_iface_down_evt_handler) [] ∉ post.

Lemma print_kind_handler f :
  print_kind (IoPrintk (handler_message f) []) = tracker_kind (handler_kind f).
Proof. now destruct f. Qed.

Lemma print_kind_sets e :
  print_kind e = Some true ->
  e = IoPrintk (handler_message FN_iface_dns_added_evt_handler) [].
Proof. unfold print_kind. now repeat case_decide. Qed.

Lemma print_kind_clears e :
  print_kind e = Some false <->
  e = IoPrintk (handler_message FN_iface_down_evt_handler) [].
Proof.
  unfold print_kind. split; [now repeat case_decide | now intros ->].
Qed.

(** With the flag clear at the start, a set flag was set by a line of the
    log that no "Interface is down" follows. *)
Lemma flag_logged_ready {W} (s : state W) :
  flag_logged s -> st_ready s = true -> dns_ready_logged (st_log s).
Proof.
  unfold flag_logged. intros -> [H|[H _]]%latch_true_iff; [|discriminate].
  destruct H as (pre & x & post & -> & ->%print_kind_sets & Hc).
  exists pre, post. split; [reflexivity|]. intros Hin.
  apply (proj1 (Forall_forall _ _) Hc _ Hin). now apply print_kind_clears.
Qed.

(** ** Properties of the handlers *)

Section HandlerProps.
Context {W : Type} {codes : NetEventCodes}.
Implicit Types (s : state W) (f : fnptr).

(** What a handler does to the state when it accepts an event. *)
Definition accept (f : fnptr) s : state W :=
  let s1 := set_log (st_log s ++ [IoPrintk (handler_message f) []]) s in
  match f with
  | FN_iface_dns_added_evt_handler => set_ready true s1
  | FN_iface_up_evt_handler => s1
  | FN_iface_down_evt_handler => set_ready false s1
  end.

(** A handler accepts exactly its own event and returns at once on every
    other one. *)
Lemma call_handler_run f mgmt_event s :
  call_handler f mgmt_event s =
  (Val tt, if decide (mgmt_event = handler_event f) then accept f s else s).
Proof.
  destruct f; simpl;
    unfold iface_dns_added_evt_handler, iface_up_evt_handler,
      iface_down_evt_handler;
    destruct (decide _) as [->|Hne].
  all: try (rewrite bool_decide_eq_false_2 by tauto; reflexivity).
  all: rewrite bool_decide_eq_true_2 by assumption; reflexivity.
Qed.

Lemma st_ready_accept f s :
  st_ready (accept f s) = on_event (handler_kind f) (st_ready s).
Proof. destruct f; reflexivity. Qed.

Lemma flag_logged_accept f s : flag_logged s -> flag_logged (accept f s).
Proof.
  unfold flag_logged. intros H. rewrite st_ready_accept.
  replace (st_log (accept f s))
    with (st_log s ++ [IoPrintk (handler_message f) []]) by now destruct f.
  rewrite latch_app, <- H. unfold latch. simpl. unfold latch_step.
  rewrite print_kind_handler. now destruct f.
Qed.

(** An entry that is no such line leaves the invariant alone. *)
Lemma flag_logged_emit e s :
  print_kind e = None -> flag_logged s ->
  flag_logged (set_log (st_log s ++ [e]) s).
Proof.
  unfold flag_logged. intros He H. simpl. rewrite latch_app, <- H.
  unfold latch. simpl. unfold latch_step. now rewrite He.
Qed.

Lemma handler_event_classify f : classify (handler_event f) = handler_kind f.
Proof.
  pose proof net_event_distinct as (H1 & H2 & H3).
  destruct f; unfold classify; simpl; repeat case_decide; congruence.
Qed.

Lemma handler_event_inj f g : handler_event f = handler_event g -> f = g.
Proof.
  pose proof net_event_distinct as (H1 & H2 & H3).
  destruct f, g; simpl; congruence.
Qed.

(** A handler never touches the buffer, the table, the registrations or
    the world. *)
Lemma call_handler_frame f mgmt_event s :
  let s' := snd (call_handler f mgmt_event s) in
  st_response s' = st_response s /\
  st_iface_events s' = st_iface_events s /\
  st_callbacks s' = st_callbacks s /\
  st_world s' = st_world s.
Proof.
  rewrite call_handler_run. simpl.
  destruct (decide _); [destruct f|]; simpl; auto.
Qed.

(** C8: each handler checks the event code itself: called with any event
    other than its own it returns without touching the flag or printing,
    and called with its own it prints its message and updates the flag as
    the Readiness Tracker prescribes (DNS-added sets it, down clears it, up
    leaves it). *)
Theorem handler_guard f mgmt_event s :
  let s' := snd (call_handler f mgmt_event s) in
  (mgmt_event <> handler_event f -> s' = s) /\
  (mgmt_event = handler_event f ->
     st_ready s' = on_event (classify mgmt_event) (st_ready s) /\
     st_log s' = st_log s ++ [IoPrintk (handler_message f) []]).
Proof.
  rewrite call_handler_run. simpl. split; intros He.
  - now rewrite decide_False.
  - rewrite decide_True by assumption. subst mgmt_event.
    rewrite handler_event_classify, st_ready_accept.
    split; [reflexivity | destruct f; reflexivity].
Qed.

End HandlerProps.
