(* ===== verification/NetMgmt.v ===== *)
(** * Event subscription (http_get.c, lines 86-107) and the event bus

    The table [iface_events], the registration loop [setup_iface_events],
    and the part of Zephyr's network management the loop talks to:
    [net_mgmt_init_event_callback], [net_mgmt_add_event_callback] and the
    dispatch of a raised event to the registered callbacks.  The bus is not
    part of the file: it is modelled from its interface, and the class
    [EventBus] states the one thing the program needs of it, that an event
    reaches the callback registered for exactly that event. *)

From Stdlib Require Import ZArith List Lia.
From Stdlib Require Import Strings.String.
From stdpp Require Import base tactics numbers list.
From S2P Require Import Prelude Monad Config Platform Script Readiness.

#[local] Open Scope Z_scope.
#[local] Open Scope prog_scope.

(** ** The bus *)

(** [bus_match mask ev]: the bus hands a raised event [ev] to a callback
    registered with [mask]. *)
Class EventBus : Type := {
  bus_match : Z -> Z -> bool;
  bus_match_exact : forall ev, bus_match ev ev = true;
}.

(** Zephyr's rule: same layer, same layer code, and a common command bit
    when both name a command.  A callback can therefore be handed events
    it did not ask for. *)
Definition NET_MGMT_GET_LAYER (ev : Z) : Z := Z.land (Z.shiftr ev 28) 3.
Definition NET_MGMT_GET_LAYER_CODE (ev : Z) : Z := Z.land (Z.shiftr ev 16) 0xFFF.
Definition NET_MGMT_GET_COMMAND (ev : Z) : Z := Z.land ev 0xFFFF.

Definition zephyr_bus_match (mask ev : Z) : bool :=
  (NET_MGMT_GET_LAYER ev =? NET_MGMT_GET_LAYER mask) &&
  (NET_MGMT_GET_LAYER_CODE ev =? NET_MGMT_GET_LAYER_CODE mask) &&
  negb (negb (NET_MGMT_GET_COMMAND ev =? 0) &&
        negb (NET_MGMT_GET_COMMAND mask =? 0) &&
        (Z.land (NET_MGMT_GET_COMMAND ev) (NET_MGMT_GET_COMMAND mask) =? 0)).

Lemma zephyr_bus_match_exact ev : zephyr_bus_match ev ev = true.
Proof.
  unfold zephyr_bus_match. rewrite !Z.eqb_refl, Z.land_diag. simpl.
  destruct (NET_MGMT_GET_COMMAND ev =? 0); reflexivity.
Qed.

Definition zephyr_bus : EventBus :=
  {| bus_match := zephyr_bus_match; bus_match_exact := zephyr_bus_match_exact |}.

(** ** The table and the registration loop *)

Section Subscriber.
Context {W : Type} {plat : Platform W} {codes : NetEventCodes} {bus : EventBus}.

(** A [struct net_mgmt_event_callback] in static storage, before
    [net_mgmt_init_event_callback] fills it. *)
Definition cb_zero : net_mgmt_event_callback :=
  {| cb_handler := None; cb_event_mask := 0 |}.

(** Lines 86-95: three entries and the all-zero terminator the loop stops
    at. *)
Definition iface_events : list mgmt_events := [
  {| event := NET_EVENT_DNS_SERVER_ADD;
     handler := Some FN_iface_dns_added_evt_handler; cb := cb_zero |};
  {| event := NET_EVENT_IF_UP;
     handler := Some FN_iface_up_evt_handler; cb := cb_zero |};
  {| event := NET_EVENT_IF_DOWN;
     handler := Some FN_iface_down_evt_handler; cb := cb_zero |};
  {| event := 0; handler := None; cb := cb_zero |}
].

(** The state [main] starts in: the static objects as initialised, nothing
    registered, nothing logged. *)
Definition init_state (w : W) : state W :=
  {| st_ready := is_network_ready; st_response := response;
     st_iface_events := iface_events; st_callbacks := [];
     st_log := []; st_world := w |}.

(** [iface_events[i]]: a read outside the table is a fault. *)
Definition read_iface_events (i : nat) : M (state W) mgmt_events :=
  t <- gets st_iface_events ;;
  check OutOfBounds (t !! i).

(** [net_mgmt_init_event_callback(&iface_events[i].cb, handler, mask)]. *)
Definition net_mgmt_init_event_callback
    (i : nat) (h : option fnptr) (mask : Z) : M (state W) unit :=
  modify (fun s =>
    set_iface_events
      (alter (fun e => {| event := event e; handler := handler e;
                          cb := {| cb_handler := h; cb_event_mask := mask |} |})
             i (st_iface_events s)) s).

(** The bus runs the callbacks registered for [mgmt_event], newest
    registration first.  A callback whose handler is null is a fault. *)
Definition mgmt_run_callbacks (mgmt_event : Z) : M (state W) unit :=
  cbs <- gets st_callbacks ;;
  forM_ cbs (fun i =>
    e <- read_iface_events i ;;
    if bus_match (cb_event_mask (cb e)) mgmt_event then
      f <- check NullDeref (cb_handler (cb e)) ;;
      call_handler f mgmt_event
    else ret tt).

(** The events the stack raised since the previous call reach the
    callbacks that are registered now. *)
Definition deliver_raised : M (state W) unit :=
  evs <- world_call plat_raised ;;
  forM_ evs mgmt_run_callbacks.

(** [net_mgmt_add_event_callback(&iface_events[i].cb)]: the callback goes
    to the front of the bus's list. *)
Definition net_mgmt_add_event_callback (i : nat) : M (state W) unit :=
  e <- read_iface_events i ;;
  modify (fun s => set_callbacks (i :: st_callbacks s) s) ;;
  emit (IoAddCallback (cb_handler (cb e)) (cb_event_mask (cb e))) ;;
  deliver_raised.

(** Lines 99-106: [for (i = 0; iface_events[i].event; i++)]. *)
Fixpoint setup_loop (fuel i : nat) : M (state W) unit :=
  match fuel with
  | O => halt OutOfFuel
  | S fuel' =>
    e <- read_iface_events i ;;
    if bool_decide (event e <> 0) then
      net_mgmt_init_event_callback i (handler e) (event e) ;;
      net_mgmt_add_event_callback i ;;
      setup_loop fuel' (S i)
    else ret tt
  end.

(** Lines 97-107.  The loop is given one more round than the table has
    entries, which it cannot use up: a read past the table is a fault. *)
Definition setup_iface_events : M (state W) unit :=
  n <- gets (fun s => length (st_iface_events s)) ;;
  setup_loop (S n) 0.

End Subscriber.

(** ** What a dispatch does *)

Section Dispatch.
Context {W : Type} {plat : Platform W} {codes : NetEventCodes} {bus : EventBus}.
Implicit Types (s : state W) (f : fnptr) (t : list mgmt_events).

(** The handler the callback of entry [i] of the table carries. *)
Definition handler_in t (i : nat) : option fnptr :=
  t !! i ≫= fun e => cb_handler (cb e).

(** The handlers that are registered, newest first. *)
Definition registered s : list fnptr :=
  omap (handler_in (st_iface_events s)) (st_callbacks s).

(** Entry [i] of the table was initialised with a handler and with the
    event that handler is written for. *)
Definition entry_ok t (i : nat) : Prop :=
  match t !! i with
  | Some e =>
    match cb_handler (cb e) with
    | Some f => cb_event_mask (cb e) = handler_event f
    | None => False
    end
  | None => False
  end.

(** Every registered callback was initialised that way. *)
Definition well_registered s : Prop :=
  Forall (entry_ok (st_iface_events s)) (st_callbacks s).

(** All three handlers are registered. *)
Definition subscribed s : Prop :=
  Forall (fun f => f ∈ registered s) all_handlers.

#[export] Instance entry_ok_dec t i : Decision (entry_ok t i).
Proof. unfold entry_ok. repeat case_match; apply _. Defined.

#[export] Instance well_registered_dec s : Decision (well_registered s).
Proof. unfold well_registered. apply _. Defined.

#[export] Instance subscribed_dec s : Decision (subscribed s).
Proof. unfold subscribed. apply _. Defined.

Lemma subscribed_elem_of s f : subscribed s -> f ∈ registered s.
Proof.
  intros Hs. apply (proj1 (Forall_forall _ _) Hs).
  destruct f; unfold all_handlers; repeat constructor.
Qed.

(** One callback seeing one event; one event reaching all callbacks; a
    list of events reaching them in turn. *)
Definition dispatch_step (mgmt_event : Z) s f : state W :=
  if decide (mgmt_event = handler_event f) then accept f s else s.

Definition dispatch (mgmt_event : Z) s : state W :=
  fold_left (dispatch_step mgmt_event) (registered s) s.

Definition deliver (evs : list Z) s : state W :=
  fold_left (fun s ev => dispatch ev s) evs s.

(** The state after the events the world has ready were delivered. *)
Definition after_raised s : state W :=
  let (evs, w) := plat_raised (st_world s) in deliver evs (set_world w s).

Lemma quiet_accept f s : quiet s (accept f s).
Proof.
  destruct f; unfold accept;
    try (etransitivity; [apply quiet_handler_print | apply quiet_set_ready]);
    apply quiet_handler_print.
Qed.

Lemma quiet_dispatch_step ev s f : quiet s (dispatch_step ev s f).
Proof. unfold dispatch_step. destruct (decide _); [apply quiet_accept | reflexivity]. Qed.

Lemma quiet_dispatch ev s : quiet s (dispatch ev s).
Proof.
  unfold dispatch. apply fold_left_inv; [reflexivity|].
  intros s1 f Hq. etransitivity; [exact Hq | apply quiet_dispatch_step].
Qed.

Lemma quiet_deliver evs s : quiet s (deliver evs s).
Proof.
  unfold deliver. apply fold_left_inv; [reflexivity|].
  intros s1 ev Hq. etransitivity; [exact Hq | apply quiet_dispatch].
Qed.

Lemma quiet_after_raised s : quiet s (after_raised s).
Proof.
  unfold after_raised. destruct (plat_raised _) as [evs w].
  etransitivity; [apply quiet_set_world | apply quiet_deliver].
Qed.

(** Delivering events keeps the flag in step with the log. *)
Lemma flag_logged_dispatch ev s : flag_logged s -> flag_logged (dispatch ev s).
Proof.
  intros H0. unfold dispatch. apply fold_left_inv; [exact H0|].
  intros s1 f H. unfold dispatch_step.
  destruct (decide _); [now apply flag_logged_accept | exact H].
Qed.

Lemma flag_logged_deliver evs s : flag_logged s -> flag_logged (deliver evs s).
Proof.
  intros H0. unfold deliver. apply fold_left_inv; [exact H0|].
  intros s1 ev. apply flag_logged_dispatch.
Qed.

Lemma flag_logged_after_raised s : flag_logged s -> flag_logged (after_raised s).
Proof.
  unfold after_raised. destruct (plat_raised _) as [evs w]. intros H.
  now apply flag_logged_deliver.
Qed.

Lemma st_world_accept f s : st_world (accept f s) = st_world s.
Proof. now destruct f. Qed.

Lemma st_world_deliver evs s : st_world (deliver evs s) = st_world s.
Proof.
  unfold deliver. apply (fold_left_inv (fun s' => st_world s' = st_world s));
    [reflexivity|].
  intros s1 ev <-. unfold dispatch.
  apply (fold_left_inv (fun s' => st_world s' = st_world s1)); [reflexivity|].
  intros s2 f <-. unfold dispatch_step.
  destruct (decide _); [apply st_world_accept | reflexivity].
Qed.

Lemma st_world_after_raised s :
  st_world (after_raised s) = snd (plat_raised (st_world s)).
Proof.
  unfold after_raised. destruct (plat_raised _) as [evs w].
  now rewrite st_world_deliver.
Qed.

Lemma registered_quiet s s' : quiet s s' -> registered s' = registered s.
Proof. intros (_ & Ht & Hc & _). unfold registered. now rewrite Ht, Hc. Qed.

Lemma well_registered_quiet s s' :
  quiet s s' -> well_registered s -> well_registered s'.
Proof. intros (_ & Ht & Hc & _). unfold well_registered. now rewrite Ht, Hc. Qed.

Lemma subscribed_quiet s s' : quiet s s' -> subscribed s -> subscribed s'.
Proof. intros Hq. unfold subscribed. now rewrite (registered_quiet s s' Hq). Qed.

Lemma read_iface_events_run i s e :
  st_iface_events s !! i = Some e -> read_iface_events i s = (Val e, s).
Proof. intros Hi. unfold read_iface_events, gets, bind. now rewrite Hi. Qed.

(** One callback: whatever the bus hands over, the handler's own test
    makes the outcome depend only on whether the event is its own. *)
Lemma run_callback t cbs ev s :
  st_iface_events s = t -> Forall (entry_ok t) cbs ->
  forM_ cbs (fun i =>
    e <- read_iface_events i ;;
    if bus_match (cb_event_mask (cb e)) ev then
      f <- check NullDeref (cb_handler (cb e)) ;;
      call_handler f ev
    else ret tt) s =
  (Val tt, fold_left (dispatch_step ev) (omap (handler_in t) cbs) s).
Proof.
  intros Ht Hok. revert s Ht.
  induction Hok as [|i cbs Hi _ IH]; intros s Ht; [reflexivity|].
  unfold entry_ok in Hi.
  destruct (t !! i) as [e|] eqn:Hl; [|contradiction].
  destruct (cb_handler (cb e)) as [f|] eqn:Hf; [|contradiction].
  simpl. unfold handler_in at 1. rewrite Hl. simpl. rewrite Hf.
  assert (Hstep : forall s1, st_iface_events s1 = t ->
    (e0 <- read_iface_events i ;;
     if bus_match (cb_event_mask (cb e0)) ev then
       f0 <- check NullDeref (cb_handler (cb e0)) ;; call_handler f0 ev
     else ret tt) s1 = (Val tt, dispatch_step ev s1 f)).
  { intros s1 Ht1. erewrite bind_val by (apply read_iface_events_run; rewrite Ht1; exact Hl).
    rewrite Hi, Hf. unfold dispatch_step.
    destruct (bus_match (handler_event f) ev) eqn:Hm.
    - simpl. rewrite bind_ret_l. now rewrite call_handler_run.
    - destruct (decide _) as [->|]; [|reflexivity].
      now rewrite bus_match_exact in Hm. }
  erewrite bind_val by (apply Hstep, Ht). apply IH.
  destruct (quiet_dispatch_step ev s f) as (_ & -> & _). exact Ht.
Qed.

Lemma mgmt_run_callbacks_run ev s :
  well_registered s -> mgmt_run_callbacks ev s = (Val tt, dispatch ev s).
Proof.
  intros Hw. unfold mgmt_run_callbacks, gets, bind at 1.
  now apply run_callback.
Qed.

Lemma forM__mgmt_run_callbacks evs s :
  well_registered s -> forM_ evs mgmt_run_callbacks s = (Val tt, deliver evs s).
Proof.
  revert s. induction evs as [|ev evs IH]; intros s Hw; [reflexivity|].
  simpl. erewrite bind_val by now apply mgmt_run_callbacks_run.
  apply IH. eapply well_registered_quiet; [apply quiet_dispatch | exact Hw].
Qed.

Lemma deliver_raised_run s :
  well_registered s -> deliver_raised s = (Val tt, after_raised s).
Proof.
  intros Hw. unfold deliver_raised, after_raised, world_call, bind at 1.
  destruct (plat_raised _) as [evs w].
  now apply forM__mgmt_run_callbacks.
Qed.

(** The flag after one event: the tracker's step when a callback for
    exactly that event is registered, unchanged otherwise. *)
Lemma st_ready_dispatch ev s :
  st_ready (dispatch ev s) =
  if decide (ev ∈ handler_event <$> registered s)
  then on_event (classify ev) (st_ready s) else st_ready s.
Proof.
  unfold dispatch. generalize (registered s) as l. intros l. revert s.
  induction l as [|f l IH]; intros s.
  - destruct (decide _) as [Hin|]; [|reflexivity]. now apply elem_of_nil in Hin.
  - cbn [fold_left]. rewrite IH. rewrite fmap_cons. unfold dispatch_step.
    destruct (decide (ev = handler_event f)) as [->|Hne].
    + rewrite st_ready_accept, <- handler_event_classify, on_event_idem.
      rewrite (decide_True (P := _ ∈ _ :: _)) by left.
      now destruct (decide _).
    + destruct (decide (ev ∈ handler_event <$> l)) as [Hin|Hout].
      * now rewrite decide_True by now right.
      * rewrite decide_False; [reflexivity|].
        rewrite elem_of_cons. tauto.
Qed.

Lemma classify_other ev :
  (forall f, ev <> handler_event f) -> classify ev = Other.
Proof.
  intros Hf. unfold classify.
  pose proof (Hf FN_iface_dns_added_evt_handler).
  pose proof (Hf FN_iface_up_evt_handler).
  pose proof (Hf FN_iface_down_evt_handler).
  simpl in *. repeat case_decide; congruence.
Qed.

Lemma st_ready_dispatch_subscribed ev s :
  subscribed s ->
  st_ready (dispatch ev s) = on_event (classify ev) (st_ready s).
Proof.
  intros Hs. rewrite st_ready_dispatch. destruct (decide _) as [|Hout]; [reflexivity|].
  rewrite classify_other; [reflexivity|].
  intros f ->. apply Hout. apply list_elem_of_fmap.
  eauto using subscribed_elem_of.
Qed.

Lemma st_ready_deliver evs s :
  subscribed s ->
  st_ready (deliver evs s) = tracker (classify <$> evs) (st_ready s).
Proof.
  revert s. induction evs as [|ev evs IH]; intros s Hs; [reflexivity|].
  simpl. rewrite IH by (eapply subscribed_quiet; [apply quiet_dispatch | exact Hs]).
  now rewrite st_ready_dispatch_subscribed.
Qed.

(** Whatever is registered, a clear flag stays clear under events other
    than DNS-server-added. *)
Lemma st_ready_dispatch_clear ev s :
  st_ready s = false -> ev <> NET_EVENT_DNS_SERVER_ADD ->
  st_ready (dispatch ev s) = false.
Proof.
  intros Hr Hev. rewrite st_ready_dispatch, Hr.
  destruct (decide _); [|reflexivity].
  unfold classify. rewrite decide_False by exact Hev.
  now repeat case_decide.
Qed.

Lemma st_ready_deliver_clear evs s :
  st_ready s = false -> NET_EVENT_DNS_SERVER_ADD ∉ evs ->
  st_ready (deliver evs s) = false.
Proof.
  revert s. induction evs as [|ev evs IH]; intros s Hr Hn; [exact Hr|].
  apply not_elem_of_cons in Hn as [Hev Hn]. simpl. apply IH; [|exact Hn].
  apply st_ready_dispatch_clear; [exact Hr | congruence].
Qed.

(** The flag after a batch of events, whatever is registered: an event
    counts when a callback for exactly it is registered. *)
Definition heard s (r : bool) (ev : Z) : bool :=
  if decide (ev ∈ handler_event <$> registered s)
  then on_event (classify ev) r else r.

Lemma st_ready_deliver_heard evs s :
  st_ready (deliver evs s) = fold_left (heard s) evs (st_ready s).
Proof.
  revert s. induction evs as [|ev evs IH]; intros s; [reflexivity|].
  simpl. rewrite IH, st_ready_dispatch. unfold heard.
  now rewrite (registered_quiet _ _ (quiet_dispatch ev s)).
Qed.

Lemma st_ready_after_raised s :
  st_ready (after_raised s) =
  fold_left (heard s) (fst (plat_raised (st_world s))) (st_ready s).
Proof.
  unfold after_raised. destruct (plat_raised _) as [evs w].
  now rewrite st_ready_deliver_heard.
Qed.

End Dispatch.

(** ** The registration loop *)

Section Setup.
Context {W : Type} {plat : Platform W} {codes : NetEventCodes} {bus : EventBus}.
Implicit Types (s : state W) (f : fnptr) (t : list mgmt_events).

Definition is_add_callback (e : io) : bool :=
  match e with IoAddCallback _ _ => true | _ => false end.

(** The registrations the log records, oldest first. *)
Definition registrations (log : list io) : list io :=
  filter (fun e => is_add_callback e = true) log.

(** What [net_mgmt_init_event_callback] leaves in an entry. *)
Definition init_cb f (e : mgmt_events) : mgmt_events :=
  {| event := event e; handler := handler e;
     cb := {| cb_handler := Some f; cb_event_mask := handler_event f |} |}.

Lemma handler_event_nonzero f : handler_event f <> 0.
Proof. pose proof net_event_nonzero as (H1 & H2 & H3). now destruct f. Qed.

Lemma registrations_quiet s s' :
  quiet s s' -> registrations (st_log s') = registrations (st_log s).
Proof.
  apply quiet_filter. now intros e (f & ->)%handler_prints_printk.
Qed.

(** The loop stops at an entry whose event is zero. *)
Lemma setup_stop fuel i s e :
  st_iface_events s !! i = Some e -> event e = 0 ->
  setup_loop (S fuel) i s = (Val tt, s).
Proof.
  intros Hi He. simpl.
  erewrite bind_val by (apply read_iface_events_run; exact Hi).
  now rewrite He, bool_decide_eq_false_2 by tauto.
Qed.

(** The state after one round of the loop on entry [i], whose handler is
    [f]: the entry's callback is initialised and registered in front of
    the others, the registration is logged, and the events raised
    meanwhile are delivered. *)
Definition register (i : nat) f s : state W :=
  set_log (st_log s ++ [IoAddCallback (Some f) (handler_event f)])
    (set_callbacks (i :: st_callbacks s)
       (set_iface_events (alter (init_cb f) i (st_iface_events s)) s)).

Definition subscribe (i : nat) f s : state W := after_raised (register i f s).

(** The state after the three rounds. *)
Definition subscribe_all s : state W :=
  subscribe 2 FN_iface_down_evt_handler
    (subscribe 1 FN_iface_up_evt_handler
       (subscribe 0 FN_iface_dns_added_evt_handler s)).

(** The table after the loop: the callback of each entry filled in. *)
Definition subscribed_table : list mgmt_events :=
  alter (init_cb FN_iface_down_evt_handler) 2%nat
    (alter (init_cb FN_iface_up_evt_handler) 1%nat
       (alter (init_cb FN_iface_dns_added_evt_handler) 0%nat iface_events)).

(** The three registrations in table order. *)
Definition subscriptions : list io :=
  (fun f => IoAddCallback (Some f) (handler_event f)) <$> all_handlers.

Lemma subscribe_frame i f s :
  st_iface_events (subscribe i f s) = alter (init_cb f) i (st_iface_events s) /\
  st_callbacks (subscribe i f s) = i :: st_callbacks s /\
  st_response (subscribe i f s) = st_response s.
Proof.
  destruct (quiet_after_raised (register i f s)) as (R & T & C & _).
  unfold subscribe. now rewrite R, T, C.
Qed.

Lemma registrations_subscribe i f s :
  registrations (st_log (subscribe i f s)) =
  registrations (st_log s) ++ [IoAddCallback (Some f) (handler_event f)].
Proof.
  unfold subscribe. rewrite (registrations_quiet _ _ (quiet_after_raised _)).
  unfold registrations. simpl. now rewrite filter_snoc.
Qed.

Lemma main_log_subscribe i f s :
  main_log (st_log (subscribe i f s)) =
  main_log (st_log s) ++ [IoAddCallback (Some f) (handler_event f)].
Proof.
  unfold subscribe. rewrite (quiet_main_log _ _ (quiet_after_raised _)).
  apply main_log_snoc. now intros (g & E)%handler_prints_printk.
Qed.

Lemma st_world_subscribe i f s :
  st_world (subscribe i f s) = snd (plat_raised (st_world s)).
Proof. unfold subscribe. now rewrite st_world_after_raised. Qed.

(** Filling in the callback of an entry and registering it keeps the
    callbacks well registered. *)
Lemma well_registered_register i f s e :
  st_iface_events s !! i = Some e ->
  well_registered s -> well_registered (register i f s).
Proof.
  intros Hi Hw. unfold well_registered. simpl. constructor.
  - unfold entry_ok. now rewrite list_lookup_alter_eq, Hi.
  - eapply Forall_impl; [exact Hw|]. intros j Hj. unfold entry_ok in *.
    destruct (decide (j = i)) as [->|Hne].
    + now rewrite list_lookup_alter_eq, Hi.
    + now rewrite list_lookup_alter_ne by congruence.
Qed.

Lemma well_registered_subscribe i f s e :
  st_iface_events s !! i = Some e ->
  well_registered s -> well_registered (subscribe i f s).
Proof.
  intros Hi Hw. eapply well_registered_quiet; [apply quiet_after_raised|].
  eapply well_registered_register; eassumption.
Qed.

(** One round on an entry that names a handler and that handler's
    event. *)
Lemma setup_round fuel i s e f :
  st_iface_events s !! i = Some e ->
  handler e = Some f -> event e = handler_event f ->
  well_registered s ->
  setup_loop (S fuel) i s = setup_loop fuel (S i) (subscribe i f s).
Proof.
  intros Hi Hh He Hw.
  simpl. erewrite bind_val by (apply read_iface_events_run; exact Hi).
  rewrite He, bool_decide_eq_true_2 by apply handler_event_nonzero.
  unfold net_mgmt_init_event_callback, net_mgmt_add_event_callback.
  rewrite Hh. unfold bind at 1. simpl. fold (init_cb f).
  erewrite bind_val; [reflexivity|].
  erewrite bind_val
    by (apply read_iface_events_run; simpl;
        rewrite list_lookup_alter_eq, Hi; reflexivity).
  simpl. unfold bind at 1. simpl. unfold bind at 1. simpl.
  apply deliver_raised_run.
  exact (well_registered_register i f s e Hi Hw).
Qed.

(** What the three rounds leave, from the initial state. *)
Lemma subscribe_all_state (w : W) :
  st_iface_events (subscribe_all (init_state w)) = subscribed_table /\
  st_callbacks (subscribe_all (init_state w)) = [2; 1; 0]%nat /\
  st_response (subscribe_all (init_state w)) = response /\
  registrations (st_log (subscribe_all (init_state w))) = subscriptions /\
  main_log (st_log (subscribe_all (init_state w))) = subscriptions.
Proof.
  unfold subscribe_all.
  repeat (rewrite ?registrations_subscribe, ?main_log_subscribe;
          match goal with
          | |- context [st_iface_events (subscribe ?i ?f ?s)] =>
            destruct (subscribe_frame i f s) as (-> & -> & ->)
          end).
  split_and!; reflexivity.
Qed.

Lemma well_registered_subscribe_all (w : W) :
  well_registered (subscribe_all (init_state w)).
Proof.
  destruct (subscribe_all_state w) as (T & C & _).
  unfold well_registered. rewrite T, C. repeat constructor.
Qed.

Lemma subscribed_subscribe_all (w : W) : subscribed (subscribe_all (init_state w)).
Proof.
  destruct (subscribe_all_state w) as (T & C & _).
  unfold subscribed, registered. rewrite T, C. repeat constructor.
Qed.

(** The whole loop from the initial state: three rounds, then the
    terminator. *)
Lemma flag_logged_subscribe i f s : flag_logged s -> flag_logged (subscribe i f s).
Proof.
  intros H. apply flag_logged_after_raised. unfold register.
  apply (flag_logged_emit _ (set_callbacks _ (set_iface_events _ s)));
    [reflexivity | exact H].
Qed.

Lemma flag_logged_subscribe_all (w : W) :
  flag_logged (subscribe_all (init_state w)).
Proof. unfold subscribe_all. now repeat apply flag_logged_subscribe. Qed.

Lemma setup_iface_events_run (w : W) :
  setup_iface_events (init_state w) = (Val tt, subscribe_all (init_state w)).
Proof.
  change (setup_iface_events (init_state w))
    with (setup_loop 5 0 (init_state w)).
  unfold subscribe_all.
  set (s1 := subscribe 0 FN_iface_dns_added_evt_handler (init_state w)).
  set (s2 := subscribe 1 FN_iface_up_evt_handler s1).
  destruct (subscribe_frame 0 FN_iface_dns_added_evt_handler (init_state w))
    as (T1 & _ & _).
  destruct (subscribe_frame 1 FN_iface_up_evt_handler s1) as (T2 & _ & _).
  destruct (subscribe_frame 2 FN_iface_down_evt_handler s2) as (T3 & _ & _).
  fold s1 in T1. fold s2 in T2. rewrite T2, T1 in T3. rewrite T1 in T2.
  assert (W1 : well_registered s1)
    by (eapply well_registered_subscribe; [reflexivity | constructor]).
  assert (W2 : well_registered s2)
    by (eapply well_registered_subscribe; [now rewrite T1 | exact W1]).
  subst s2 s1.
  erewrite (setup_round 4 0 _ _ FN_iface_dns_added_evt_handler);
    [|reflexivity | reflexivity | reflexivity | constructor].
  erewrite (setup_round 3 1 _ _ FN_iface_up_evt_handler);
    [|now rewrite T1 | reflexivity | reflexivity | exact W1].
  erewrite (setup_round 2 2 _ _ FN_iface_down_evt_handler);
    [|now rewrite T2 | reflexivity | reflexivity | exact W2].
  eapply setup_stop; [now rewrite T3 | reflexivity].
Qed.

End Setup.

(** ** Theorems *)

Section Theorems.
Context {W : Type} {plat : Platform W} {codes : NetEventCodes} {bus : EventBus}.
Implicit Types (s : state W) (f : fnptr).

(** C7: [setup_iface_events] terminates without a fault on every platform,
    whatever events are raised while it runs: it registers the callbacks
    of the three entries of [iface_events] in table order (so the bus holds
    them newest first), each initialised with its entry's handler and
    event, stops at the terminator, and leaves the response buffer
    alone. *)
Theorem setup_iface_events_subscribes (w : W) :
  exists s',
    setup_iface_events (init_state w) = (Val tt, s') /\
    st_callbacks s' = [2; 1; 0]%nat /\
    registered s' =
      [FN_iface_down_evt_handler; FN_iface_up_evt_handler;
       FN_iface_dns_added_evt_handler] /\
    well_registered s' /\ subscribed s' /\
    registrations (st_log s') =
      [IoAddCallback (Some FN_iface_dns_added_evt_handler) NET_EVENT_DNS_SERVER_ADD;
       IoAddCallback (Some FN_iface_up_evt_handler) NET_EVENT_IF_UP;
       IoAddCallback (Some FN_iface_down_evt_handler) NET_EVENT_IF_DOWN] /\
    st_response s' = response.
Proof.
  destruct (subscribe_all_state w) as (T & C & R & L & _).
  exists (subscribe_all (init_state w)).
  unfold subscribed, well_registered, registered.
  rewrite setup_iface_events_run, T, C, R, L.
  split_and!; try reflexivity; repeat constructor.
Qed.

(** C24: on a state in which the three callbacks are registered, delivering
    any sequence of raised events never faults and leaves the flag as the
    Readiness Tracker of the specification computes it from the classified
    events, for every bus that hands an event to the callback registered
    for exactly that event (however many other callbacks it also hands it
    to); nothing but the flag changes and only [printk] lines are
    logged. *)
Theorem dispatch_refines_tracker (evs : list Z) s :
  well_registered s -> subscribed s ->
  exists s',
    forM_ evs mgmt_run_callbacks s = (Val tt, s') /\
    st_ready s' = tracker (classify <$> evs) (st_ready s) /\
    quiet s s' /\ st_world s' = st_world s.
Proof.
  intros Hw Hs. exists (deliver evs s). split_and!.
  - now apply forM__mgmt_run_callbacks.
  - now apply st_ready_deliver.
  - apply quiet_deliver.
  - apply st_world_deliver.
Qed.

(** C2: readiness is monotone-reset by down and set by DNS-added.  In a
    state whose callbacks are the handlers of the table, each for its own
    event, and in which all three are registered, after any sequence of
    raised events the flag is set if and only if a DNS-server-added event
    occurred with no interface-down event after it, or the flag was set
    before and no interface-down event occurred at all. *)
Theorem ready_iff_last_event (evs : list Z) s :
  well_registered s -> subscribed s ->
  st_ready (snd (forM_ evs mgmt_run_callbacks s)) = true <->
  (exists pre post,
      evs = pre ++ NET_EVENT_DNS_SERVER_ADD :: post /\
      NET_EVENT_IF_DOWN ∉ post) \/
  (st_ready s = true /\ NET_EVENT_IF_DOWN ∉ evs).
Proof.
  intros Hw Hs. rewrite forM__mgmt_run_callbacks by assumption. simpl.
  rewrite st_ready_deliver, tracker_classify, latch_true_iff by assumption.
  rewrite no_clear_classify. apply or_iff_compat_r. split.
  - intros (pre & x & post & -> & Hx%classify_sets & Hp%no_clear_classify).
    subst x. eauto.
  - intros (pre & post & -> & Hp). exists pre, NET_EVENT_DNS_SERVER_ADD, post.
    split_and!; [reflexivity | now apply classify_sets | now apply no_clear_classify].
Qed.

(** C22: an interface-down that is raised before its callback is
    registered is lost.  The DNS-server-added callback is registered first
    and the interface-down callback last; when DNS-server-added is raised
    during the first registration and interface-down during the second,
    the loop leaves the flag set, although the Readiness Tracker of the
    specification, fed the same two events, says not ready. *)
Theorem down_before_registration_is_missed (w w1 w2 : W) :
  plat_raised w = ([NET_EVENT_DNS_SERVER_ADD], w1) ->
  plat_raised w1 = ([NET_EVENT_IF_DOWN], w2) ->
  fst (plat_raised w2) = [] ->
  st_ready (snd (setup_iface_events (init_state w))) = true /\
  tracker (classify <$> [NET_EVENT_DNS_SERVER_ADD; NET_EVENT_IF_DOWN])
          is_network_ready = false.
Proof.
  intros H0 H1 H2. split.
  2: { unfold tracker. simpl.
       change NET_EVENT_IF_DOWN with (handler_event FN_iface_down_evt_handler).
       now rewrite handler_event_classify. }
  rewrite setup_iface_events_run. simpl snd. unfold subscribe_all.
  set (s1 := subscribe 0 FN_iface_dns_added_evt_handler (init_state w)).
  set (s2 := subscribe 1 FN_iface_up_evt_handler s1).
  pose proof net_event_distinct as (D1 & D2 & D3).
  assert (W1 : st_world s1 = w1)
    by (subst s1; rewrite st_world_subscribe; simpl; now rewrite H0).
  assert (W2 : st_world s2 = w2)
    by (subst s2; now rewrite st_world_subscribe, W1, H1).
  assert (R1 : st_ready s1 = true).
  { subst s1. unfold subscribe. rewrite st_ready_after_raised. simpl.
    rewrite H0. simpl. unfold heard. rewrite decide_True by (simpl; left).
    change NET_EVENT_DNS_SERVER_ADD
      with (handler_event FN_iface_dns_added_evt_handler).
    now rewrite handler_event_classify. }
  assert (R2 : st_ready s2 = true).
  { subst s2. unfold subscribe. rewrite st_ready_after_raised.
    change (st_world (register 1 FN_iface_up_evt_handler s1))
      with (st_world s1).
    rewrite W1, H1. simpl. unfold heard, registered.
    destruct (subscribe_frame 0 FN_iface_dns_added_evt_handler (init_state w))
      as (T1 & C1 & _). fold s1 in T1, C1.
    cbn [register st_iface_events st_callbacks set_log set_callbacks
         set_iface_events].
    rewrite T1, C1. simpl.
    rewrite decide_False; [exact R1|].
    rewrite !elem_of_cons, elem_of_nil. intuition congruence. }
  unfold subscribe. rewrite st_ready_after_raised.
  change (st_world (register 2 FN_iface_down_evt_handler s2))
    with (st_world s2).
  now rewrite W2, H2.
Qed.

End Theorems.

(** ** The theorems at concrete inputs *)

Section Witnesses.
#[local] Existing Instance zephyr_event_codes.
#[local] Existing Instance zephyr_bus.

(** A script in which the interface comes up during the registration, a
    Connected event of layer 4 (which the bus also hands to the DNS
    callback) and the DNS server arrive during the modem reset, and nothing
    else is raised. *)
Definition demo_script : script :=
  happy_script [[]; [0xD0010002]; []; [0xF1140001; 0xF1140003]]
               example_addrinfo [].

(** The state [main] is in after the registration loop. *)
Definition demo_registered : state script :=
  snd (setup_iface_events (init_state demo_script)).

(** The DNS server is added during the first registration and the
    interface goes down during the second. *)
Definition early_down : script :=
  happy_script [[NET_EVENT_DNS_SERVER_ADD]; [NET_EVENT_IF_DOWN]]
               example_addrinfo [].

Lemma down_before_registration_is_missed_witness :
  st_ready (snd (setup_iface_events (init_state early_down))) = true /\
  tracker (classify <$> [NET_EVENT_DNS_SERVER_ADD; NET_EVENT_IF_DOWN])
          is_network_ready = false.
Proof.
  apply (down_before_registration_is_missed early_down
           (set_sc_raised [[NET_EVENT_IF_DOWN]] early_down)
           (set_sc_raised [] early_down)); reflexivity.
Defined.

Lemma dispatch_refines_tracker_witness :
  exists s',
    forM_ [0xD0010001; 0xF1140001; 0xF1140003; 0x12345678] mgmt_run_callbacks
          demo_registered = (Val tt, s') /\
    st_ready s' =
      tracker (classify <$> [0xD0010001; 0xF1140001; 0xF1140003; 0x12345678])
              (st_ready demo_registered) /\
    quiet demo_registered s' /\ st_world s' = st_world demo_registered.
Proof.
  apply (dispatch_refines_tracker
           [0xD0010001; 0xF1140001; 0xF1140003; 0x12345678] demo_registered);
    by_compute.
Defined.

Lemma ready_iff_last_event_witness :
  st_ready (snd (forM_ [0xD0010001; 0xD0010002; 0xF1140003] mgmt_run_callbacks
                       demo_registered)) = true <->
  (exists pre post,
      [0xD0010001; 0xD0010002; 0xF1140003] = pre ++ NET_EVENT_DNS_SERVER_ADD :: post /\
      NET_EVENT_IF_DOWN ∉ post) \/
  (st_ready demo_registered = true /\
   NET_EVENT_IF_DOWN ∉ [0xD0010001; 0xD0010002; 0xF1140003]).
Proof.
  apply (ready_iff_last_event [0xD0010001; 0xD0010002; 0xF1140003]
           demo_registered); by_compute.
Defined.

End Witnesses.
