(* ===== verification/Syscalls.v ===== *)
(** * The calls of [main] into the platform

    One wrapper per function [main] calls, under the name the source uses.
    A wrapper runs the call on the world, logs it with its arguments and
    its result, and lets the callbacks see the events that were raised
    while the call was in progress.  [CHECK] is the macro of line 46. *)

From Stdlib Require Import ZArith List Lia.
From Stdlib Require Import Strings.String.
From stdpp Require Import base tactics numbers list.
From S2P Require Import Prelude Monad Config Platform Readiness NetMgmt.

#[local] Open Scope Z_scope.
#[local] Open Scope prog_scope.

Section Syscalls.
Context {W : Type} {plat : Platform W} {codes : NetEventCodes} {bus : EventBus}.

(** A call of the platform: run it, log it, deliver what was raised. *)
Definition syscall {A} (f : W -> A * W) (entry : A -> io) : M (state W) A :=
  a <- world_call f ;;
  emit (entry a) ;;
  deliver_raised ;;
  ret a.

Definition mdm_hl7800_reset : M (state W) Z :=
  syscall plat_mdm_hl7800_reset IoModemReset.

(** [k_sleep(K_SECONDS(seconds))] *)
Definition k_sleep (seconds : Z) : M (state W) unit :=
  syscall (plat_k_sleep seconds) (fun _ => IoSleep seconds).

Definition tls_credential_add (tag type : Z) (cred : list byte) (len : nat)
    : M (state W) Z :=
  syscall (plat_tls_credential_add tag type cred len)
          (IoTlsCredentialAdd tag type cred len).

(** [getaddrinfo(host, port, &hints, &res)]: the status and [res]. *)
Definition getaddrinfo (host port : string) (hints : addrinfo_hints)
    : M (state W) (Z * list addrinfo) :=
  syscall (plat_getaddrinfo host port hints)
          (fun r => IoGetaddrinfo host port hints (fst r) (snd r)).

Definition socket (family type proto : Z) : M (state W) Z :=
  syscall (plat_socket family type proto) (IoSocket family type proto).

Definition setsockopt (sock level optname : Z) (val : optval) (len : nat)
    : M (state W) Z :=
  syscall (plat_setsockopt sock level optname val len)
          (IoSetsockopt sock level optname val len).

Definition connect (sock : Z) (addr : sockaddr) (addrlen : Z) : M (state W) Z :=
  syscall (plat_connect sock addr addrlen) (IoConnect sock addr addrlen).

(** [send(sock, buf, len, flags)]: the callee may read the first [len]
    bytes of [buf]. *)
Definition send (sock : Z) (buf : list byte) (len : nat) (flags : Z)
    : M (state W) Z :=
  syscall (plat_send sock (take len buf) flags)
          (IoSend sock (take len buf) flags).

(** [recv(sock, response, cap, flags)]: the callee writes what it received
    at the start of [response]; writing more than the array holds is a
    fault. *)
Definition recv (sock : Z) (cap : nat) (flags : Z) : M (state W) Z :=
  r <- syscall (plat_recv sock cap flags)
               (fun r => IoRecv sock cap flags (fst r) (snd r)) ;;
  buf <- gets st_response ;;
  buf' <- check OutOfBounds (buf_write (snd r) buf) ;;
  modify (set_response buf') ;;
  ret (fst r).

Definition close (sock : Z) : M (state W) Z :=
  syscall (plat_close sock) (IoClose sock).

(** Line 46: [CHECK(r)], where [expr] is the text of [r] that the macro
    stringifies into its message. *)
Definition CHECK (expr : string) (r : Z) : M (state W) unit :=
  if bool_decide (r = -1) then
    printf ("Error: " ++ expr ++ LF) [] ;;
    exit 1
  else ret tt.

End Syscalls.

(** ** What a call does to the state *)

Section SyscallProps.
Context {W : Type} {plat : Platform W} {codes : NetEventCodes} {bus : EventBus}.
Implicit Types (s : state W).

(** The state right after a call was logged, before delivery. *)
Definition logged (e : io) (w : W) s : state W :=
  set_log (st_log s ++ [e]) (set_world w s).

Lemma syscall_run {A} (f : W -> A * W) (entry : A -> io) s :
  well_registered s ->
  syscall f entry s =
  (Val (fst (f (st_world s))),
   after_raised (logged (entry (fst (f (st_world s)))) (snd (f (st_world s))) s)).
Proof.
  intros Hw. unfold syscall, world_call, bind at 1.
  destruct (f (st_world s)) as [a w]. simpl.
  unfold bind at 1. simpl.
  erewrite bind_val; [reflexivity|].
  apply deliver_raised_run. exact Hw.
Qed.

Lemma well_registered_logged e w s :
  well_registered (logged e w s) <-> well_registered s.
Proof. reflexivity. Qed.

Lemma well_registered_after_raised s :
  well_registered s -> well_registered (after_raised s).
Proof. apply well_registered_quiet, quiet_after_raised. Qed.

Lemma well_registered_set_response buf s :
  well_registered (set_response buf s) <-> well_registered s.
Proof. reflexivity. Qed.

Lemma subscribed_after_raised s : subscribed s -> subscribed (after_raised s).
Proof. apply subscribed_quiet, quiet_after_raised. Qed.

Lemma CHECK_pass expr r s : r <> -1 -> CHECK expr r s = (Val tt, s).
Proof. intros Hr. unfold CHECK. now rewrite bool_decide_eq_false_2. Qed.

Lemma CHECK_fail expr s :
  CHECK expr (-1) s =
  (Halt (Exited 1),
   set_log (st_log s ++ [IoPrintf ("Error: " ++ expr ++ LF) []; IoExit 1]) s).
Proof.
  unfold CHECK. rewrite bool_decide_eq_true_2 by reflexivity.
  unfold bind, printf, exit, emit, modify, halt, bind. simpl.
  now rewrite <- app_assoc.
Qed.

End SyscallProps.

#[export] Hint Resolve well_registered_after_raised subscribed_after_raised
  : httpget.
