(* ===== verification/ScriptRun.v ===== *)
(** * Runs against a script

    On the scripted platform the result of every call is a field of the
    script, and delivering events only consumes the list of events that
    are still to be raised.  [at_log l w s] says that [main] has logged
    [l] so far, that the answers the platform will give are those of [w],
    and that the state is safe; the rules below advance it over a call, a
    line of output and a [CHECK].  The files of the components use them to
    follow a whole run whose answers are known. *)

From Stdlib Require Import ZArith List Lia.
From Stdlib Require Import Strings.String.
From stdpp Require Import base tactics numbers list.
From S2P Require Import Prelude Monad Config Platform Script Readiness NetMgmt.
From S2P Require Import Syscalls.

#[local] Open Scope Z_scope.
#[local] Open Scope prog_scope.

(** The answers of a script: everything but the events to be raised. *)
Definition answers (w : script) : script := set_sc_raised [] w.

Lemma answers_raised (w : script) : answers (snd (script_raised w)) = answers w.
Proof. unfold script_raised. destruct (sc_raised w); reflexivity. Qed.

Lemma sc_raised_raised (w : script) :
  sc_raised (snd (script_raised w)) = tail (sc_raised w).
Proof.
  unfold script_raised. destruct (sc_raised w) eqn:E; simpl; [exact E | reflexivity].
Qed.


(** A field of the script that the events do not touch reads the same in
    worlds with the same answers. *)
Lemma answers_field {A} (f : script -> A) w w' :
  (forall r w0, f (set_sc_raised r w0) = f w0) ->
  answers w = answers w' -> f w = f w'.
Proof.
  intros Hf Ha. rewrite <- (Hf [] w), <- (Hf [] w'). unfold answers in Ha.
  now rewrite Ha.
Qed.

(** What the next [setsockopt] returns, and the script after it. *)
Definition sockopt_result (w : script) : Z := default 0 (head (sc_setsockopt w)).

Definition sockopt_next (w : script) : script :=
  set_sc_setsockopt (tail (sc_setsockopt w)) w.

Lemma script_setsockopt_answers (w0 w : script) :
  answers w0 = answers w ->
  fst (script_setsockopt w0) = sockopt_result w /\
  answers (snd (script_setsockopt w0)) = answers (sockopt_next w).
Proof.
  intros Ha.
  assert (Hl : sc_setsockopt w0 = sc_setsockopt w)
    by now apply (answers_field sc_setsockopt).
  unfold script_setsockopt, sockopt_result, sockopt_next. rewrite <- Hl.
  destruct w0 as [? ? ? ? ? [|r rs] ? ? ? ?], w; simplify_eq/=; auto.
Qed.

Lemma answers_set_sc_recv (w : script) :
  answers (set_sc_recv (sc_recv w) w) = answers w.
Proof. now destruct w. Qed.

(** What the next [recv] finds when a chunk that fits has arrived, and when
    the peer has closed. *)
Lemma script_recv_chunk (w0 w : script) cap c rest :
  answers w0 = answers w -> sc_recv w = RecvData c :: rest ->
  (length c <= cap)%nat ->
  fst (script_recv cap w0) = (Z.of_nat (length c), c) /\
  answers (snd (script_recv cap w0)) = answers (set_sc_recv rest w).
Proof.
  intros Ha Hr Hc.
  assert (Hl : sc_recv w0 = sc_recv w) by now apply (answers_field sc_recv).
  unfold script_recv. rewrite Hl, Hr, decide_True by exact Hc. simpl.
  split; [reflexivity|].
  destruct w0, w. now simplify_eq/=.
Qed.

Lemma script_recv_closed (w0 w : script) cap :
  answers w0 = answers w -> sc_recv w = [] ->
  fst (script_recv cap w0) = (0, []) /\
  answers (snd (script_recv cap w0)) = answers w.
Proof.
  intros Ha Hr.
  assert (Hl : sc_recv w0 = sc_recv w) by now apply (answers_field sc_recv).
  unfold script_recv. now rewrite Hl, Hr.
Qed.

Section ScriptRun.
Context {codes : NetEventCodes} {bus : EventBus}.
Implicit Types (s : state script) (w : script) (l : list io).

Lemma answers_after_raised s :
  answers (st_world (after_raised s)) = answers (st_world s).
Proof. rewrite st_world_after_raised. apply answers_raised. Qed.

Lemma sc_raised_after_raised s :
  sc_raised (st_world (after_raised s)) = tail (sc_raised (st_world s)).
Proof. rewrite st_world_after_raised. apply sc_raised_raised. Qed.

(** ** Before the wait

    [warm k w s]: the first [k] batches of events of the script [w] have
    been raised, none of them set the flag, and the script answers as
    before. *)
Definition warm (k : nat) w s : Prop :=
  st_ready s = false /\
  sc_raised (st_world s) = drop k (sc_raised w) /\
  answers (st_world s) = answers w.

(** A call made in a state that is warm: the next batch is delivered. *)
Lemma warm_after_raised k w s0 s :
  warm k w s0 -> st_ready s = st_ready s0 ->
  answers (st_world s) = answers (st_world s0) ->
  sc_raised (st_world s) = sc_raised (st_world s0) ->
  NET_EVENT_DNS_SERVER_ADD ∉ default [] (sc_raised w !! k) ->
  warm (S k) w (after_raised s).
Proof.
  intros (Hr & Hl & Ha) Er Ea El Hn. split_and!.
  - rewrite <- head_drop in Hn. unfold after_raised. simpl.
    unfold script_raised. rewrite El, Hl.
    destruct (drop k (sc_raised w)) as [|evs rest]; rewrite <- Er in Hr;
      now apply st_ready_deliver_clear.
  - now rewrite sc_raised_after_raised, El, Hl, tail_drop.
  - now rewrite answers_after_raised, Ea.
Qed.

(** The state is safe, [main]'s own log is [l], and the script answers as
    [w] does. *)
Definition at_log l w s : Prop :=
  well_registered s /\ length (st_response s) = length response /\
  main_log (st_log s) = l /\ answers (st_world s) = answers w.

(** No step of a run whose answers are all good ends the run. *)
Definition never (o : outcome) s : Prop := False.

Lemma at_log_emit e l w s :
  e ∉ handler_prints -> at_log l w s ->
  at_log (l ++ [e]) w (set_log (st_log s ++ [e]) s).
Proof.
  intros He (Hw & Hr & Hl & Ha). split_and!; try assumption.
  simpl. now rewrite main_log_snoc, Hl.
Qed.

Lemma at_log_call e l w w1 w' s :
  e ∉ handler_prints -> at_log l w s -> answers w1 = answers w' ->
  at_log (l ++ [e]) w' (after_raised (logged e w1 s)).
Proof.
  intros He (Hw & Hr & Hl & Ha) Hw1.
  pose proof (quiet_after_raised (logged e w1 s)) as Hq.
  split_and!.
  - now apply (well_registered_quiet (logged e w1 s)).
  - destruct Hq as (-> & _). exact Hr.
  - rewrite (quiet_main_log _ _ Hq). simpl. now rewrite main_log_snoc, Hl.
  - now rewrite answers_after_raised.
Qed.

(** No call leaves a line of a handler. *)
Lemma call_not_handler_print e :
  (forall fmt args, e <> IoPrintk fmt args) -> e ∉ handler_prints.
Proof. intros He (f & ->)%handler_prints_printk. now apply (He (handler_message f) []). Qed.

Lemma at_log_set_response buf l w s :
  length buf = length response -> at_log l w s -> at_log l w (set_response buf s).
Proof. intros Hb (Hw & _ & Hl & Ha). split_and!; assumption. Qed.

(** ** Triples of the basic operations on a script *)

Lemma script_printf fmt args l w :
  triple (at_log l w) (printf fmt args)
         (fun _ => at_log (l ++ [IoPrintf fmt args]) w) never.
Proof.
  intros s Hs. rewrite printf_run. apply at_log_emit; [|exact Hs].
  now apply call_not_handler_print.
Qed.

(** A call whose result and whose effect on the answers are the same in
    every world that answers as [w] does. *)
Lemma script_call {A} (f : script -> A * script) (entry : A -> io) l w a w' :
  (forall a fmt args, entry a <> IoPrintk fmt args) ->
  (forall w0, answers w0 = answers w ->
     fst (f w0) = a /\ answers (snd (f w0)) = answers w') ->
  triple (at_log l w) (syscall f entry)
         (fun x s => at_log (l ++ [entry a]) w' s /\ x = a) never.
Proof.
  intros He Hf s Hs. rewrite syscall_run by apply Hs.
  destruct (Hf (st_world s)) as [Ha Hw]; [apply Hs|].
  rewrite Ha. split; [|reflexivity].
  apply (at_log_call _ _ w); [now apply call_not_handler_print | exact Hs | exact Hw].
Qed.

(** [CHECK] of a result that is not -1 does nothing. *)
Lemma script_CHECK expr r (P : state script -> Prop) :
  r <> -1 -> triple P (CHECK expr r) (fun _ => P) never.
Proof. intros Hr s Hs. now rewrite CHECK_pass. Qed.

End ScriptRun.

(** The premise of [script_call] for a call whose result is the field [f]
    of the script and that leaves the script alone. *)
Ltac field_call f :=
  let w0 := fresh "w0" in
  let Hw0 := fresh "Hw0" in
  intros w0 Hw0; split; [|exact Hw0]; simpl;
  exact (answers_field f w0 _ (fun _ _ => eq_refl) Hw0).

(** Split a triple along a [bind]; substitute the result of a call. *)
Ltac script_bind := eapply triple_bind; [|intros ?].
Ltac script_result := apply triple_pure; intros ->.
