(* ===== verification/Protocol.v ===== *)
(** * The protocol of a run

    The abstract specification of [main]: the order in which a run may call
    the platform, with which arguments, and how each result decides what
    comes next.  It is a labelled transition system over the entries of the
    log; [Main.v] proves that the log of every run is a trace of it.  The
    diagnostics are not part of the protocol, the [%s] output of the
    response is. *)

From Stdlib Require Import ZArith List Lia.
From Stdlib Require Import Strings.String.
From stdpp Require Import base tactics numbers list.
From S2P Require Import Prelude Monad Config Platform Readiness.

#[local] Open Scope Z_scope.

(** ** Phases *)

(** Why a run stopped: the error taxonomy of the design, and [Finished]. *)
Inductive stop : Type :=
| ModemError (st : Z)
| ResolveError (st : Z)
| ConnectError
| SendError
| RecvError (len : Z)
| Finished.

(** How the program ends in each case: [CHECK] exits with status 1, the
    other failures return from [main]. *)
Definition outcome_of_stop (why : stop) : outcome :=
  match why with
  | ConnectError | SendError => Exited 1
  | _ => Returned
  end.

Inductive phase : Type :=
| Subscribing (fs : list fnptr)    (* the handlers registered so far *)
| Ready (provisioned : bool)       (* modem up; credential installed? *)
| Resolved (a : addrinfo)          (* the address to connect to *)
| Created (a : addrinfo) (sock : Z) (options : nat)
                                   (* socket open, TLS options set so far *)
| Connected (sock : Z)
| Receiving (sock : Z)             (* request sent *)
| Printing (sock : Z) (data : list byte)
                                   (* a chunk arrived and is to be printed *)
| Closing (sock : Z)               (* end of stream seen *)
| Failing (why : stop)             (* a [CHECK] failed: exit is due *)
| Stopped (why : stop).

#[export] Instance stop_eq_dec : EqDecision stop.
Proof. solve_decision. Defined.
#[export] Instance phase_eq_dec : EqDecision phase.
Proof. solve_decision. Defined.

(** The entries the protocol speaks about: every call, and the output of
    the response. *)
Definition is_call (e : io) : bool :=
  match e with
  | IoPrintk _ _ => false
  | IoPrintf _ [AStr _] => true
  | IoPrintf _ _ => false
  | _ => true
  end.

Definition calls (log : list io) : list io :=
  filter (fun e => is_call e = true) log.

(** A socket is open and owned by the program. *)
Definition holds_socket (q : phase) : option Z :=
  match q with
  | Created _ sock _ | Connected sock | Receiving sock | Printing sock _
  | Closing sock => Some sock
  | _ => None
  end.

(** ** Transitions *)

Section Protocol.
Context {codes : NetEventCodes} {consts : SocketConsts}.
Variable tls : bool.

Inductive step : phase -> io -> phase -> Prop :=
| step_subscribe fs f :
    f ∉ fs ->
    step (Subscribing fs) (IoAddCallback (Some f) (handler_event f))
         (Subscribing (f :: fs))
| step_modem_ok fs :
    (forall f, f ∈ fs) ->
    step (Subscribing fs) (IoModemReset 0) (Ready false)
| step_modem_error fs st :
    (forall f, f ∈ fs) -> st <> 0 ->
    step (Subscribing fs) (IoModemReset st) (Stopped (ModemError st))
| step_sleep :
    step (Ready false) (IoSleep 5) (Ready false)
| step_provision r :
    tls ->
    step (Ready false)
         (IoTlsCredentialAdd CA_CERTIFICATE_TAG TLS_CREDENTIAL_CA_CERTIFICATE
            ca_certificate (length ca_certificate) r)
         (Ready true)
| step_resolve_ok h a rest :
    hint_family h = AF_INET -> hint_socktype h = SOCK_STREAM ->
    step (Ready tls) (IoGetaddrinfo HTTP_HOST (HTTP_PORT tls) h 0 (a :: rest))
         (Resolved a)
| step_resolve_error h st res :
    hint_family h = AF_INET -> hint_socktype h = SOCK_STREAM -> st <> 0 ->
    step (Ready tls) (IoGetaddrinfo HTTP_HOST (HTTP_PORT tls) h st res)
         (Stopped (ResolveError st))
| step_socket_ok a sock :
    sock <> -1 ->
    step (Resolved a)
         (IoSocket (ai_family a) (ai_socktype a)
            (if tls then IPPROTO_TLS_1_2 else ai_protocol a) sock)
         (Created a sock 0)
| step_socket_error a :
    step (Resolved a)
         (IoSocket (ai_family a) (ai_socktype a)
            (if tls then IPPROTO_TLS_1_2 else ai_protocol a) (-1))
         (Failing ConnectError)
| step_tag_list_ok a sock r :
    tls -> r <> -1 ->
    step (Created a sock 0)
         (IoSetsockopt sock SOL_TLS TLS_SEC_TAG_LIST
            (OptTags [CA_CERTIFICATE_TAG]) 4 r)
         (Created a sock 1)
| step_tag_list_error a sock :
    tls ->
    step (Created a sock 0)
         (IoSetsockopt sock SOL_TLS TLS_SEC_TAG_LIST
            (OptTags [CA_CERTIFICATE_TAG]) 4 (-1))
         (Failing ConnectError)
| step_hostname_ok a sock r :
    tls -> r <> -1 ->
    step (Created a sock 1)
         (IoSetsockopt sock SOL_TLS TLS_HOSTNAME (OptBytes (literal HTTP_HOST))
            (c_sizeof HTTP_HOST) r)
         (Created a sock 2)
| step_hostname_error a sock :
    tls ->
    step (Created a sock 1)
         (IoSetsockopt sock SOL_TLS TLS_HOSTNAME (OptBytes (literal HTTP_HOST))
            (c_sizeof HTTP_HOST) (-1))
         (Failing ConnectError)
| step_connect_ok a sock options r :
    options = (if tls then 2 else 0)%nat -> r <> -1 ->
    step (Created a sock options) (IoConnect sock (ai_addr a) (ai_addrlen a) r)
         (Connected sock)
| step_connect_error a sock options :
    options = (if tls then 2 else 0)%nat ->
    step (Created a sock options)
         (IoConnect sock (ai_addr a) (ai_addrlen a) (-1))
         (Failing ConnectError)
| step_send_ok sock r :
    r <> -1 ->
    step (Connected sock) (IoSend sock (bytes_of REQUEST) 0 r) (Receiving sock)
| step_send_error sock :
    step (Connected sock) (IoSend sock (bytes_of REQUEST) 0 (-1))
         (Failing SendError)
| step_exit why :
    outcome_of_stop why = Exited 1 ->
    step (Failing why) (IoExit 1) (Stopped why)
| step_recv_data sock data :
    data <> [] -> (length data <= 1023)%nat ->
    step (Receiving sock) (IoRecv sock 1023 0 (Z.of_nat (length data)) data)
         (Printing sock data)
| step_recv_end sock :
    step (Receiving sock) (IoRecv sock 1023 0 0 []) (Closing sock)
| step_recv_error sock len :
    len < 0 ->
    step (Receiving sock) (IoRecv sock 1023 0 len []) (Stopped (RecvError len))
| step_print sock data :
    step (Printing sock data) (IoPrintf "%s" [AStr (cstr data)])
         (Receiving sock)
| step_close sock r :
    step (Closing sock) (IoClose sock r) (Stopped Finished).

(** The calls [l], in order, lead from [q] to [q']. *)
Inductive trace (q : phase) : list io -> phase -> Prop :=
| trace_nil : trace q [] q
| trace_snoc l q1 e q2 :
    trace q l q1 -> step q1 e q2 -> trace q (l ++ [e]) q2.

(** The traces of a whole program. *)
Definition run (l : list io) (q : phase) : Prop := trace (Subscribing []) l q.

(** A run that ran out of fuel did so in one of the two loops. *)
Definition in_loop (q : phase) : Prop :=
  q = Ready false \/ exists sock, q = Receiving sock.

(** How a run may end before [main] is through, and in which phase: out
    of fuel in a loop, or stopped by a failure. *)
Definition ends (o : outcome) (q : phase) : Prop :=
  (o = OutOfFuel /\ in_loop q) \/
  (exists why, q = Stopped why /\ why <> Finished /\ o = outcome_of_stop why).

(** The phase in which a run is over: [Finished] exactly when [main] ran
    to its last line. *)
Definition finishes {A} (r : res A) (q : phase) : Prop :=
  match r with
  | Val _ => q = Stopped Finished
  | Halt o => ends o q
  end.

(** ** Traces *)

(** Invert a step whose phases or entry are known. *)
Ltac step_inv H := inversion H; subst; clear H.

Lemma trace_snoc_inv q0 l e q :
  trace q0 (l ++ [e]) q -> exists q1, trace q0 l q1 /\ step q1 e q.
Proof.
  intros H. inversion H as [E|l' q1 e' q2 Ht Hs E].
  - now destruct l.
  - apply app_inj_tail in E as [-> ->]. eauto.
Qed.

Lemma trace_app q0 k1 q1 k2 q2 :
  trace q0 k1 q1 -> trace q1 k2 q2 -> trace q0 (k1 ++ k2) q2.
Proof.
  intros H1 H2. induction H2 as [|k2 q2 e q3 _ IH Hs].
  - now rewrite app_nil_r.
  - rewrite app_assoc. econstructor; eassumption.
Qed.

Lemma trace_app_inv q0 k1 k2 q :
  trace q0 (k1 ++ k2) q -> exists q1, trace q0 k1 q1 /\ trace q1 k2 q.
Proof.
  revert q. induction k2 as [|e k2 IH] using rev_ind; intros q H.
  - rewrite app_nil_r in H. exists q. split; [exact H | constructor].
  - rewrite app_assoc in H. apply trace_snoc_inv in H as (q2 & Ht & Hs).
    destruct (IH _ Ht) as (q1 & H1 & H2). exists q1.
    split; [exact H1 | econstructor; eassumption].
Qed.

(** The phase before and after an entry of a trace. *)
Lemma trace_elem_inv q0 k1 e k2 q :
  trace q0 (k1 ++ e :: k2) q ->
  exists q1 q2, trace q0 k1 q1 /\ step q1 e q2 /\ trace q2 k2 q.
Proof.
  change (e :: k2) with ([e] ++ k2). rewrite app_assoc.
  intros (q2 & H1 & H2)%trace_app_inv.
  apply trace_snoc_inv in H1 as (q1 & H1 & Hs). eauto.
Qed.

(** A property of phase and calls that every step preserves holds along
    every trace. *)
Lemma trace_invariant (I : phase -> list io -> Prop) q0 k q :
  I q0 [] ->
  (forall q1 l e q2, trace q0 l q1 -> I q1 l -> step q1 e q2 -> I q2 (l ++ [e])) ->
  trace q0 k q -> I q k.
Proof. intros H0 Hstep Ht. induction Ht; eauto. Qed.

(** A property of every step holds of every entry of a trace. *)
Lemma trace_Forall (P : io -> Prop) q0 k q :
  (forall q1 e q2, step q1 e q2 -> P e) -> trace q0 k q -> Forall P k.
Proof.
  intros Hstep Ht. induction Ht as [|l q1 e q2 _ IH Hs]; [constructor|].
  apply Forall_app. split; [exact IH|]. repeat constructor. eauto.
Qed.

(** A counter that the phase determines counts the entries it is stepped
    by. *)
Lemma trace_count (p : io -> bool) (c : phase -> nat) q0 k q :
  (forall q1 e q2, step q1 e q2 -> c q2 = (c q1 + if p e then 1 else 0)%nat) ->
  trace q0 k q -> c q = (c q0 + count_io p k)%nat.
Proof.
  intros Hstep Ht. induction Ht as [|l q1 e q2 _ IH Hs]; [cbn; lia|].
  rewrite count_io_snoc, (Hstep _ _ _ Hs), IH. lia.
Qed.

(** The protocol is deterministic: the calls made so far determine the
    phase. *)
Lemma step_deterministic q e q1 q2 : step q e q1 -> step q e q2 -> q1 = q2.
Proof.
  intros H1 H2. step_inv H1; step_inv H2; try reflexivity; try congruence;
    try lia.
Qed.

Lemma trace_deterministic q0 k q1 q2 :
  trace q0 k q1 -> trace q0 k q2 -> q1 = q2.
Proof.
  intros H1. revert q2. induction H1 as [|l q1 e q1' _ IH Hs]; intros q2 H2.
  - inversion H2 as [|l ? ? ? ? ? E]; [reflexivity | now destruct l].
  - apply trace_snoc_inv in H2 as (q3 & Ht & Hs').
    rewrite <- (IH _ Ht) in Hs'. eapply step_deterministic; eassumption.
Qed.

(** Nothing follows a stop. *)
Lemma stopped_stuck why e q : ~ step (Stopped why) e q.
Proof. intros H. inversion H. Qed.

Lemma trace_stopped why k q : trace (Stopped why) k q -> k = [] /\ q = Stopped why.
Proof.
  intros Ht. induction Ht as [|l q1 e q2 _ [-> ->] Hs]; [auto|].
  now apply stopped_stuck in Hs.
Qed.

(** A run that stopped for a failure ended as that failure ends. *)
Lemma finishes_stopped {A} (r : res A) why :
  finishes r (Stopped why) -> why <> Finished -> r = Halt (outcome_of_stop why).
Proof.
  destruct r as [a|o]; simpl; [congruence|].
  intros [[_ [?|[? ?]]]|(why' & [= <-] & _ & ->)] _; done.
Qed.

(** An entry after which the protocol stops is the last of its trace. *)
Lemma trace_stops_at q0 l q e why :
  (forall q1 q2, step q1 e q2 -> q2 = Stopped why) ->
  e ∈ l -> trace q0 l q -> q = Stopped why.
Proof.
  intros Hstep (l1 & l2 & ->)%list_elem_of_split
    (q1 & q2 & _ & Hs & Ht)%trace_elem_inv.
  rewrite (Hstep _ _ Hs) in Ht. now apply trace_stopped in Ht.
Qed.

Lemma ends_not_faulted o q f : ends o q -> o <> Faulted f.
Proof.
  intros [[-> _]|(why & _ & _ & ->)]; [done|]. now destruct why.
Qed.

Lemma ends_not_finished o q : ends o q -> q <> Stopped Finished.
Proof.
  intros [[_ [->|[sock ->]]]|(why & -> & Hw & _)]; congruence.
Qed.

End Protocol.

Ltac step_inv H := inversion H; subst; clear H.

