(* ===== verification/ProtocolFacts.v ===== *)
(** * What the protocol guarantees

    Consequences of the transition system of [Protocol.v] alone: how often
    a run can open, resolve and close, what follows the end of the stream,
    what precedes a connect, which calls a build without TLS never makes,
    and what is printed of the response.  Together with the refinement
    theorem of [Main.v] they are properties of every run of [main]. *)

From Stdlib Require Import ZArith List Lia.
From Stdlib Require Import Strings.String.
From stdpp Require Import base tactics numbers list.
From S2P Require Import Prelude Monad Config Platform Readiness Protocol.

#[local] Open Scope Z_scope.

(** ** Counters that the phase determines *)

(** The socket was closed. *)
Definition closed (q : phase) : nat :=
  match q with
  | Stopped Finished => 1
  | _ => 0
  end.

(** [socket] was called. *)
Definition opened (q : phase) : nat :=
  match q with
  | Subscribing _ | Ready _ | Resolved _
  | Stopped (ModemError _) | Stopped (ResolveError _) => 0
  | _ => 1
  end.

(** [getaddrinfo] was called. *)
Definition looked_up (q : phase) : nat :=
  match q with
  | Subscribing _ | Ready _ | Stopped (ModemError _) => 0
  | _ => 1
  end.

(** The request was sent, with whatever result. *)
Definition requested (q : phase) : nat :=
  match q with
  | Receiving _ | Printing _ _ | Closing _
  | Failing SendError | Stopped SendError | Stopped (RecvError _)
  | Stopped Finished => 1
  | _ => 0
  end.

(** The entries that exist only in a build with TLS. *)
Definition is_tls_io (e : io) : bool :=
  is_tls_credential_add e || is_setsockopt e.

(** The chunks the log says were received, in order. *)
Definition received_chunks (l : list io) : list (list byte) :=
  omap (fun e => match e with
                 | IoRecv _ _ _ len data => if decide (0 < len) then Some data else None
                 | _ => None
                 end) l.

(** The chunk that has arrived and is not printed yet. *)
Definition pending (q : phase) : list byte :=
  match q with
  | Printing _ data => cstr data
  | _ => []
  end.

(** ** Projections of the calls

    What the protocol leaves out of the log is invisible to every
    projection that ignores diagnostics. *)

Lemma omap_calls {B} (f : io -> option B) (l : list io) :
  (forall e, is_call e = false -> f e = None) -> omap f (calls l) = omap f l.
Proof.
  intros Hf. apply omap_filter. intros e He. apply Hf.
  now destruct (is_call e).
Qed.

Lemma count_io_calls (p : io -> bool) (l : list io) :
  (forall e, p e = true -> is_call e = true) ->
  count_io p (calls l) = count_io p l.
Proof.
  intros Hp. unfold count_io, calls. rewrite list_filter_filter.
  f_equal. apply list_filter_iff. intros e. split; [tauto | auto].
Qed.

Lemma printed_body_calls (l : list io) : printed_body (calls l) = printed_body l.
Proof.
  unfold printed_body. f_equal. apply omap_calls.
  intros []; try done. simpl. now destruct args as [|[] []].
Qed.

Lemma received_chunks_calls (l : list io) :
  received_chunks (calls l) = received_chunks l.
Proof. apply omap_calls. now intros []. Qed.

Lemma Forall_calls (P : io -> Prop) (l : list io) :
  (forall e, is_call e = false -> P e) -> Forall P (calls l) -> Forall P l.
Proof.
  intros HP. rewrite !Forall_forall. intros H e He.
  destruct (is_call e) eqn:Hc; [|auto].
  apply H. unfold calls. now apply list_elem_of_filter.
Qed.

Lemma elem_of_calls (e : io) (l : list io) :
  is_call e = true -> e ∈ l -> e ∈ calls l.
Proof. intros Hc He. unfold calls. now apply list_elem_of_filter. Qed.

Section Facts.
Context {codes : NetEventCodes} {consts : SocketConsts}.
Variable tls : bool.
Implicit Types (q : phase) (e : io) (l k : list io).

(** Solve a goal about one step by going through the rules. *)
Ltac by_rules H :=
  step_inv H; simpl in *; try congruence; try reflexivity; try lia;
  try match goal with
      | Hw : outcome_of_stop ?why = Exited 1 |- _ =>
        destruct why; simpl in *; congruence
      end.

Lemma step_closed q1 e q2 :
  step tls q1 e q2 -> closed q2 = (closed q1 + if is_close e then 1 else 0)%nat.
Proof. intros H. by_rules H. Qed.

Lemma step_opened q1 e q2 :
  step tls q1 e q2 -> opened q2 = (opened q1 + if is_socket e then 1 else 0)%nat.
Proof. intros H. by_rules H. Qed.

Lemma step_looked_up q1 e q2 :
  step tls q1 e q2 ->
  looked_up q2 = (looked_up q1 + if is_getaddrinfo e then 1 else 0)%nat.
Proof. intros H. by_rules H. Qed.

Lemma step_requested q1 e q2 :
  step tls q1 e q2 ->
  requested q2 = (requested q1 + if is_send e then 1 else 0)%nat.
Proof. intros H. by_rules H. Qed.

(** A run closes the socket exactly when it finishes, and then once. *)
Lemma run_closed l q : run tls l q -> count_io is_close l = closed q.
Proof. intros H. now rewrite (trace_count tls is_close closed _ _ _ step_closed H). Qed.

Lemma run_opened l q : run tls l q -> count_io is_socket l = opened q.
Proof. intros H. now rewrite (trace_count tls is_socket opened _ _ _ step_opened H). Qed.

Lemma run_looked_up l q : run tls l q -> count_io is_getaddrinfo l = looked_up q.
Proof.
  intros H.
  now rewrite (trace_count tls is_getaddrinfo looked_up _ _ _ step_looked_up H).
Qed.

Lemma run_requested l q : run tls l q -> count_io is_send l = requested q.
Proof.
  intros H. now rewrite (trace_count tls is_send requested _ _ _ step_requested H).
Qed.

(** ** Failures before the connection *)

(** A modem that does not come up ends the run. *)
Lemma run_modem_error l q st :
  run tls l q -> IoModemReset st ∈ l -> st <> 0 -> q = Stopped (ModemError st).
Proof.
  intros H He Hst. apply (trace_stops_at tls (Subscribing []) l q (IoModemReset st)); try done.
  intros q1 q2 Hs. now step_inv Hs.
Qed.

(** So does a resolution that reports an error. *)
Lemma run_resolve_error l q host port h st res :
  run tls l q -> IoGetaddrinfo host port h st res ∈ l -> st <> 0 ->
  q = Stopped (ResolveError st).
Proof.
  intros H He Hst.
  apply (trace_stops_at tls (Subscribing []) l q
           (IoGetaddrinfo host port h st res)); try done.
  intros q1 q2 Hs. now step_inv Hs.
Qed.

(** ** A build without TLS *)

Lemma step_no_tls q1 e q2 : ~ tls -> step tls q1 e q2 -> is_tls_io e = false.
Proof. intros Htls H. by_rules H. Qed.

Lemma trace_no_tls q0 k q :
  ~ tls -> trace tls q0 k q -> Forall (fun e => is_tls_io e = false) k.
Proof. intros Htls. apply trace_Forall. intros q1 e q2. now apply step_no_tls. Qed.

(** ** The end of the stream *)

Lemma trace_cons_inv q0 e k q :
  trace tls q0 (e :: k) q -> exists q1, step tls q0 e q1 /\ trace tls q1 k q.
Proof.
  intros (q1 & q2 & H0 & Hs & Ht)%(trace_elem_inv tls q0 []).
  inversion H0 as [|l ? ? ? ? ? E]; [subst; eauto | now destruct l].
Qed.

(** After the end of the stream there is the close and nothing else. *)
Lemma trace_closing sock k q :
  trace tls (Closing sock) k q -> k = [] \/ exists r, k = [IoClose sock r].
Proof.
  destruct k as [|e k]; [now left|]. right.
  apply trace_cons_inv in H as (q1 & Hs & Ht). step_inv Hs.
  apply trace_stopped in Ht as [-> _]. eauto.
Qed.

(** A receive that returned zero was the last one. *)
Lemma trace_end_of_stream q0 k1 sock cap flags data k2 q :
  trace tls q0 (k1 ++ IoRecv sock cap flags 0 data :: k2) q ->
  k2 = [] \/ exists r, k2 = [IoClose sock r].
Proof.
  intros (q1 & q2 & _ & Hs & Ht)%trace_elem_inv.
  apply (trace_closing sock _ q). step_inv Hs; try lia; try exact Ht.
  destruct data; [congruence | discriminate].
Qed.

(** ** The response *)

Lemma received_chunks_app l k :
  received_chunks (l ++ k) = (received_chunks l ++ received_chunks k)%list.
Proof. apply omap_app. Qed.

(** What has been printed and what is about to be is what was received,
    each chunk up to its first NUL. *)
Lemma trace_printed q0 k q :
  pending q0 = [] -> trace tls q0 k q ->
  (printed_body k ++ pending q)%list = concat (cstr <$> received_chunks k).
Proof.
  intros H0. apply (trace_invariant tls
    (fun q k => (printed_body k ++ pending q)%list =
                concat (cstr <$> received_chunks k))); [now rewrite H0|].
  intros q1 l e q2 _ IH Hs.
  rewrite printed_body_app, received_chunks_app, fmap_app, concat_app, <- IH.
  step_inv Hs; simpl; rewrite ?app_nil_r; try reflexivity.
  - rewrite decide_True; [simpl; now rewrite app_nil_r|]. destruct data; [done|].
    simpl length. lia.
  - rewrite decide_False by lia. simpl. now rewrite app_nil_r.
  - unfold printed_body at 2. simpl. now rewrite app_nil_r.
Qed.

(** ** What precedes a connect *)

Definition credential_call (r : Z) : io :=
  IoTlsCredentialAdd CA_CERTIFICATE_TAG TLS_CREDENTIAL_CA_CERTIFICATE
    ca_certificate (length ca_certificate) r.

Definition tag_list_call (sock r : Z) : io :=
  IoSetsockopt sock SOL_TLS TLS_SEC_TAG_LIST (OptTags [CA_CERTIFICATE_TAG]) 4 r.

Definition hostname_call (sock r : Z) : io :=
  IoSetsockopt sock SOL_TLS TLS_HOSTNAME (OptBytes (literal HTTP_HOST))
    (c_sizeof HTTP_HOST) r.

(** The calls between the wait and the connect: the resolution, the
    socket, and in a build with TLS the two options. *)
Definition establishment (h : addrinfo_hints) (a : addrinfo)
    (rest : list addrinfo) (sock r1 r2 : Z) : list io :=
  [IoGetaddrinfo HTTP_HOST (HTTP_PORT tls) h 0 (a :: rest);
   IoSocket (ai_family a) (ai_socktype a)
     (if tls then IPPROTO_TLS_1_2 else ai_protocol a) sock]
  ++ (if tls then [tag_list_call sock r1; hostname_call sock r2] else []).

(** The last step of a run that is past its first phase. *)
Lemma run_snoc_inv l q :
  run tls l q -> q <> Subscribing [] ->
  exists l' q1 e, l = l' ++ [e] /\ run tls l' q1 /\ step tls q1 e q.
Proof. intros H Hq. inversion H; subst; [done | eauto 6]. Qed.

(** Invert the last step of a run that ends in the given phase. *)
Ltac last_step H :=
  let Hs := fresh "Hs" in
  apply run_snoc_inv in H as (? & ? & ? & -> & H & Hs); [|done];
  step_inv Hs.

Lemma run_socket a sock l :
  run tls l (Created a sock 0) ->
  exists l' h rest,
    l = l' ++ [IoGetaddrinfo HTTP_HOST (HTTP_PORT tls) h 0 (a :: rest);
               IoSocket (ai_family a) (ai_socktype a)
                 (if tls then IPPROTO_TLS_1_2 else ai_protocol a) sock] /\
    sock <> -1 /\ hint_family h = AF_INET /\ hint_socktype h = SOCK_STREAM /\
    run tls l' (Ready tls).
Proof.
  intros H. last_step H. last_step H.
  eexists _, _, _. rewrite <- app_assoc. split_and!; done.
Qed.

Lemma run_options a sock l :
  run tls l (Created a sock 2) ->
  exists l' r1 r2,
    l = l' ++ [tag_list_call sock r1; hostname_call sock r2] /\
    r1 <> -1 /\ r2 <> -1 /\ run tls l' (Created a sock 0).
Proof.
  intros H. last_step H. last_step H.
  eexists _, _, _. rewrite <- app_assoc. split_and!; done.
Qed.

Lemma run_provisioned l :
  run tls l (Ready true) ->
  exists l' r, l = l' ++ [credential_call r] /\ run tls l' (Ready false).
Proof.
  intros H. apply run_snoc_inv in H as (l' & q1 & e & -> & H & Hs); [|done].
  step_inv Hs. eauto.
Qed.

(** The phase in which a connect is made. *)
Lemma run_connect l1 sock addr len r l2 q :
  run tls (l1 ++ IoConnect sock addr len r :: l2) q ->
  exists a, addr = ai_addr a /\ len = ai_addrlen a /\
    run tls l1 (Created a sock (if tls then 2 else 0)%nat).
Proof.
  intros (q1 & q2 & H1 & Hs & _)%trace_elem_inv. step_inv Hs; eauto.
Qed.

(** A connect is made to the first address the resolver gave, on the
    socket opened for that address, which in a build with TLS was given
    both options with success, after the credential was installed. *)
Lemma run_before_connect l1 sock addr len r l2 q :
  run tls (l1 ++ IoConnect sock addr len r :: l2) q ->
  exists l' h a rest r1 r2,
    l1 = l' ++ establishment h a rest sock r1 r2 /\
    addr = ai_addr a /\ len = ai_addrlen a /\ sock <> -1 /\
    run tls l' (Ready tls) /\
    (tls -> r1 <> -1 /\ r2 <> -1 /\
       exists l'' r0, l' = l'' ++ [credential_call r0]).
Proof.
  intros (a & -> & -> & H)%run_connect. unfold establishment.
  destruct (decide (Is_true tls)) as [Htls|Htls].
  - replace (if tls then 2 else 0)%nat with 2%nat in H by now destruct tls.
    apply run_options in H as (l' & r1 & r2 & -> & Hr1 & Hr2 & H).
    apply run_socket in H as (l'' & h & rest & -> & Hsock & _ & _ & H).
    exists l'', h, a, rest, r1, r2. rewrite <- app_assoc.
    split_and!; try done; [now destruct tls|]. intros _. split_and!; try done.
    replace (Ready tls) with (Ready true) in H by now destruct tls.
    apply run_provisioned in H as (l3 & r0 & -> & _); eauto.
  - replace (if tls then 2 else 0)%nat with 0%nat in H
      by (destruct tls; simpl in *; [tauto | done]).
    apply run_socket in H as (l'' & h & rest & -> & Hsock & _ & _ & H).
    exists l'', h, a, rest, 0, 0.
    split_and!; try done.
    destruct tls; simpl in *; [tauto | reflexivity].
Qed.

(** The request is sent on the socket that was connected, right after the
    connect, and it is the bytes of [REQUEST]. *)
Lemma run_send l1 sock data flags r l2 q :
  run tls (l1 ++ IoSend sock data flags r :: l2) q ->
  data = bytes_of REQUEST /\ flags = 0 /\
  exists l' a r', l1 = l' ++ [IoConnect sock (ai_addr a) (ai_addrlen a) r'] /\
    r' <> -1.
Proof.
  intros (q1 & q2 & H1 & Hs & _)%trace_elem_inv.
  assert (data = bytes_of REQUEST /\ flags = 0 /\ q1 = Connected sock)
    as (-> & -> & ->) by (step_inv Hs; done).
  split_and!; try reflexivity. last_step H1. eauto.
Qed.

End Facts.
