(* ===== verification/ProtocolCheck.v ===== *)
(** * An executable checker for the protocol

    [next] computes the phase a call leads to, when the protocol allows the
    call; [follow] folds it over a log.  They decide the relations [step]
    and [trace] of [Protocol.v], so that a recorded log can be checked
    against the protocol by evaluation. *)

From Stdlib Require Import ZArith List Lia.
From Stdlib Require Import Strings.String.
From stdpp Require Import base tactics numbers option list.
From S2P Require Import Prelude Monad Config Platform Readiness Protocol.
From S2P Require Import ProtocolFacts.

#[local] Open Scope Z_scope.

Section Check.
Context {codes : NetEventCodes} {consts : SocketConsts}.
Variable tls : bool.

(** The phase [q] when the entry is the expected one. *)
Definition expect (e expected : io) (q : phase) : option phase :=
  if decide (e = expected) then Some q else None.

(** The phase after a call whose result goes through [CHECK]. *)
Definition checked_result (r : Z) (ok : phase) (why : stop) : phase :=
  if decide (r = -1) then Failing why else ok.

Definition next_subscribing (fs : list fnptr) (e : io) : option phase :=
  match e with
  | IoAddCallback (Some f) mask =>
      if decide ((f ∉ fs) /\ mask = handler_event f)
      then Some (Subscribing (f :: fs)) else None
  | IoModemReset st =>
      if decide (Forall (fun f => f ∈ fs) all_handlers)
      then Some (if decide (st = 0) then Ready false
                 else Stopped (ModemError st))
      else None
  | _ => None
  end.

Definition next_ready (p : bool) (e : io) : option phase :=
  match e with
  | IoSleep d =>
      if decide (p = false /\ d = 5) then Some (Ready false) else None
  | IoTlsCredentialAdd _ _ _ _ r =>
      if decide (tls /\ p = false /\
                 e = IoTlsCredentialAdd CA_CERTIFICATE_TAG
                       TLS_CREDENTIAL_CA_CERTIFICATE ca_certificate
                       (length ca_certificate) r)
      then Some (Ready true) else None
  | IoGetaddrinfo _ _ h st res =>
      if decide (p = tls /\
                 e = IoGetaddrinfo HTTP_HOST (HTTP_PORT tls) h st res /\
                 hint_family h = AF_INET /\ hint_socktype h = SOCK_STREAM)
      then if decide (st = 0) then Resolved <$> head res
           else Some (Stopped (ResolveError st))
      else None
  | _ => None
  end.

Definition next_resolved (a : addrinfo) (e : io) : option phase :=
  match e with
  | IoSocket _ _ _ sock =>
      expect e (IoSocket (ai_family a) (ai_socktype a)
                  (if tls then IPPROTO_TLS_1_2 else ai_protocol a) sock)
             (checked_result sock (Created a sock 0) ConnectError)
  | _ => None
  end.

Definition next_created (a : addrinfo) (sock : Z) (options : nat) (e : io)
    : option phase :=
  match e with
  | IoSetsockopt _ _ _ _ _ r =>
      if decide (tls /\ options = 0%nat /\
                 e = IoSetsockopt sock SOL_TLS TLS_SEC_TAG_LIST
                       (OptTags [CA_CERTIFICATE_TAG]) 4 r)
      then Some (checked_result r (Created a sock 1) ConnectError)
      else if decide (tls /\ options = 1%nat /\
                      e = IoSetsockopt sock SOL_TLS TLS_HOSTNAME
                            (OptBytes (literal HTTP_HOST))
                            (c_sizeof HTTP_HOST) r)
      then Some (checked_result r (Created a sock 2) ConnectError)
      else None
  | IoConnect _ _ _ r =>
      if decide (options = (if tls then 2 else 0)%nat /\
                 e = IoConnect sock (ai_addr a) (ai_addrlen a) r)
      then Some (checked_result r (Connected sock) ConnectError)
      else None
  | _ => None
  end.

Definition next_connected (sock : Z) (e : io) : option phase :=
  match e with
  | IoSend _ _ _ r =>
      expect e (IoSend sock (bytes_of REQUEST) 0 r)
             (checked_result r (Receiving sock) SendError)
  | _ => None
  end.

Definition next_receiving (sock : Z) (e : io) : option phase :=
  match e with
  | IoRecv _ _ _ len data =>
      if decide (e = IoRecv sock 1023 0 len data) then
        if decide (len < 0) then
          if decide (data = []) then Some (Stopped (RecvError len)) else None
        else if decide (len = 0) then
          if decide (data = []) then Some (Closing sock) else None
        else if decide (len = Z.of_nat (length data) /\
                        (length data <= 1023)%nat)
        then Some (Printing sock data) else None
      else None
  | _ => None
  end.

(** The phase after [e] in phase [q], if the protocol allows [e] there. *)
Definition next (q : phase) (e : io) : option phase :=
  match q with
  | Subscribing fs => next_subscribing fs e
  | Ready p => next_ready p e
  | Resolved a => next_resolved a e
  | Created a sock options => next_created a sock options e
  | Connected sock => next_connected sock e
  | Receiving sock => next_receiving sock e
  | Printing sock data =>
      expect e (IoPrintf "%s" [AStr (cstr data)]) (Receiving sock)
  | Closing sock =>
      match e with
      | IoClose _ r => expect e (IoClose sock r) (Stopped Finished)
      | _ => None
      end
  | Failing why =>
      if decide (e = IoExit 1 /\ outcome_of_stop why = Exited 1)
      then Some (Stopped why) else None
  | Stopped _ => None
  end.

(** The phase after the calls [l], in order, from [q]. *)
Fixpoint follow (q : phase) (l : list io) : option phase :=
  match l with
  | [] => Some q
  | e :: l => q' ← next q e; follow q' l
  end.

(** The phase a whole log leads to. *)
Definition accepts (l : list io) : option phase := follow (Subscribing []) l.

(** ** The checker decides the protocol *)

Lemma all_registered (fs : list fnptr) :
  Forall (fun f => f ∈ fs) all_handlers <-> forall f, f ∈ fs.
Proof.
  rewrite Forall_forall. split; intros H f; [|now intros _].
  apply H. destruct f; unfold all_handlers; repeat constructor.
Qed.

(** Take a guard of the checker apart. *)
Ltac guards :=
  repeat match goal with
  | H : context [decide ?P] |- _ =>
      destruct (decide P) as [?|?]; simplify_eq/=
  | |- context [decide ?P] => destruct (decide P) as [?|?]; simplify_eq/=
  | |- context [checked_result _ _ _] => unfold checked_result
  | H : _ /\ _ |- _ => destruct H; simplify_eq/=
  | H : expect _ _ _ = Some _ |- _ => unfold expect in H
  | H : context [checked_result _ _ _] |- _ => unfold checked_result in H
  | H : _ <$> head ?l = Some _ |- _ => destruct l; simplify_eq/=
  end.

Lemma next_sound q e q' : next q e = Some q' -> step tls q e q'.
Proof.
  destruct q as [fs|p|a|a sock n|sock|sock|sock data|sock|why|why];
    cbn [next]; intros H; try discriminate.
  - destruct e as [| |[f|] ?| | | | | | | | | | |]; simpl in H;
      try discriminate; guards; constructor; try assumption;
      now apply all_registered.
  - destruct e; simpl in H; try discriminate; guards; constructor; assumption.
  - destruct e; simpl in H; try discriminate; guards; constructor; assumption.
  - destruct e; simpl in H; try discriminate; guards; constructor; auto.
  - destruct e; simpl in H; try discriminate; guards; constructor; assumption.
  - destruct e; simpl in H; try discriminate; guards; try (constructor; lia).
    constructor; [intros ->; simpl in *; lia | assumption].
  - guards. constructor.
  - destruct e; simpl in H; try discriminate; guards. constructor.
  - guards. now constructor.
Qed.

Lemma next_complete q e q' : step tls q e q' -> next q e = Some q'.
Proof.
  intros H. destruct H; cbn [next next_subscribing next_ready next_resolved
    next_created next_connected next_receiving];
    unfold expect, checked_result;
    repeat match goal with
    | H : forall f, f ∈ _ |- _ => apply all_registered in H
    | |- context [decide ?P] =>
        first [ rewrite (decide_True (P := P)) by (repeat split; lia || done)
              | rewrite (decide_False (P := P))
                  by (intros ?; destruct_and?; simplify_eq/=; lia || done) ]
    end; try reflexivity.
  destruct data; [done|]. now rewrite decide_False by (simpl; lia).
Qed.

Lemma step_next q e q' : step tls q e q' <-> next q e = Some q'.
Proof. split; [apply next_complete | apply next_sound]. Qed.

#[export] Instance step_dec q e q' : Decision (step tls q e q').
Proof.
  refine (cast_if (decide (next q e = Some q'))); now rewrite step_next.
Defined.

Lemma trace_nil_inv q q' : trace tls q [] q' -> q' = q.
Proof. inversion 1 as [|l ? ? ? ? ? E]; [reflexivity | now destruct l]. Qed.

Lemma trace_cons q e q1 l q' :
  step tls q e q1 -> trace tls q1 l q' -> trace tls q (e :: l) q'.
Proof.
  intros Hs Ht. apply (trace_app tls q [e] q1 l q'); [|exact Ht].
  apply (trace_snoc tls q [] q e q1); [constructor | exact Hs].
Qed.

Lemma trace_follow l : forall q q',
  trace tls q l q' <-> follow q l = Some q'.
Proof.
  induction l as [|e l IH]; intros q q'; simpl.
  - split; [now intros ->%trace_nil_inv | intros [= ->]; constructor].
  - split.
    + intros (q1 & Hs%step_next & Ht%IH)%trace_cons_inv.
      now rewrite Hs.
    + destruct (next q e) as [q1|] eqn:Hn; [|discriminate]. simpl.
      intros Ht%IH. apply trace_cons with q1; [now apply step_next | exact Ht].
Qed.

#[export] Instance trace_dec q l q' : Decision (trace tls q l q').
Proof.
  refine (cast_if (decide (follow q l = Some q'))); now rewrite trace_follow.
Defined.

Lemma run_accepts l q : run tls l q <-> accepts l = Some q.
Proof. apply trace_follow. Qed.

Lemma follow_app q k1 k2 :
  follow q (k1 ++ k2) = q1 ← follow q k1; follow q1 k2.
Proof.
  revert q. induction k1 as [|e k1 IH]; intros q; simpl; [reflexivity|].
  destruct (next q e); simpl; [apply IH | reflexivity].
Qed.

End Check.
