(* ===== verification/Conform.v ===== *)
(** * Refinement: the rules that relate the program to the protocol

    [at_phase tls l0 q0 q s] says that the calls logged in [s] since the
    log was [l0] are a trace of the protocol from phase [q0] to phase [q],
    and that the state is one in which the next call is safe.  The rules
    below give, for each basic operation of the program, a Hoare triple
    between such assertions; the files of the components compose them into
    [refines], the statement that an operation implements a segment of the
    protocol. *)

From Stdlib Require Import ZArith List Lia.
From Stdlib Require Import Strings.String.
From stdpp Require Import base tactics numbers list.
From S2P Require Import Prelude Monad Config Platform Readiness NetMgmt.
From S2P Require Import Syscalls Protocol.

#[local] Open Scope Z_scope.
#[local] Open Scope prog_scope.

Section Conform.
Context {W : Type} {plat : Platform W} {codes : NetEventCodes} {bus : EventBus}
  {consts : SocketConsts}.
Implicit Types (s : state W) (q : phase) (e : io).

(** The states in which every call of the program is safe: the callbacks
    the bus holds are initialised, and [response] has its size. *)
Definition safe s : Prop :=
  well_registered s /\ length (st_response s) = length response.

Variable tls : bool.
Variable l0 : list io.
Variable q0 : phase.

(** The calls [l] are [l0] followed by a trace from [q0] to [q]. *)
Definition since q (l : list io) : Prop :=
  exists k, l = l0 ++ k /\ trace tls q0 k q.

(** The state is safe, and since the calls [l0], when the protocol was in
    phase [q0], the program has followed the protocol to phase [q]. *)
Definition at_phase q s : Prop :=
  safe s /\ since q (calls (st_log s)).

(** The run ended with outcome [o] in a phase in which it may. *)
Definition stops (o : outcome) s : Prop :=
  exists q, at_phase q s /\ ends o q.

(** [a] is a result the call [f] can give. *)
Definition answer {A} (f : W -> A * W) (a : A) : Prop :=
  exists w, a = fst (f w).

(** The phase after a call that [CHECK] guards. *)
Definition checked (why : stop) (q : phase) (r : Z) : phase :=
  if decide (r = -1) then Failing why else q.

(** ** The log *)

Lemma calls_app (l k : list io) : calls (l ++ k) = calls l ++ calls k.
Proof. apply filter_app. Qed.

Lemma calls_snoc (l : list io) e :
  calls (l ++ [e]) = calls l ++ (if is_call e then [e] else []).
Proof.
  unfold calls. rewrite filter_snoc.
  destruct (is_call e); destruct (decide _); congruence.
Qed.

(** The protocol does not see the lines of the handlers. *)
Lemma calls_main_log (l : list io) : calls (main_log l) = calls l.
Proof.
  unfold calls, main_log. rewrite list_filter_filter. apply list_filter_iff.
  intros e. split; [tauto|]. intros He. split; [exact He|].
  intros (f & ->)%handler_prints_printk. discriminate.
Qed.

Lemma quiet_calls s s' : quiet s s' -> calls (st_log s') = calls (st_log s).
Proof.
  apply quiet_filter. now intros e (f & ->)%handler_prints_printk.
Qed.

Lemma since_snoc q q' e (l : list io) :
  step tls q e q' -> since q l -> since q' (l ++ [e]).
Proof.
  intros Hstep (k & -> & Ht). exists (k ++ [e]).
  split; [now rewrite app_assoc | econstructor; eassumption].
Qed.

Lemma safe_quiet s s' : quiet s s' -> safe s -> safe s'.
Proof.
  intros Hq [Hw Hr]. destruct (Hq) as (HR & _). split.
  - eapply well_registered_quiet; eassumption.
  - now rewrite HR.
Qed.

(** ** Assertions along the basic steps *)

Lemma at_phase_quiet q s s' : quiet s s' -> at_phase q s -> at_phase q s'.
Proof.
  intros Hq [Hs Ht]. split; [now apply (safe_quiet s) |].
  now rewrite (quiet_calls s s').
Qed.

Lemma at_phase_diag q e s :
  is_call e = false -> at_phase q s ->
  at_phase q (set_log (st_log s ++ [e]) s).
Proof.
  intros He [Hs Ht]. split; [exact Hs|].
  simpl. rewrite calls_snoc, He, app_nil_r. exact Ht.
Qed.

Lemma at_phase_call q q' e w s :
  is_call e = true -> step tls q e q' -> at_phase q s ->
  at_phase q' (after_raised (logged e w s)).
Proof.
  intros He Hstep [Hs Ht].
  apply (at_phase_quiet _ (logged e w s)); [apply quiet_after_raised|].
  split; [exact Hs|].
  simpl. rewrite calls_snoc, He. now apply (since_snoc q).
Qed.

(** Output that the protocol speaks about: logged, nothing delivered. *)
Lemma at_phase_output q q' e s :
  is_call e = true -> step tls q e q' -> at_phase q s ->
  at_phase q' (set_log (st_log s ++ [e]) s).
Proof.
  intros He Hstep [Hs Ht]. split; [exact Hs|].
  simpl. rewrite calls_snoc, He. now apply (since_snoc q).
Qed.

Lemma at_phase_set_response q buf s :
  length buf = length response -> at_phase q s ->
  at_phase q (set_response buf s).
Proof. intros Hb [[Hw _] Ht]. repeat split; assumption. Qed.

Lemma step_checked q (entry : Z -> io) why q' :
  step tls q (entry (-1)) (Failing why) ->
  (forall r, r <> -1 -> step tls q (entry r) q') ->
  forall r, step tls q (entry r) (checked why q' r).
Proof. intros Hf Hok r. unfold checked. destruct (decide _) as [->|]; auto. Qed.

(** ** Triples of the basic operations *)

Lemma conforms_printf fmt args q :
  is_call (IoPrintf fmt args) = false ->
  triple (at_phase q) (printf fmt args) (fun _ => at_phase q) stops.
Proof. intros He s Hs. rewrite printf_run. now apply at_phase_diag. Qed.

Lemma conforms_printk fmt args q :
  triple (at_phase q) (printk fmt args) (fun _ => at_phase q) stops.
Proof. intros s Hs. rewrite printk_run. now apply at_phase_diag. Qed.

(** A call whose entry is a step of the protocol, for every result that
    the platform can give. *)
Lemma conforms_syscall {A} (f : W -> A * W) (entry : A -> io) q (Q : A -> phase) :
  (forall a, is_call (entry a) = true) ->
  (forall a, answer f a -> step tls q (entry a) (Q a)) ->
  triple (at_phase q) (syscall f entry)
         (fun a s => at_phase (Q a) s /\ answer f a) stops.
Proof.
  intros He Hstep s Hs. rewrite syscall_run by apply Hs.
  assert (Ha : answer f (fst (f (st_world s)))) by (eexists; reflexivity).
  split; [|exact Ha]. eapply at_phase_call; eauto.
Qed.

(** The same, when nothing is to be remembered of the result. *)
Lemma conforms_call {A} (f : W -> A * W) (entry : A -> io) q (Q : A -> phase) :
  (forall a, is_call (entry a) = true) ->
  (forall a, step tls q (entry a) (Q a)) ->
  triple (at_phase q) (syscall f entry) (fun a => at_phase (Q a)) stops.
Proof.
  intros He Hstep. eapply triple_conseq;
    [apply (conforms_syscall f entry q Q He); auto | auto | | auto].
  now intros a s [H _].
Qed.

(** [CHECK]: a run goes on after it only when the result was not -1. *)
Lemma conforms_CHECK expr why q r :
  outcome_of_stop why = Exited 1 ->
  triple (at_phase (checked why q r)) (CHECK expr r)
         (fun _ => at_phase q) stops.
Proof.
  intros Hwhy s Hs. unfold checked in Hs. destruct (decide (r = -1)) as [->|Hr].
  - rewrite CHECK_fail. exists (Stopped why). split.
    + destruct Hs as [Hs Ht]. split; [exact Hs|].
      simpl. rewrite calls_app.
      change (calls [_; _]) with [IoExit 1].
      apply (since_snoc (Failing why)); [now constructor | exact Ht].
    + right. exists why. rewrite Hwhy. split_and!; [done| |done].
      intros ->. discriminate.
  - rewrite CHECK_pass by exact Hr. exact Hs.
Qed.

(** An early [return] in a phase in which the run has stopped. *)
Lemma conforms_return {A} why (Q : A -> state W -> Prop) :
  why <> Finished -> outcome_of_stop why = Returned ->
  triple (at_phase (Stopped why)) (halt Returned) Q stops.
Proof.
  intros Hne Hwhy s Hs. exists (Stopped why). split; [exact Hs|]. right. eauto.
Qed.

#[export] Instance safe_dec s : Decision (safe s).
Proof. unfold safe. apply _. Defined.

End Conform.

(** ** Refinement of a segment of the protocol *)

Section Refines.
Context {W : Type} {plat : Platform W} {codes : NetEventCodes} {bus : EventBus}
  {consts : SocketConsts}.
Variable tls : bool.

(** From the state [s], [m] adds to the log calls that are a trace of the
    protocol from [q0]: to [Q a] when it yields [a], and to a phase in
    which a run may end when it ends the run.  It leaves the state
    safe. *)
Definition refines_from {A} (q0 : phase) (m : M (state W) A) (Q : A -> phase)
    (s : state W) : Prop :=
  safe (snd (m s)) /\
  exists k q,
    calls (st_log (snd (m s))) = calls (st_log s) ++ k /\
    trace tls q0 k q /\
    match fst (m s) with
    | Val a => q = Q a
    | Halt o => ends o q
    end.

(** [m] does so from every safe state; in particular it never faults. *)
Definition refines {A} (q0 : phase) (m : M (state W) A) (Q : A -> phase) : Prop :=
  forall s, safe s -> refines_from q0 m Q s.

Lemma conforms_refines {A} q0 (m : M (state W) A) (Q : A -> phase) :
  (forall l0, triple (at_phase tls l0 q0 q0) m
                     (fun a => at_phase tls l0 q0 (Q a)) (stops tls l0 q0)) ->
  refines q0 m Q.
Proof.
  intros Hm s Hs. unfold refines_from.
  assert (H0 : at_phase tls (calls (st_log s)) q0 q0 s).
  { split; [exact Hs|]. exists []. split; [now rewrite app_nil_r | constructor]. }
  specialize (Hm _ s H0). destruct (m s) as [[a|o] s']; simpl.
  - destruct Hm as [Hs' (k & E & Ht)]. split; [exact Hs'|].
    exists k, (Q a). now split_and!.
  - destruct Hm as (q & [Hs' (k & E & Ht)] & He). split; [exact Hs'|].
    exists k, q. now split_and!.
Qed.

(** A segment that refines the protocol does not fault. *)
Lemma refines_no_fault {A} q0 (m : M (state W) A) Q s f :
  refines q0 m Q -> safe s -> fst (m s) <> Halt (Faulted f).
Proof.
  intros Hm Hs. destruct (Hm s Hs) as (_ & k & q & _ & _ & Hf).
  destruct (fst (m s)) as [a|o]; [done|]. intros [= ->].
  exact (ends_not_faulted _ _ f Hf eq_refl).
Qed.

End Refines.

(** Split a triple along a [bind]; close one at a [ret]. *)
Ltac conforms_bind := eapply triple_bind; [|intros ?].
Ltac conforms_ret := intros ? ?; assumption.
