(* ===== verification/Wait.v ===== *)
(** * The readiness wait loop (http_get.c, lines 133-137)

    [main] polls the flag and sleeps five seconds between polls, with no
    bound on the number of polls.  The theorems say when the loop returns,
    how often it sleeps, and that it never returns when no event sets the
    flag. *)

From Stdlib Require Import ZArith List Lia.
From Stdlib Require Import Strings.String.
From stdpp Require Import base tactics numbers list.
From S2P Require Import Prelude Monad Config Platform Script Readiness NetMgmt.
From S2P Require Import Syscalls ScriptRun Protocol Conform.

#[local] Open Scope prog_scope.

Section Wait.
Context {W : Type} {plat : Platform W} {codes : NetEventCodes} {bus : EventBus}.

(** Lines 133-137: [while (!is_network_ready) { printk(...); k_sleep(...); }].
    [fuel] bounds the number of rounds. *)
Fixpoint wait_network_ready (fuel : nat) : M (state W) unit :=
  ready <- gets st_ready ;;
  if negb ready then
    match fuel with
    | O => halt OutOfFuel
    | S fuel' =>
      printk ("Waiting for network to be ready..." ++ LF) [] ;;
      k_sleep 5 ;;
      wait_network_ready fuel'
    end
  else ret tt.

End Wait.

(** ** The loop, round by round *)

Section WaitProps.
Context {W : Type} {plat : Platform W} {codes : NetEventCodes} {bus : EventBus}.
Implicit Types (s : state W).

Definition waiting_line : io :=
  IoPrintk ("Waiting for network to be ready..." ++ LF) [].

(** The state after one round: the line is printed, the sleep is logged,
    and what was raised during the sleep has reached the callbacks. *)
Definition wait_round s : state W :=
  after_raised
    (logged (IoSleep 5) (snd (plat_k_sleep 5 (st_world s)))
            (set_log (st_log s ++ [waiting_line]) s)).

(** The state after [n] rounds. *)
Fixpoint rounds (n : nat) s : state W :=
  match n with
  | O => s
  | S n' => rounds n' (wait_round s)
  end.

Lemma quiet_wait_round s :
  quiet (logged (IoSleep 5) (snd (plat_k_sleep 5 (st_world s)))
                (set_log (st_log s ++ [waiting_line]) s)) (wait_round s).
Proof. apply quiet_after_raised. Qed.

Lemma well_registered_wait_round s : well_registered s -> well_registered (wait_round s).
Proof. intros Hw. now apply well_registered_after_raised. Qed.

Lemma well_registered_rounds n s : well_registered s -> well_registered (rounds n s).
Proof.
  revert s. induction n as [|n IH]; intros s Hw; [exact Hw|].
  apply IH, well_registered_wait_round, Hw.
Qed.

Lemma subscribed_rounds n s : subscribed s -> subscribed (rounds n s).
Proof.
  revert s. induction n as [|n IH]; intros s Hs; [exact Hs|].
  apply IH. unfold wait_round. now apply subscribed_after_raised.
Qed.

Lemma rounds_S n s : rounds (S n) s = wait_round (rounds n s).
Proof. revert s. induction n as [|n IH]; intros s; [reflexivity|]. simpl. now rewrite <- IH. Qed.

(** The loop unfolded once. *)
Lemma wait_network_ready_unfold fuel s :
  well_registered s ->
  wait_network_ready fuel s =
  if st_ready s then (Val tt, s)
  else match fuel with
       | O => (Halt OutOfFuel, s)
       | S fuel' => wait_network_ready fuel' (wait_round s)
       end.
Proof.
  intros Hw. destruct fuel as [|fuel]; simpl; unfold gets, bind at 1;
    destruct (st_ready s); simpl; try reflexivity.
  unfold bind at 1. rewrite printk_run.
  unfold bind at 1. unfold k_sleep. rewrite syscall_run by exact Hw.
  reflexivity.
Qed.

(** What the log of [main] gains in [n] rounds. *)
Lemma main_log_rounds n s :
  main_log (st_log (rounds n s)) =
  main_log (st_log s) ++ concat (replicate n [waiting_line; IoSleep 5]).
Proof.
  revert s. induction n as [|n IH]; intros s; simpl.
  - now rewrite app_nil_r.
  - rewrite IH, (quiet_main_log _ _ (quiet_wait_round s)). simpl.
    rewrite !main_log_snoc, <- !app_assoc; [reflexivity | |];
      intros (f & E)%handler_prints_printk; destruct f; discriminate.
Qed.

Lemma count_sleep_rounds n s :
  count_io is_sleep (st_log (rounds n s)) = count_io is_sleep (st_log s) + n.
Proof.
  revert s. induction n as [|n IH]; intros s; simpl; [lia|].
  rewrite IH, (quiet_count_io is_sleep _ _ (fun _ _ => eq_refl) (quiet_wait_round s)).
  simpl. rewrite !count_io_snoc. simpl. lia.
Qed.

Lemma rounds_frame n s :
  st_response (rounds n s) = st_response s /\
  st_iface_events (rounds n s) = st_iface_events s /\
  st_callbacks (rounds n s) = st_callbacks s.
Proof.
  revert s. induction n as [|n IH]; intros s; [auto|]. simpl.
  destruct (IH (wait_round s)) as (-> & -> & ->).
  destruct (quiet_wait_round s) as (-> & -> & -> & _). auto.
Qed.

(** The loop goes through the rounds that leave the flag clear. *)
Lemma wait_network_ready_rounds n fuel s :
  well_registered s ->
  (forall k, k < n -> st_ready (rounds k s) = false) ->
  n <= fuel ->
  wait_network_ready fuel s = wait_network_ready (fuel - n) (rounds n s).
Proof.
  revert s fuel. induction n as [|n IH]; intros s fuel Hw Hclear Hfuel.
  - now rewrite Nat.sub_0_r.
  - rewrite wait_network_ready_unfold by exact Hw.
    pose proof (Hclear 0%nat ltac:(lia)) as H0. simpl in H0. rewrite H0.
    destruct fuel as [|fuel]; [lia|].
    apply IH; [now apply well_registered_wait_round | | lia].
    intros k Hk. apply (Hclear (S k)). lia.
Qed.

(** It returns in the first round that sets the flag. *)
Lemma wait_network_ready_first_ready n fuel s :
  well_registered s ->
  (forall k, k < n -> st_ready (rounds k s) = false) ->
  st_ready (rounds n s) = true ->
  n <= fuel ->
  wait_network_ready fuel s = (Val tt, rounds n s).
Proof.
  intros Hw Hclear Hset Hfuel.
  rewrite (wait_network_ready_rounds n) by assumption.
  rewrite wait_network_ready_unfold by now apply well_registered_rounds.
  now rewrite Hset.
Qed.

(** It uses up any fuel when no round sets the flag. *)
Lemma wait_network_ready_starved fuel s :
  well_registered s ->
  (forall k, k <= fuel -> st_ready (rounds k s) = false) ->
  wait_network_ready fuel s = (Halt OutOfFuel, rounds fuel s).
Proof.
  intros Hw Hclear.
  rewrite (wait_network_ready_rounds fuel); [|exact Hw | intros; apply Hclear; lia | lia].
  rewrite Nat.sub_diag, wait_network_ready_unfold by now apply well_registered_rounds.
  now rewrite Hclear.
Qed.

(** The rounds keep the flag in step with the log. *)
Lemma flag_logged_wait_round s : flag_logged s -> flag_logged (wait_round s).
Proof.
  intros H. apply flag_logged_after_raised.
  apply (flag_logged_emit (IoSleep 5)
           (set_world (snd (plat_k_sleep 5 (st_world s)))
              (set_log (st_log s ++ [waiting_line]) s))); [reflexivity|].
  now apply (flag_logged_emit waiting_line).
Qed.

Lemma flag_logged_rounds n s : flag_logged s -> flag_logged (rounds n s).
Proof.
  revert s. induction n as [|n IH]; intros s H; [exact H|].
  apply IH, flag_logged_wait_round, H.
Qed.

(** How the loop ends: it returns after the first round that leaves the
    flag set, or it is still waiting, the flag clear, when the fuel is used
    up. *)
Lemma wait_network_ready_cases fuel s :
  well_registered s ->
  (exists n, n <= fuel /\ st_ready (rounds n s) = true /\
     wait_network_ready fuel s = (Val tt, rounds n s)) \/
  (st_ready (rounds fuel s) = false /\
   wait_network_ready fuel s = (Halt OutOfFuel, rounds fuel s)).
Proof.
  revert s. induction fuel as [|fuel IH]; intros s Hw;
    rewrite wait_network_ready_unfold by exact Hw;
    destruct (st_ready s) eqn:Hr.
  - left. exists 0. now split_and!.
  - right. now split.
  - left. exists 0. split_and!; [lia | exact Hr | reflexivity].
  - destruct (IH (wait_round s) (well_registered_wait_round s Hw))
      as [(n & Hn & Hset & Hrun)|[Hclear Hrun]].
    + left. exists (S n). split_and!; [lia | exact Hset | exact Hrun].
    + right. now split.
Qed.

(** C5: the wait loop never proceeds while the flag is clear: whenever
    [wait_network_ready] returns, whatever the platform and the events, the
    flag is set in the state it returns in. *)
Theorem wait_returns_only_when_ready fuel s s' :
  wait_network_ready fuel s = (Val tt, s') -> st_ready s' = true.
Proof.
  revert s. induction fuel as [|fuel IH]; intros s; simpl;
    unfold gets, bind at 1; destruct (st_ready s) eqn:Hr; simpl.
  - now intros [= <-].
  - discriminate.
  - now intros [= <-].
  - intros Hrun. apply bind_inv_val in Hrun as (? & s1 & _ & Hrun).
    apply bind_inv_val in Hrun as (? & s2 & _ & Hrun). eauto.
Qed.

(** C33: the loop proceeds at the first poll that finds the flag set: if
    the flag is clear after each of the first [n] rounds, is set after
    round [n], and the fuel allows [n] rounds, the loop returns in the
    state after exactly [n] rounds, having printed its line and slept [n]
    times. *)
Theorem wait_proceeds_at_first_ready n fuel s :
  well_registered s ->
  (forall k, k < n -> st_ready (rounds k s) = false) ->
  st_ready (rounds n s) = true ->
  n <= fuel ->
  wait_network_ready fuel s = (Val tt, rounds n s) /\
  count_io is_sleep (st_log (rounds n s)) = count_io is_sleep (st_log s) + n /\
  main_log (st_log (rounds n s)) =
    main_log (st_log s) ++ concat (replicate n [waiting_line; IoSleep 5]).
Proof.
  intros Hw Hclear Hset Hfuel.
  split; [|split; [apply count_sleep_rounds | apply main_log_rounds]].
  now apply wait_network_ready_first_ready.
Qed.

(** C34: the loop has no timeout: if the flag is clear after every round up
    to the fuel, the loop is still waiting when the fuel is used up,
    having slept once per unit of fuel.  So when no round ever sets the
    flag, no fuel makes the loop return. *)
Theorem wait_without_ready_never_returns fuel s :
  well_registered s ->
  (forall k, k <= fuel -> st_ready (rounds k s) = false) ->
  wait_network_ready fuel s = (Halt OutOfFuel, rounds fuel s) /\
  count_io is_sleep (st_log (rounds fuel s)) = count_io is_sleep (st_log s) + fuel.
Proof.
  intros Hw Hclear. split; [|apply count_sleep_rounds].
  now apply wait_network_ready_starved.
Qed.

End WaitProps.

(** ** The loop in the protocol *)

Section WaitConforms.
Context {W : Type} {plat : Platform W} {codes : NetEventCodes} {bus : EventBus}
  {consts : SocketConsts}.
Variable tls : bool.
Variable l0 : list io.
Variable q0 : phase.

(** The loop only sleeps: it stays in the phase it started in, also when
    the fuel runs out. *)
Lemma wait_network_ready_conforms fuel :
  triple (at_phase tls l0 q0 (Ready false)) (wait_network_ready fuel)
         (fun _ => at_phase tls l0 q0 (Ready false)) (stops tls l0 q0).
Proof.
  induction fuel as [|fuel IH]; intros s Hs;
    rewrite wait_network_ready_unfold by apply Hs; destruct (st_ready s);
    try exact Hs.
  - exists (Ready false). split; [exact Hs|]. left. split; [reflexivity|].
    now left.
  - apply IH. unfold wait_round.
    eapply at_phase_call; [reflexivity | apply step_sleep |].
    now apply at_phase_diag.
Qed.

End WaitConforms.

(** ** The loop against the events of a script *)

Section WaitScript.
Context {codes : NetEventCodes} {bus : EventBus}.
Implicit Types (s : state script) (batches : list (list Z)).

(** On a script a round consumes one batch of raised events, and the flag
    follows the tracker on that batch. *)
Lemma wait_round_script s :
  well_registered s -> subscribed s ->
  sc_raised (st_world (wait_round s)) = tail (sc_raised (st_world s)) /\
  st_ready (wait_round s) =
    tracker (classify <$> default [] (head (sc_raised (st_world s)))) (st_ready s).
Proof.
  intros Hw Hs. unfold wait_round, after_raised. simpl.
  unfold script_raised. destruct (sc_raised (st_world s)) as [|evs rest] eqn:E;
    rewrite st_world_deliver, st_ready_deliver by exact Hs; simpl;
    rewrite ?E; auto.
Qed.

Lemma rounds_script n s :
  well_registered s -> subscribed s ->
  sc_raised (st_world (rounds n s)) = drop n (sc_raised (st_world s)) /\
  st_ready (rounds n s) =
    tracker (classify <$> concat (take n (sc_raised (st_world s)))) (st_ready s).
Proof.
  revert s. induction n as [|n IH]; intros s Hw Hs.
  - simpl. now rewrite drop_0.
  - simpl rounds.
    destruct (wait_round_script s Hw Hs) as [Hr Hf].
    destruct (IH (wait_round s)) as [Hr' Hf'];
      [now apply well_registered_wait_round
      | unfold wait_round; now apply subscribed_after_raised |].
    rewrite Hr', Hf', Hr, Hf.
    destruct (sc_raised (st_world s)) as [|evs rest]; simpl.
    + now rewrite drop_nil, take_nil.
    + now rewrite fmap_app, tracker_app.
Qed.

(** A clear flag stays clear under events that hold no DNS-server-added
    event. *)
Lemma tracker_stays_clear (evs : list Z) :
  NET_EVENT_DNS_SERVER_ADD ∉ evs -> tracker (classify <$> evs) false = false.
Proof.
  intros Hn. apply not_true_is_false. rewrite tracker_classify, latch_true_iff.
  intros [(pre & x & post & -> & Hx%classify_sets & _) | [[=] _]].
  subst x. apply Hn. apply elem_of_app. right. left.
Qed.

(** The rounds the loop makes on a script whose next batches are [silent],
    without a DNS-server-added event, and then [b], with one that no
    interface-down follows: one per batch, and then it returns. *)
Lemma wait_network_ready_script silent b pre post rest fuel s :
  well_registered s -> subscribed s -> st_ready s = false ->
  sc_raised (st_world s) = silent ++ b :: rest ->
  Forall (fun evs => NET_EVENT_DNS_SERVER_ADD ∉ evs) silent ->
  b = pre ++ NET_EVENT_DNS_SERVER_ADD :: post -> NET_EVENT_IF_DOWN ∉ post ->
  length silent < fuel ->
  wait_network_ready fuel s = (Val tt, rounds (S (length silent)) s) /\
  sc_raised (st_world (rounds (S (length silent)) s)) = rest.
Proof.
  intros Hw Hs Hr Hb Hsilent Hsplit Hpost Hfuel.
  destruct (rounds_script (S (length silent)) s Hw Hs) as [Hraised Hready].
  split; [|now rewrite Hraised, Hb, drop_S_app_cons].
  apply wait_network_ready_first_ready; [exact Hw | | | lia].
  - intros k Hk. destruct (rounds_script k s Hw Hs) as [_ ->].
    rewrite Hr, Hb, take_app_le by lia. apply tracker_stays_clear.
    intros (evs & Hevs & Hin)%elem_of_concat.
    apply (proj1 (Forall_forall _ _) Hsilent evs); [|exact Hin].
    eapply elem_of_take_weaken, Hevs.
  - rewrite Hready, Hr, Hb, take_S_app_cons, concat_app. simpl.
    rewrite app_nil_r, fmap_app, tracker_app, Hsplit.
    rewrite tracker_classify, latch_true_iff. left.
    exists pre, NET_EVENT_DNS_SERVER_ADD, post.
    split_and!; [reflexivity | now apply classify_sets | now apply no_clear_classify].
Qed.

Lemma printed_body_waiting n :
  printed_body (concat (replicate n [waiting_line; IoSleep 5])) = [].
Proof. induction n as [|n IH]; [reflexivity | exact IH]. Qed.

(** What the rounds add to [main]'s log; the answers of the script stay. *)
Lemma at_log_rounds n l w s :
  at_log l w s ->
  at_log (l ++ concat (replicate n [waiting_line; IoSleep 5])) w (rounds n s).
Proof.
  revert l s. induction n as [|n IH]; intros l s Hs; simpl.
  - now rewrite app_nil_r.
  - rewrite (cons_middle waiting_line), app_assoc.
    rewrite (cons_middle (IoSleep 5)), app_assoc.
    apply IH. unfold wait_round.
    apply (at_log_call _ _ w); [now apply call_not_handler_print | | apply Hs].
    apply at_log_emit; [by_compute | exact Hs].
Qed.

(** C25: the loop proceeds at the first poll after the network became
    ready.  If the batches raised during the first sleeps hold no
    DNS-server-added event and the next batch holds one with no
    interface-down event after it, the loop returns after exactly one more
    sleep than there were silent batches, and the batches raised later are
    left for the calls that follow. *)
Theorem wait_proceeds_after_dns silent b pre post rest fuel s :
  well_registered s -> subscribed s -> st_ready s = false ->
  sc_raised (st_world s) = silent ++ b :: rest ->
  Forall (fun evs => NET_EVENT_DNS_SERVER_ADD ∉ evs) silent ->
  b = pre ++ NET_EVENT_DNS_SERVER_ADD :: post -> NET_EVENT_IF_DOWN ∉ post ->
  length silent < fuel ->
  exists s',
    wait_network_ready fuel s = (Val tt, s') /\
    count_io is_sleep (st_log s') =
      count_io is_sleep (st_log s) + S (length silent) /\
    sc_raised (st_world s') = rest.
Proof.
  intros Hw Hs Hr Hb Hsilent Hsplit Hpost Hfuel.
  exists (rounds (S (length silent)) s).
  destruct (wait_network_ready_script silent b pre post rest fuel s) as [Hrun Hrest];
    try assumption.
  split_and!; [exact Hrun | apply count_sleep_rounds | exact Hrest].
Qed.

(** C26: without a DNS-server-added event after the registration the loop
    waits for ever: when no batch still to be raised holds one, no fuel
    makes the loop return.  In particular a network that was ready before
    [main] registered its callbacks is never seen as ready. *)
Theorem wait_without_dns_never_returns fuel s :
  well_registered s -> subscribed s -> st_ready s = false ->
  Forall (fun evs => NET_EVENT_DNS_SERVER_ADD ∉ evs) (sc_raised (st_world s)) ->
  fst (wait_network_ready fuel s) = Halt OutOfFuel.
Proof.
  intros Hw Hs Hr Hsilent.
  rewrite wait_network_ready_starved; [reflexivity | exact Hw |].
  intros k _. destruct (rounds_script k s Hw Hs) as [_ ->].
  rewrite Hr. apply tracker_stays_clear.
  intros (evs & Hevs & Hin)%elem_of_concat.
  apply (proj1 (Forall_forall _ _) Hsilent evs); [|exact Hin].
  eapply elem_of_take_weaken, Hevs.
Qed.

End WaitScript.

(** ** The theorems at concrete inputs *)

Section Witnesses.
#[local] Existing Instance zephyr_event_codes.
#[local] Existing Instance zephyr_bus.
#[local] Open Scope Z_scope.

(** Nothing is raised during the registration; then the interface comes
    up, flaps, and the DNS server is added during the fourth sleep. *)
Definition wait_script : script :=
  happy_script
    [[]; []; []; [0xD0010002]; []; [0xD0010001; 0xD0010002];
     [0xF1140003; 0xD0010002]; [0xD0010001]]
    example_addrinfo [].

Definition wait_demo : state script :=
  snd (setup_iface_events (init_state wait_script)).

(** A network that never announces a DNS server. *)
Definition silent_script : script :=
  happy_script [[]; []; []; [0xD0010002]; [0xD0010001]; [0xD0010002]]
               example_addrinfo [].

Definition silent_demo : state script :=
  snd (setup_iface_events (init_state silent_script)).

Lemma wait_returns_only_when_ready_witness :
  st_ready (snd (wait_network_ready 5%nat wait_demo)) = true.
Proof.
  apply (wait_returns_only_when_ready 5%nat wait_demo). vm_compute. reflexivity.
Defined.

Lemma wait_proceeds_at_first_ready_witness :
  wait_network_ready 5%nat wait_demo = (Val tt, rounds 4%nat wait_demo) /\
  count_io is_sleep (st_log (rounds 4%nat wait_demo)) =
    (count_io is_sleep (st_log wait_demo) + 4)%nat /\
  main_log (st_log (rounds 4%nat wait_demo)) =
    main_log (st_log wait_demo) ++ concat (replicate 4%nat [waiting_line; IoSleep 5]).
Proof.
  apply (wait_proceeds_at_first_ready 4%nat 5%nat wait_demo);
    [by_compute | | vm_compute; reflexivity | lia].
  intros k Hk. do 4 (destruct k as [|k]; [vm_compute; reflexivity|]). lia.
Defined.

Lemma wait_without_ready_never_returns_witness :
  wait_network_ready 3%nat wait_demo = (Halt OutOfFuel, rounds 3%nat wait_demo) /\
  count_io is_sleep (st_log (rounds 3%nat wait_demo)) =
    (count_io is_sleep (st_log wait_demo) + 3)%nat.
Proof.
  apply (wait_without_ready_never_returns 3%nat wait_demo); [by_compute|].
  intros k Hk. do 4 (destruct k as [|k]; [vm_compute; reflexivity|]). lia.
Defined.

Lemma wait_proceeds_after_dns_witness :
  exists s',
    wait_network_ready 5%nat wait_demo = (Val tt, s') /\
    count_io is_sleep (st_log s') = (count_io is_sleep (st_log wait_demo) + 4)%nat /\
    sc_raised (st_world s') = [[0xD0010001]].
Proof.
  apply (wait_proceeds_after_dns
           [[0xD0010002]; []; [0xD0010001; 0xD0010002]]
           [0xF1140003; 0xD0010002] [] [0xD0010002] [[0xD0010001]] 5%nat wait_demo);
    try by_compute; reflexivity.
Defined.

Lemma wait_without_dns_never_returns_witness :
  fst (wait_network_ready 100%nat silent_demo) = Halt OutOfFuel.
Proof.
  apply (wait_without_dns_never_returns 100%nat silent_demo); by_compute.
Defined.

End Witnesses.
