(* ===== verification/Resolver.v ===== *)
(** * Address resolution (http_get.c, lines 109-116 and 144-163)

    [main] announces the request, resolves the host with an IPv4 stream
    hint, prints the status, gives up when it is not zero, and otherwise
    dumps and uses the first node of the result. *)

From Stdlib Require Import ZArith List Lia.
From Stdlib Require Import Strings.String.
From stdpp Require Import base tactics numbers list.
From S2P Require Import Prelude Monad Config Platform Readiness NetMgmt Syscalls.
From S2P Require Import Script ScriptRun Protocol Conform.

#[local] Open Scope Z_scope.
#[local] Open Scope prog_scope.

Section Resolver.
Context {W : Type} {plat : Platform W} {codes : NetEventCodes} {bus : EventBus}
  {consts : SocketConsts}.

(** Lines 147-148: [hints] is static, so only two fields are not zero. *)
Definition hints : addrinfo_hints :=
  {| hint_flags := 0; hint_family := AF_INET; hint_socktype := SOCK_STREAM;
     hint_protocol := 0 |}.

(** Lines 109-116. *)
Definition dump_addrinfo (ai : addrinfo) : M (state W) unit :=
  printf ("addrinfo @%p: ai_family=%d, ai_socktype=%d, ai_protocol=%d, "
          ++ "sa_family=%d, sin_port=%x" ++ LF)
    [APtr (ai_self ai); AInt (ai_family ai); AInt (ai_socktype ai);
     AInt (ai_protocol ai); AInt (sa_family (ai_addr ai));
     AInt (sin_port (ai_addr ai))].

(** Lines 144-163: the node [main] goes on with.  A resolver that reports
    success and returns no node makes [dump_addrinfo(res)] dereference a
    null pointer. *)
Definition resolve (tls : bool) : M (state W) addrinfo :=
  printf ("Preparing HTTP GET request for http://" ++ HTTP_HOST ++ ":"
          ++ HTTP_PORT tls ++ HTTP_PATH ++ LF) [] ;;
  r <- getaddrinfo HTTP_HOST (HTTP_PORT tls) hints ;;
  printf ("getaddrinfo status: %d" ++ LF) [AInt (fst r)] ;;
  if bool_decide (fst r <> 0) then
    printf ("Unable to resolve address, quitting" ++ LF) [] ;;
    halt Returned
  else
    res <- check NullDeref (head (snd r)) ;;
    dump_addrinfo res ;;
    ret res.

End Resolver.

(** ** The resolver in the protocol *)

Section ResolverConforms.
Context {W : Type} {plat : Platform W} {laws : PlatformLaws W}
  {codes : NetEventCodes} {bus : EventBus} {consts : SocketConsts}.
Variable tls : bool.
Variable l0 : list io.
Variable q0 : phase.

(** The phase after [getaddrinfo] gave [r]. *)
Definition resolved (r : Z * list addrinfo) : phase :=
  if decide (fst r = 0) then
    match snd r with
    | a :: _ => Resolved a
    | [] => Ready tls
    end
  else Stopped (ResolveError (fst r)).

(** A lawful resolver that reports success gives a node. *)
Lemma getaddrinfo_answer host port h res :
  answer (plat_getaddrinfo host port h) (0, res) -> res <> [].
Proof.
  intros [w Hw]. destruct (plat_getaddrinfo host port h w) as [[st r] w'] eqn:E.
  simpl in Hw. injection Hw as <- <-. eapply plat_getaddrinfo_spec, E.
Qed.

Lemma step_resolved r :
  answer (plat_getaddrinfo HTTP_HOST (HTTP_PORT tls) hints) r ->
  step tls (Ready tls) (IoGetaddrinfo HTTP_HOST (HTTP_PORT tls) hints (fst r) (snd r))
       (resolved r).
Proof.
  destruct r as [st res]. intros Ha. unfold resolved. simpl.
  destruct (decide (st = 0)) as [->|Hst].
  - apply getaddrinfo_answer in Ha. destruct res as [|a rest]; [done|].
    now apply step_resolve_ok.
  - now apply step_resolve_error.
Qed.

(** [resolve] makes the one call the protocol allows, returns the first
    node on success, and stops the run on every other status without
    dereferencing anything. *)
Lemma resolve_conforms :
  triple (at_phase tls l0 q0 (Ready tls)) (resolve tls)
         (fun a => at_phase tls l0 q0 (Resolved a)) (stops tls l0 q0).
Proof.
  unfold resolve. conforms_bind; [now apply conforms_printf|].
  conforms_bind.
  { apply (conforms_syscall tls l0 q0 _ _ _ resolved); [done | apply step_resolved]. }
  destruct a0 as [st res]. apply triple_pure. intros Ha. simpl.
  conforms_bind; [now apply conforms_printf|].
  unfold resolved. simpl. case_bool_decide as Hst.
  - rewrite decide_False by exact Hst.
    conforms_bind; [now apply conforms_printf|]. now apply conforms_return.
  - assert (st = 0) as -> by (destruct (decide (st = 0)); tauto).
    apply getaddrinfo_answer in Ha. destruct res as [|x rest]; [done|]. simpl.
    apply triple_bind_ret.
    conforms_bind; [now apply conforms_printf|]. conforms_ret.
Qed.

End ResolverConforms.

(** ** The resolver against a script *)

Section ResolverScript.
Context {codes : NetEventCodes} {bus : EventBus} {consts : SocketConsts}.

(** What [dump_addrinfo] logs. *)
Definition dump_line (ai : addrinfo) : io :=
  IoPrintf ("addrinfo @%p: ai_family=%d, ai_socktype=%d, ai_protocol=%d, "
            ++ "sa_family=%d, sin_port=%x" ++ LF)
    [APtr (ai_self ai); AInt (ai_family ai); AInt (ai_socktype ai);
     AInt (ai_protocol ai); AInt (sa_family (ai_addr ai));
     AInt (sin_port (ai_addr ai))].

(** What [main] logs while it resolves, when the resolver gives [a] and
    [rest]. *)
Definition resolve_transcript (tls : bool) (a : addrinfo) (rest : list addrinfo)
    : list io :=
  [IoPrintf ("Preparing HTTP GET request for http://" ++ HTTP_HOST ++ ":"
             ++ HTTP_PORT tls ++ HTTP_PATH ++ LF) [];
   IoGetaddrinfo HTTP_HOST (HTTP_PORT tls) hints 0 (a :: rest);
   IoPrintf ("getaddrinfo status: %d" ++ LF) [AInt 0];
   dump_line a].

Lemma resolve_script tls l w a rest :
  sc_resolve w = ResolveOk a rest ->
  triple (at_log l w) (resolve tls)
         (fun x s => at_log (l ++ resolve_transcript tls a rest) w s /\ x = a)
         never.
Proof.
  intros Hres. unfold resolve. script_bind; [apply script_printf|].
  script_bind.
  { apply (script_call _ _ _ w (0, a :: rest) w); [done|].
    intros w0 Hw0. split; [|exact Hw0]. simpl. unfold script_getaddrinfo.
    now rewrite (answers_field sc_resolve w0 w), Hres. }
  script_result. simpl.
  script_bind; [apply script_printf|]. apply triple_bind_ret.
  script_bind; [apply script_printf|].
  intros s Hs. split; [|reflexivity]. unfold resolve_transcript, dump_line.
  now rewrite <- !app_assoc in Hs.
Qed.

End ResolverScript.

(** ** Theorems *)

Section ResolverTheorems.
Context {W : Type} {plat : Platform W} {laws : PlatformLaws W}
  {codes : NetEventCodes} {bus : EventBus} {consts : SocketConsts}.

(** C12: the resolver refines its segment of the protocol.  From every
    safe state and on every lawful platform, [resolve] makes exactly one
    call, [getaddrinfo] of the configured host and port with an IPv4
    stream hint; when the status is zero it yields the first node of the
    result, and on every other status the run ends by a return from
    [main].  It never dereferences the result of a failed resolution. *)
Theorem resolve_refines (tls : bool) :
  refines tls (Ready tls) (resolve tls) Resolved.
Proof. apply conforms_refines. intros l0. apply resolve_conforms. Qed.

End ResolverTheorems.

(** ** The theorems at concrete inputs *)

Section Witnesses.
#[local] Existing Instance zephyr_event_codes.
#[local] Existing Instance zephyr_bus.
#[local] Existing Instance zephyr_socket_consts.

(** A resolver that finds the host, and one that reports EAI_NONAME. *)
Definition resolving : state script :=
  init_state (answer_script (ResolveOk example_addrinfo []) 3 [] 0 40 []).

Definition not_resolving : state script :=
  init_state (answer_script (ResolveErr (-2)) 3 [] 0 40 []).

Lemma resolve_refines_witness :
  refines_from true (Ready true) (resolve true) Resolved resolving /\
  refines_from false (Ready false) (resolve false) Resolved not_resolving.
Proof.
  split; [apply (resolve_refines true) | apply (resolve_refines false)];
    by_compute.
Defined.

End Witnesses.
