(* ===== verification/Establisher.v ===== *)
(** * Connection establishment (http_get.c, lines 139-142 and 165-184)

    The credential is installed before the address is resolved; the socket
    is created with the TLS protocol when TLS is configured, given the tag
    list and the host name to verify, and connected to the resolved
    address.  Every socket call goes through [CHECK]. *)

From Stdlib Require Import ZArith List Lia.
From Stdlib Require Import Strings.String.
From stdpp Require Import base tactics numbers list.
From S2P Require Import Prelude Monad Config Platform Readiness NetMgmt Syscalls.
From S2P Require Import Script ScriptRun Protocol ProtocolFacts Conform.

#[local] Open Scope Z_scope.
#[local] Open Scope prog_scope.

Section Establisher.
Context {W : Type} {plat : Platform W} {codes : NetEventCodes} {bus : EventBus}
  {consts : SocketConsts}.

(** Lines 139-142: the result of [tls_credential_add] is not looked at. *)
Definition tls_provision (tls : bool) : M (state W) unit :=
  if tls then
    tls_credential_add CA_CERTIFICATE_TAG TLS_CREDENTIAL_CA_CERTIFICATE
      ca_certificate (length ca_certificate) ;;
    ret tt
  else ret tt.

(** Lines 165-171. *)
Definition open_socket (tls : bool) (res : addrinfo) : M (state W) Z :=
  sock <- socket (ai_family res) (ai_socktype res)
                 (if tls then IPPROTO_TLS_1_2 else ai_protocol res) ;;
  CHECK "sock" sock ;;
  printf ("sock = %d" ++ LF) [AInt sock] ;;
  ret sock.

(** Lines 173-182: [sec_tag_opt] holds one tag of four bytes;
    [sizeof(HTTP_HOST)] counts the terminator. *)
Definition tls_configure (tls : bool) (sock : Z) : M (state W) unit :=
  if tls then
    r <- setsockopt sock SOL_TLS TLS_SEC_TAG_LIST
                    (OptTags [CA_CERTIFICATE_TAG]) 4 ;;
    CHECK ("setsockopt(sock, SOL_TLS, TLS_SEC_TAG_LIST, "
           ++ "sec_tag_opt, sizeof(sec_tag_opt))") r ;;
    r <- setsockopt sock SOL_TLS TLS_HOSTNAME
                    (OptBytes (literal HTTP_HOST)) (c_sizeof HTTP_HOST) ;;
    CHECK ("setsockopt(sock, SOL_TLS, TLS_HOSTNAME, "
           ++ "HTTP_HOST, sizeof(HTTP_HOST))") r
  else ret tt.

(** Line 184. *)
Definition connect_to (sock : Z) (res : addrinfo) : M (state W) unit :=
  r <- connect sock (ai_addr res) (ai_addrlen res) ;;
  CHECK "connect(sock, res->ai_addr, res->ai_addrlen)" r.

End Establisher.

(** ** The establisher in the protocol *)

Section EstablisherConforms.
Context {W : Type} {plat : Platform W} {codes : NetEventCodes} {bus : EventBus}
  {consts : SocketConsts}.
Variable tls : bool.
Variable l0 : list io.
Variable q0 : phase.

(** The options a socket has when it may be connected. *)
Definition configured : nat := if tls then 2%nat else 0%nat.

Lemma tls_provision_conforms :
  triple (at_phase tls l0 q0 (Ready false)) (tls_provision tls)
         (fun _ => at_phase tls l0 q0 (Ready tls)) (stops tls l0 q0).
Proof.
  unfold tls_provision. destruct tls eqn:Htls; [|conforms_ret].
  conforms_bind.
  - apply (conforms_call _ _ _ _ _ _ (fun _ => Ready true)); [done|].
    intros r. now apply step_provision.
  - conforms_ret.
Qed.

Lemma open_socket_conforms a :
  triple (at_phase tls l0 q0 (Resolved a)) (open_socket tls a)
         (fun sock => at_phase tls l0 q0 (Created a sock 0)) (stops tls l0 q0).
Proof.
  unfold open_socket. conforms_bind.
  { apply (conforms_call _ _ _ _ _ _
             (fun sock => checked ConnectError (Created a sock 0) sock));
      [done|].
    intros sock. unfold checked. destruct (decide _) as [->|Hs].
    - apply step_socket_error.
    - now apply step_socket_ok. }
  conforms_bind; [now apply conforms_CHECK|].
  conforms_bind; [now apply conforms_printf|]. conforms_ret.
Qed.

Lemma tls_configure_conforms a sock :
  triple (at_phase tls l0 q0 (Created a sock 0)) (tls_configure tls sock)
         (fun _ => at_phase tls l0 q0 (Created a sock configured)) (stops tls l0 q0).
Proof.
  unfold tls_configure, configured. destruct tls eqn:Htls; [|conforms_ret].
  conforms_bind.
  { apply (conforms_call _ _ _ _ _ _ (checked ConnectError (Created a sock 1)));
      [done|].
    apply step_checked; [now apply step_tag_list_error|].
    intros r Hr. now apply step_tag_list_ok. }
  conforms_bind; [now apply conforms_CHECK|].
  conforms_bind.
  { apply (conforms_call _ _ _ _ _ _ (checked ConnectError (Created a sock 2)));
      [done|].
    apply step_checked; [now apply step_hostname_error|].
    intros r Hr. now apply step_hostname_ok. }
  now apply conforms_CHECK.
Qed.

Lemma connect_to_conforms a sock :
  triple (at_phase tls l0 q0 (Created a sock configured)) (connect_to sock a)
         (fun _ => at_phase tls l0 q0 (Connected sock)) (stops tls l0 q0).
Proof.
  unfold connect_to. conforms_bind.
  { apply (conforms_call _ _ _ _ _ _ (checked ConnectError (Connected sock)));
      [done|].
    apply step_checked; [now apply step_connect_error|].
    intros r Hr. now apply step_connect_ok. }
  now apply conforms_CHECK.
Qed.

End EstablisherConforms.

(** ** The establisher against a script *)

Section EstablisherScript.
Context {codes : NetEventCodes} {bus : EventBus} {consts : SocketConsts}.
Implicit Types (w : script) (l : list io).


(** What [main] logs for the credential. *)
Definition provision_transcript (tls : bool) w : list io :=
  if tls then [credential_call (sc_credential w)] else [].

Lemma tls_provision_script tls l w :
  triple (at_log l w) (tls_provision tls)
         (fun _ => at_log (l ++ provision_transcript tls w) w) never.
Proof.
  unfold tls_provision, provision_transcript. destruct tls.
  - script_bind.
    + apply (script_call _ _ _ w (sc_credential w) w); [done|]. field_call sc_credential.
    + script_result. intros s Hs. exact Hs.
  - intros s Hs. now rewrite app_nil_r.
Qed.

(** What [main] logs while it opens the socket. *)
Definition socket_transcript (tls : bool) (a : addrinfo) w : list io :=
  [IoSocket (ai_family a) (ai_socktype a)
     (if tls then IPPROTO_TLS_1_2 else ai_protocol a) (sc_socket w);
   IoPrintf ("sock = %d" ++ LF) [AInt (sc_socket w)]].

Lemma open_socket_script tls a l w :
  sc_socket w <> -1 ->
  triple (at_log l w) (open_socket tls a)
         (fun x s => at_log (l ++ socket_transcript tls a w) w s /\
                     x = sc_socket w) never.
Proof.
  intros Hsock. unfold open_socket. script_bind.
  { apply (script_call _ _ _ w (sc_socket w) w); [done|]. field_call sc_socket. }
  script_result. script_bind; [now apply script_CHECK|].
  script_bind; [apply script_printf|].
  intros s Hs. split; [|reflexivity]. now rewrite <- app_assoc in Hs.
Qed.

(** The script after the options were set, and what [main] logs for
    them. *)
Definition configured_script (tls : bool) w : script :=
  if tls then sockopt_next (sockopt_next w) else w.

Definition configure_transcript (tls : bool) (sock : Z) w : list io :=
  if tls then [tag_list_call sock (sockopt_result w);
               hostname_call sock (sockopt_result (sockopt_next w))]
  else [].

Lemma tls_configure_script (tls : bool) (sock : Z) l w :
  (tls -> sockopt_result w <> -1 /\ sockopt_result (sockopt_next w) <> -1) ->
  triple (at_log l w) (tls_configure tls sock)
         (fun _ => at_log (l ++ configure_transcript tls sock w)
                          (configured_script tls w)) never.
Proof.
  unfold tls_configure, configure_transcript, configured_script.
  destruct tls; [|intros _ s Hs; now rewrite app_nil_r].
  intros H. destruct (H I) as [H1 H2]. script_bind.
  { apply (script_call _ _ _ w (sockopt_result w) (sockopt_next w)); [done|].
    intros w0. apply script_setsockopt_answers. }
  script_result. script_bind; [now apply script_CHECK|]. script_bind.
  { apply (script_call _ _ _ _ (sockopt_result (sockopt_next w))
             (sockopt_next (sockopt_next w))); [done|].
    intros w0. apply script_setsockopt_answers. }
  script_result. intros s Hs. rewrite CHECK_pass by exact H2.
  now rewrite <- app_assoc in Hs.
Qed.

Lemma connect_to_script sock a l w :
  sc_connect w <> -1 ->
  triple (at_log l w) (connect_to sock a)
         (fun _ => at_log (l ++ [IoConnect sock (ai_addr a) (ai_addrlen a)
                                   (sc_connect w)]) w) never.
Proof.
  intros Hc. unfold connect_to. script_bind.
  { apply (script_call _ _ _ w (sc_connect w) w); [done|]. field_call sc_connect. }
  script_result. now apply script_CHECK.
Qed.

End EstablisherScript.

(** ** Theorems *)

Section EstablisherTheorems.
Context {W : Type} {plat : Platform W} {codes : NetEventCodes} {bus : EventBus}
  {consts : SocketConsts}.

(** C30: creating the socket refines its segment of the protocol, on every
    platform: one [socket] call with the family and the type of the
    resolved address and, in a build with TLS, the TLS protocol instead of
    the address's own; a result of -1 ends the run by [exit(1)], every
    other result is the socket that is used from then on. *)
Theorem open_socket_refines (tls : bool) (a : addrinfo) :
  refines tls (Resolved a) (open_socket tls a) (fun sock => Created a sock 0).
Proof. apply conforms_refines. intros l0. apply open_socket_conforms. Qed.

(** C11: configuring TLS refines its segment of the protocol, on every
    platform: without TLS no call is made; with TLS the tag list is set
    and then the host name, and the host name is only set, and the run
    only goes on, when the call before returned something other than
    -1. *)
Theorem tls_configure_refines (tls : bool) (a : addrinfo) (sock : Z) :
  refines tls (Created a sock 0) (tls_configure tls sock)
          (fun _ => Created a sock (configured tls)).
Proof. apply conforms_refines. intros l0. apply tls_configure_conforms. Qed.

(** C31: connecting refines its segment of the protocol, on every
    platform: one [connect] of the socket to the address and the length of
    the resolved node; -1 ends the run by [exit(1)]. *)
Theorem connect_to_refines (tls : bool) (a : addrinfo) (sock : Z) :
  refines tls (Created a sock (configured tls)) (connect_to sock a)
          (fun _ => Connected sock).
Proof. apply conforms_refines. intros l0. apply connect_to_conforms. Qed.

End EstablisherTheorems.

(** ** The theorems at concrete inputs *)

Section Witnesses.
#[local] Existing Instance zephyr_event_codes.
#[local] Existing Instance zephyr_bus.
#[local] Existing Instance zephyr_socket_consts.

(** Every call succeeds; no socket is left; the second option is
    refused; the peer refuses the connection. *)
Definition all_good : state script :=
  init_state (answer_script (ResolveOk example_addrinfo []) 3 [0; 0] 0 40 []).

Definition no_socket : state script :=
  init_state (answer_script (ResolveOk example_addrinfo []) (-1) [] 0 40 []).

Definition hostname_refused : state script :=
  init_state (answer_script (ResolveOk example_addrinfo []) 3 [0; -1] 0 40 []).

Definition connection_refused : state script :=
  init_state (answer_script (ResolveOk example_addrinfo []) 3 [] (-1) 40 []).

Lemma open_socket_refines_witness :
  refines_from true (Resolved example_addrinfo)
    (open_socket true example_addrinfo)
    (fun sock => Created example_addrinfo sock 0) all_good /\
  refines_from false (Resolved example_addrinfo)
    (open_socket false example_addrinfo)
    (fun sock => Created example_addrinfo sock 0) no_socket.
Proof.
  split; [apply (open_socket_refines true example_addrinfo)
         | apply (open_socket_refines false example_addrinfo)]; by_compute.
Defined.

Lemma tls_configure_refines_witness :
  refines_from true (Created example_addrinfo 3 0) (tls_configure true 3)
    (fun _ => Created example_addrinfo 3 2) all_good /\
  refines_from true (Created example_addrinfo 3 0) (tls_configure true 3)
    (fun _ => Created example_addrinfo 3 2) hostname_refused.
Proof.
  split; apply (tls_configure_refines true example_addrinfo 3); by_compute.
Defined.

Lemma connect_to_refines_witness :
  refines_from false (Created example_addrinfo 3 0)
    (connect_to 3 example_addrinfo) (fun _ => Connected 3) all_good /\
  refines_from false (Created example_addrinfo 3 0)
    (connect_to 3 example_addrinfo) (fun _ => Connected 3) connection_refused.
Proof.
  split; apply (connect_to_refines false example_addrinfo 3); by_compute.
Defined.

End Witnesses.
