(* ===== verification/Driver.v ===== *)
(** * The request/response driver (http_get.c, lines 185-207)

    One [send] of the fixed request, then a loop that receives into
    [response], terminates what it received with a NUL byte and prints it
    with [%s], until a receive returns zero; then the socket is closed. *)

From Stdlib Require Import ZArith List Lia.
From Stdlib Require Import Strings.String.
From stdpp Require Import base tactics numbers list.
From S2P Require Import Prelude Monad Config Platform Readiness NetMgmt Syscalls.
From S2P Require Import Script ScriptRun Protocol Conform.

#[local] Open Scope Z_scope.
#[local] Open Scope prog_scope.

Section Driver.
Context {W : Type} {plat : Platform W} {codes : NetEventCodes} {bus : EventBus}.

(** Line 185. *)
Definition send_request (sock : Z) : M (state W) unit :=
  r <- send sock (literal REQUEST) (SSTRLEN REQUEST) 0 ;;
  CHECK "send(sock, REQUEST, SSTRLEN(REQUEST), 0)" r.

(** Lines 189-203: [while (1) { ... }].  [fuel] bounds the number of
    receives; [length response] is [sizeof(response)]. *)
Fixpoint recv_loop (fuel : nat) (sock : Z) : M (state W) unit :=
  match fuel with
  | O => halt OutOfFuel
  | S fuel' =>
    len <- recv sock (length response - 1) 0 ;;
    if bool_decide (len < 0) then
      printf ("Error reading response" ++ LF) [] ;;
      halt Returned
    else if bool_decide (len = 0) then ret tt
    else
      buf <- gets st_response ;;
      buf' <- check OutOfBounds (buf_store buf len NUL) ;;
      modify (set_response buf') ;;
      buf <- gets st_response ;;
      printf "%s" [AStr (cstr buf)] ;;
      recv_loop fuel' sock
  end.

(** Lines 187-207. *)
Definition dump_response (fuel : nat) (sock : Z) : M (state W) unit :=
  printf ("Response:" ++ LF ++ LF) [] ;;
  recv_loop fuel sock ;;
  printf LF [] ;;
  close sock ;;
  ret tt.

End Driver.

(** ** One round of the loop *)

Section DriverRounds.
Context {W : Type} {plat : Platform W} {codes : NetEventCodes} {bus : EventBus}.
Implicit Types (s : state W).

(** A round in which a chunk arrived: the chunk is terminated in place
    and printed, and the loop goes on. *)
Lemma recv_loop_chunk fuel sock s len s1 buf' :
  recv sock (length response - 1) 0 s = (Val len, s1) -> 0 < len ->
  buf_store (st_response s1) len NUL = Some buf' ->
  recv_loop (S fuel) sock s =
  recv_loop fuel sock
    (set_log (st_log s1 ++ [IoPrintf "%s" [AStr (cstr buf')]])
             (set_response buf' s1)).
Proof.
  intros Hrecv Hlen Hst. cbn [recv_loop].
  erewrite bind_val by exact Hrecv.
  rewrite !bool_decide_eq_false_2 by lia.
  unfold bind at 1, gets. unfold bind at 1. now rewrite Hst.
Qed.

End DriverRounds.

(** ** The driver in the protocol *)

Section DriverConforms.
Context {W : Type} {plat : Platform W} {laws : PlatformLaws W}
  {codes : NetEventCodes} {bus : EventBus} {consts : SocketConsts}.
Variable tls : bool.
Variable l0 : list io.
Variable q0 : phase.
Implicit Types (s : state W).

Lemma send_request_conforms sock :
  triple (at_phase tls l0 q0 (Connected sock)) (send_request sock)
         (fun _ => at_phase tls l0 q0 (Receiving sock)) (stops tls l0 q0).
Proof.
  unfold send_request, send. rewrite take_SSTRLEN_literal. conforms_bind.
  { apply (conforms_call _ _ _ _ _ _ (checked SendError (Receiving sock)));
      [done|].
    apply step_checked; [apply step_send_error|].
    intros r Hr. now apply step_send_ok. }
  now apply conforms_CHECK.
Qed.

(** The phase after [recv] gave [r]. *)
Definition received (sock : Z) (r : Z * list byte) : phase :=
  if decide (fst r < 0) then Stopped (RecvError (fst r))
  else if decide (fst r = 0) then Closing sock
  else Printing sock (snd r).

(** What a lawful [recv] can give. *)
Lemma recv_answer sock cap flags len data :
  answer (plat_recv sock cap flags) (len, data) ->
  (len < 0 /\ data = []) \/
  (0 <= len <= Z.of_nat cap /\ Z.of_nat (length data) = len).
Proof.
  intros [w Hw]. destruct (plat_recv sock cap flags w) as [[l d] w'] eqn:E.
  simpl in Hw. injection Hw as <- <-. eapply plat_recv_spec, E.
Qed.

Lemma step_received sock r :
  answer (plat_recv sock 1023 0) r ->
  step tls (Receiving sock) (IoRecv sock 1023 0 (fst r) (snd r)) (received sock r).
Proof.
  destruct r as [len data]. intros Ha. unfold received. simpl.
  destruct (recv_answer _ _ _ _ _ Ha) as [[Hlen ->]|[Hlen Hdata]].
  - rewrite decide_True by exact Hlen. now apply step_recv_error.
  - rewrite decide_False by lia. subst len. destruct (decide _) as [H0|H0].
    + destruct data; [|discriminate]. apply step_recv_end.
    + apply step_recv_data; [|lia]. now intros ->.
Qed.

(** [recv] into [response]: the call is a step of the protocol, what
    arrived fits the array, and it is at the start of the array
    afterwards. *)
Lemma recv_conforms sock :
  triple (at_phase tls l0 q0 (Receiving sock)) (recv sock 1023 0)
    (fun len s => exists data buf,
       at_phase tls l0 q0 (received sock (len, data)) s /\
       answer (plat_recv sock 1023 0) (len, data) /\
       length buf = length response /\
       buf_write data buf = Some (st_response s))
    (stops tls l0 q0).
Proof.
  unfold recv. conforms_bind.
  { apply (conforms_syscall tls l0 q0 _ _ _ (received sock));
      [done | apply step_received]. }
  destruct a as [len data]. apply triple_pure. intros Ha s Hs.
  unfold bind, gets. simpl.
  destruct (buf_write data (st_response s)) as [buf'|] eqn:Hb; simpl.
  - exists data, (st_response s). split_and!; [|exact Ha|apply Hs|exact Hb].
    apply at_phase_set_response; [|exact Hs].
    rewrite (buf_write_length _ _ _ Hb). apply Hs.
  - destruct (buf_write_fits data (st_response s)) as [? ?]; [|congruence].
    destruct Hs as [[_ ->] _]. rewrite length_response.
    destruct (recv_answer _ _ _ _ _ Ha) as [[_ ->]|[? ?]]; simpl; lia.
Qed.

(** One chunk: terminated in place and printed up to its first NUL. *)
Lemma print_chunk_conforms sock data buf s :
  at_phase tls l0 q0 (Printing sock data) s ->
  (length data <= 1023)%nat ->
  buf_write data buf = Some (st_response s) ->
  exists buf',
    buf_store (st_response s) (Z.of_nat (length data)) NUL = Some buf' /\
    at_phase tls l0 q0 (Receiving sock)
      (set_log (st_log s ++ [IoPrintf "%s" [AStr (cstr buf')]])
               (set_response buf' s)).
Proof.
  intros Hs Hlen Hw.
  destruct (buf_store_in_range (st_response s) (Z.of_nat (length data)) NUL)
    as [buf' Hst].
  { destruct Hs as [[_ ->] _]. rewrite length_response. lia. }
  exists buf'. split; [exact Hst|].
  rewrite (cstr_write_store _ _ _ _ Hw Hst).
  apply (at_phase_output tls l0 q0 (Printing sock data) _ _ (set_response buf' s));
    [done | apply step_print |].
  apply at_phase_set_response; [|exact Hs].
  rewrite (buf_store_length _ _ _ _ Hst). apply Hs.
Qed.

(** A failed receive: the message, and [main] returns. *)
Lemma recv_failed_conforms sock len :
  triple (at_phase tls l0 q0 (Stopped (RecvError len)))
         (printf ("Error reading response" ++ LF) [] ;; halt Returned
          : M (state W) unit)
         (fun _ => at_phase tls l0 q0 (Closing sock)) (stops tls l0 q0).
Proof.
  conforms_bind; [now apply conforms_printf|]. now apply conforms_return.
Qed.

(** The loop: every round is a receive and, for a chunk, its output; it
    leaves through the end of the stream, an error, or the fuel. *)
Lemma recv_loop_conforms fuel sock :
  triple (at_phase tls l0 q0 (Receiving sock)) (recv_loop fuel sock)
         (fun _ => at_phase tls l0 q0 (Closing sock)) (stops tls l0 q0).
Proof.
  induction fuel as [|fuel IH].
  { intros s Hs. exists (Receiving sock). split; [exact Hs|]. left.
    split; [reflexivity|]. right. eauto. }
  cbn [recv_loop]. change (length response - 1)%nat with 1023%nat.
  conforms_bind; [apply recv_conforms|].
  rename a into len. intros s (data & buf & Hs & Ha & Hbuf & Hw).
  unfold received in Hs. simpl in Hs.
  destruct (recv_answer _ _ _ _ _ Ha) as [[Hlen ->]|[Hlen Hdata]].
  - rewrite bool_decide_eq_true_2 by exact Hlen.
    rewrite decide_True in Hs by exact Hlen.
    exact (recv_failed_conforms sock len s Hs).
  - rewrite bool_decide_eq_false_2 by lia. rewrite decide_False in Hs by lia.
    case_bool_decide as H0.
    + rewrite decide_True in Hs by exact H0. exact Hs.
    + rewrite decide_False in Hs by exact H0.
      destruct (print_chunk_conforms sock data buf s) as (buf' & Hst & Hs');
        [exact Hs | lia | exact Hw |].
      unfold bind at 1, gets. unfold bind at 1. rewrite <- Hdata, Hst.
      simpl. apply IH, Hs'.
Qed.

Lemma dump_response_conforms fuel sock :
  triple (at_phase tls l0 q0 (Receiving sock)) (dump_response fuel sock)
         (fun _ => at_phase tls l0 q0 (Stopped Finished)) (stops tls l0 q0).
Proof.
  unfold dump_response. conforms_bind; [now apply conforms_printf|].
  conforms_bind; [apply recv_loop_conforms|].
  conforms_bind; [now apply conforms_printf|].
  conforms_bind.
  - apply (conforms_call _ _ _ _ _ _ (fun _ => Stopped Finished)); [done|].
    intros r. apply step_close.
  - conforms_ret.
Qed.

End DriverConforms.

(** ** The driver against a script *)

Section DriverScript.
Context {codes : NetEventCodes} {bus : EventBus}.
Implicit Types (w : script) (l : list io) (s : state script).

Lemma send_request_script sock l w :
  sc_send w <> -1 ->
  triple (at_log l w) (send_request sock)
         (fun _ => at_log (l ++ [IoSend sock (bytes_of REQUEST) 0 (sc_send w)]) w)
         never.
Proof.
  intros Hs. unfold send_request, send. rewrite take_SSTRLEN_literal.
  script_bind.
  { apply (script_call _ _ _ w (sc_send w) w); [done|]. field_call sc_send. }
  script_result. now apply script_CHECK.
Qed.

(** A chunk that fits has arrived: [recv] returns its length and leaves it
    at the start of [response]. *)
Lemma recv_chunk_script sock l w c rest :
  sc_recv w = RecvData c :: rest -> (length c <= 1023)%nat ->
  triple (at_log l w) (recv sock 1023 0)
    (fun x s =>
       (at_log (l ++ [IoRecv sock 1023 0 (Z.of_nat (length c)) c])
               (set_sc_recv rest w) s /\
        exists buf, buf_write c buf = Some (st_response s)) /\
       x = Z.of_nat (length c)) never.
Proof.
  intros Hr Hc. unfold recv. script_bind.
  { apply (script_call _ _ _ w (Z.of_nat (length c), c) (set_sc_recv rest w));
      [done|].
    intros w0 Hw0. now apply script_recv_chunk. }
  script_result. intros s Hs. unfold bind, gets. simpl.
  destruct (buf_write_fits c (st_response s)) as [buf' Hb].
  { destruct Hs as (_ & -> & _). rewrite length_response. lia. }
  rewrite Hb. simpl. split; [|reflexivity]. split; [|eauto].
  apply at_log_set_response; [|exact Hs].
  rewrite (buf_write_length _ _ _ Hb). apply Hs.
Qed.

(** The peer has closed: [recv] returns zero. *)
Lemma recv_closed_script sock l w :
  sc_recv w = [] ->
  triple (at_log l w) (recv sock 1023 0)
    (fun x s => at_log (l ++ [IoRecv sock 1023 0 0 []]) w s /\ x = 0) never.
Proof.
  intros Hr. unfold recv. script_bind.
  { apply (script_call _ _ _ w (0, []) w); [done|].
    intros w0 Hw0. now apply script_recv_closed. }
  script_result. intros s Hs. unfold bind, gets. simpl.
  rewrite drop_0. split; [|reflexivity]. destruct s; exact Hs.
Qed.

(** One chunk: terminated in place and printed up to its first NUL. *)
Lemma print_chunk_script c buf l w s :
  at_log l w s -> (length c <= 1023)%nat ->
  buf_write c buf = Some (st_response s) ->
  exists buf',
    buf_store (st_response s) (Z.of_nat (length c)) NUL = Some buf' /\
    at_log (l ++ [IoPrintf "%s" [AStr (cstr c)]]) w
      (set_log (st_log s ++ [IoPrintf "%s" [AStr (cstr buf')]])
               (set_response buf' s)).
Proof.
  intros Hs Hlen Hw.
  destruct (buf_store_in_range (st_response s) (Z.of_nat (length c)) NUL)
    as [buf' Hst].
  { destruct Hs as (_ & -> & _). rewrite length_response. lia. }
  exists buf'. split; [exact Hst|].
  rewrite (cstr_write_store _ _ _ _ Hw Hst).
  apply (at_log_emit _ _ _ (set_response buf' s));
    [now apply call_not_handler_print|].
  apply at_log_set_response; [|exact Hs].
  rewrite (buf_store_length _ _ _ _ Hst). apply Hs.
Qed.

(** What [main] logs while it receives [chunks] and then the end of the
    stream. *)
Definition recv_transcript (sock : Z) (chunks : list (list byte)) : list io :=
  concat ((fun c => [IoRecv sock 1023 0 (Z.of_nat (length c)) c;
                     IoPrintf "%s" [AStr (cstr c)]]) <$> chunks)
  ++ [IoRecv sock 1023 0 0 []].

Lemma printed_body_recv_transcript sock chunks :
  printed_body (recv_transcript sock chunks) = concat (cstr <$> chunks).
Proof.
  unfold recv_transcript. rewrite printed_body_app, app_nil_r.
  induction chunks as [|c chunks IH]; [reflexivity|].
  rewrite fmap_cons, !concat_cons, printed_body_app, IH, fmap_cons.
  unfold printed_body at 1. simpl. now rewrite app_nil_r.
Qed.

(** A chunk as one [recv] returns it: not empty, and not longer than what
    [recv] was given room for. *)
Definition fits (c : list byte) : Prop := c <> [] /\ (length c <= 1023)%nat.

(** With more fuel than there are chunks the loop receives and prints
    them all, sees the end of the stream, and returns. *)
Lemma recv_loop_script sock chunks : forall fuel l w,
  sc_recv w = RecvData <$> chunks -> Forall fits chunks ->
  (length chunks < fuel)%nat ->
  triple (at_log l w) (recv_loop fuel sock)
         (fun _ => at_log (l ++ recv_transcript sock chunks) (set_sc_recv [] w))
         never.
Proof.
  induction chunks as [|c chunks IH]; intros [|fuel] l w Hr Hc Hf;
    try (simpl in Hf; lia);
    cbn [recv_loop]; change (length response - 1)%nat with 1023%nat.
  - script_bind; [now apply recv_closed_script|]. script_result.
    intros s (? & ? & ? & Ha). split_and!; try assumption.
    simpl in Hr. now rewrite Ha, <- Hr, answers_set_sc_recv.
  - apply Forall_cons in Hc as [[Hne Hlen] Hc].
    script_bind; [now apply (recv_chunk_script sock l w c (RecvData <$> chunks))|].
    script_result. intros s [Hs [buf Hw]].
    rewrite bool_decide_eq_false_2 by lia.
    rewrite bool_decide_eq_false_2 by (destruct c; simpl in *; [done | lia]).
    destruct (print_chunk_script c buf _ _ s Hs Hlen Hw) as (buf' & Hst & Hs').
    unfold bind at 1, gets. unfold bind at 1. rewrite Hst. simpl.
    replace (l ++ recv_transcript sock (c :: chunks))
      with (((l ++ [IoRecv sock 1023 0 (Z.of_nat (length c)) c])
             ++ [IoPrintf "%s" [AStr (cstr c)]]) ++ recv_transcript sock chunks)
      by (unfold recv_transcript; simpl; now rewrite <- !app_assoc).
    apply (IH fuel _ (set_sc_recv (RecvData <$> chunks) w) eq_refl Hc); [|exact Hs'].
    simpl in Hf. lia.
Qed.

(** What [main] logs from the heading of the response to the close. *)
Definition response_transcript (sock : Z) (chunks : list (list byte)) (r : Z)
    : list io :=
  [IoPrintf ("Response:" ++ LF ++ LF) []] ++ recv_transcript sock chunks
  ++ [IoPrintf LF []; IoClose sock r].

Lemma printed_body_response_transcript sock chunks r :
  printed_body (response_transcript sock chunks r) = concat (cstr <$> chunks).
Proof.
  unfold response_transcript.
  rewrite !printed_body_app, printed_body_recv_transcript. simpl.
  now rewrite app_nil_r.
Qed.

Lemma dump_response_script sock chunks fuel l w :
  sc_recv w = RecvData <$> chunks -> Forall fits chunks ->
  (length chunks < fuel)%nat ->
  triple (at_log l w) (dump_response fuel sock)
         (fun _ => at_log (l ++ response_transcript sock chunks (sc_close w))
                          (set_sc_recv [] w)) never.
Proof.
  intros Hr Hc Hf. unfold dump_response.
  script_bind; [apply script_printf|].
  script_bind; [now apply (recv_loop_script sock chunks)|].
  script_bind; [apply script_printf|].
  script_bind.
  { apply (script_call _ _ _ _ (sc_close w) (set_sc_recv [] w)); [done|].
    field_call sc_close. }
  script_result. intros s Hs. unfold response_transcript.
  now rewrite <- !app_assoc in *.
Qed.

(** C10: the receive loop is total on a finite stream and prints all of
    it.  Against a peer that sends [chunks], each non-empty and of at most
    1023 bytes, and then closes, the loop with more fuel than there are
    chunks returns: it has made one [recv] per chunk and one more that
    returned zero, has printed after each [recv] the chunk it returned up
    to its first NUL, has made no call after the zero-length read, and has
    left nothing of the stream unread. *)
Theorem recv_loop_receives_stream sock chunks fuel s :
  safe s ->
  sc_recv (st_world s) = RecvData <$> chunks -> Forall fits chunks ->
  (length chunks < fuel)%nat ->
  exists s',
    recv_loop fuel sock s = (Val tt, s') /\
    main_log (st_log s') = main_log (st_log s) ++ recv_transcript sock chunks /\
    printed_body (st_log s') =
      printed_body (st_log s) ++ concat (cstr <$> chunks) /\
    sc_recv (st_world s') = [] /\ safe s'.
Proof.
  intros [Hw Hlen] Hr Hc Hf.
  pose proof (recv_loop_script sock chunks fuel (main_log (st_log s))
                (st_world s) Hr Hc Hf s) as Hrun.
  destruct (recv_loop fuel sock s) as [[[]|o] s'];
    [|destruct Hrun; now split_and!].
  destruct Hrun as (Hw' & Hlen' & Hl & Ha); [now split_and!|].
  exists s'. split_and!; [reflexivity | exact Hl | | | now split].
  - rewrite <- (printed_body_main_log (st_log s')), Hl, printed_body_app,
      printed_body_main_log, printed_body_recv_transcript. reflexivity.
  - apply (f_equal sc_recv) in Ha. exact Ha.
Qed.

End DriverScript.

(** ** Theorems *)

Section DriverTheorems.
Context {W : Type} {plat : Platform W} {laws : PlatformLaws W}
  {codes : NetEventCodes} {bus : EventBus} {consts : SocketConsts}.
Implicit Types (s : state W).

(** C1: the receive loop stays inside [response].  On every lawful
    platform and from every safe state, whatever arrives and however many
    rounds the loop makes, no round writes outside the array: [recv] is
    given one byte less than the array holds, so the terminator stored at
    [response[len]] is inside it.  The array keeps its size and the
    callbacks stay registered. *)
Theorem recv_loop_in_bounds (fuel : nat) (sock : Z) s (f : fault) :
  safe s ->
  fst (recv_loop fuel sock s) <> Halt (Faulted f) /\
  safe (snd (recv_loop fuel sock s)).
Proof.
  intros Hs.
  assert (Hr : refines false (Receiving sock) (recv_loop fuel sock)
                 (fun _ => Closing sock))
    by (apply conforms_refines; intros l0; apply recv_loop_conforms).
  split; [now apply (refines_no_fault false _ _ _ s f Hr) | apply (Hr s Hs)].
Qed.

(** C32: sending the request refines its segment of the protocol: one
    [send] of the bytes of [REQUEST] without the terminator of the
    literal, with no flags; -1 ends the run by [exit(1)], and every other
    result, also a short count, counts as sent. *)
Theorem send_request_refines (tls : bool) (sock : Z) :
  refines tls (Connected sock) (send_request sock) (fun _ => Receiving sock).
Proof. apply conforms_refines. intros l0. apply send_request_conforms. Qed.

(** C9: reading the response refines its segment of the protocol, on
    every lawful platform: receives of at most 1023 bytes on the socket,
    each chunk printed up to its first NUL before the next receive; a
    negative result ends the run by a return from [main] with the socket
    open; a zero result ends the loop, and then the socket is closed, once,
    and [main] is through. *)
Theorem dump_response_refines (tls : bool) (fuel : nat) (sock : Z) :
  refines tls (Receiving sock) (dump_response fuel sock)
          (fun _ => Stopped Finished).
Proof. apply conforms_refines. intros l0. apply dump_response_conforms. Qed.

End DriverTheorems.

(** ** The theorems at concrete inputs *)

Section Witnesses.
#[local] Existing Instance zephyr_event_codes.
#[local] Existing Instance zephyr_bus.
#[local] Existing Instance zephyr_socket_consts.

(** A peer that sends 2000 bytes at once and then closes. *)
Definition burst : state script :=
  init_state (happy_script [] example_addrinfo [replicate 2000 Byte.x41]).

Lemma recv_loop_in_bounds_witness :
  fst (recv_loop 5 3 burst) <> Halt (Faulted OutOfBounds) /\
  safe (snd (recv_loop 5 3 burst)).
Proof. apply (recv_loop_in_bounds 5 3 burst OutOfBounds). by_compute. Defined.

(** A peer that sends two chunks, the second with a NUL byte in it. *)
Definition two_chunks : state script :=
  init_state (happy_script [] example_addrinfo
                [bytes_of "HTTP/1.0 200 OK"; [Byte.x61; Byte.x00; Byte.x62]]).

Lemma recv_loop_receives_stream_witness :
  exists s',
    recv_loop 3 3 two_chunks = (Val tt, s') /\
    main_log (st_log s') =
      main_log (st_log two_chunks) ++
      recv_transcript 3 [bytes_of "HTTP/1.0 200 OK"; [Byte.x61; Byte.x00; Byte.x62]] /\
    printed_body (st_log s') =
      printed_body (st_log two_chunks) ++
      concat (cstr <$> [bytes_of "HTTP/1.0 200 OK"; [Byte.x61; Byte.x00; Byte.x62]]) /\
    sc_recv (st_world s') = [] /\ safe s'.
Proof.
  apply (recv_loop_receives_stream 3 _ 3 two_chunks);
    [by_compute | reflexivity | | simpl; lia].
  repeat constructor; try discriminate; simpl; lia.
Defined.

(** A peer that takes the request, and one that has gone. *)
Definition sending : state script :=
  init_state (answer_script (ResolveOk example_addrinfo []) 3 [] 0 40 []).

Definition broken_pipe : state script :=
  init_state (answer_script (ResolveOk example_addrinfo []) 3 [] 0 (-1) []).

(** A peer that sends a chunk and then resets the connection. *)
Definition reset_by_peer : state script :=
  init_state (answer_script (ResolveOk example_addrinfo []) 3 [] 0 40
                [RecvData (bytes_of "HTTP/1.0 200 OK"); RecvErr 104]).

Lemma send_request_refines_witness :
  refines_from false (Connected 3) (send_request 3) (fun _ => Receiving 3)
    sending /\
  refines_from false (Connected 3) (send_request 3) (fun _ => Receiving 3)
    broken_pipe.
Proof. split; apply (send_request_refines false 3); by_compute. Defined.

Lemma dump_response_refines_witness :
  refines_from false (Receiving 3) (dump_response 5 3)
    (fun _ => Stopped Finished) burst /\
  refines_from false (Receiving 3) (dump_response 5 3)
    (fun _ => Stopped Finished) reset_by_peer.
Proof. split; apply (dump_response_refines false 5 3); by_compute. Defined.

End Witnesses.
