(* ===== verification/Endless.v ===== *)
(** * A peer that never closes

    A second implementation of [Platform]: every call succeeds at once, no
    event is raised, and the peer always has another chunk to send.  The
    receive loop of lines 189-203 has no bound and no deadline, so against
    this peer it runs for ever: whatever fuel it is given, it uses all of
    it. *)

From Stdlib Require Import ZArith List Lia.
From Stdlib Require Import Strings.String.
From stdpp Require Import base tactics numbers list.
From S2P Require Import Prelude Monad Config Platform Script Readiness NetMgmt.
From S2P Require Import Syscalls Protocol Conform Driver.

#[local] Open Scope Z_scope.
#[local] Open Scope prog_scope.

Section Endless.
Context {codes : NetEventCodes} {bus : EventBus}.

(** The chunk the peer has ready for the [n]-th receive. *)
Variable chunk : nat -> list byte.

(** The world is the number of receives made so far.  [recv] takes as much
    of the next chunk as there is room for. *)
Definition endless_recv (cap : nat) (n : nat) : (Z * list byte) * nat :=
  let data := take cap (chunk n) in ((Z.of_nat (length data), data), S n).

#[local] Instance endless_platform : Platform nat := {|
  plat_raised := fun n => ([], n);
  plat_mdm_hl7800_reset := fun n => (0, n);
  plat_k_sleep := fun _ n => (tt, n);
  plat_tls_credential_add := fun _ _ _ _ n => (0, n);
  plat_getaddrinfo := fun _ _ _ n => ((0, [example_addrinfo]), n);
  plat_socket := fun _ _ _ n => (3, n);
  plat_setsockopt := fun _ _ _ _ _ n => (0, n);
  plat_connect := fun _ _ _ n => (0, n);
  plat_send := fun _ data _ n => (Z.of_nat (length data), n);
  plat_recv := fun _ cap _ n => endless_recv cap n;
  plat_close := fun _ n => (0, n);
|}.

#[local] Instance endless_laws : PlatformLaws nat.
Proof.
  split.
  - intros sock cap flags n len data n' [= <- <- _]. right.
    rewrite length_take. lia.
  - now intros host port hints n res n' [= <-].
Qed.

Implicit Types (s : state nat).

(** One receive: the next chunk, cut to the room there is, is at the start
    of [response]; the state stays safe and one more [recv] is logged. *)
Lemma recv_endless sock s :
  safe s ->
  exists s1,
    recv sock 1023 0 s =
      (Val (Z.of_nat (length (take 1023 (chunk (st_world s))))), s1) /\
    safe s1 /\
    count_io is_recv (st_log s1) = (count_io is_recv (st_log s) + 1)%nat.
Proof.
  intros [Hw Hlen]. unfold recv.
  erewrite bind_val by (apply syscall_run; exact Hw). simpl fst. simpl snd.
  set (d := take 1023 (chunk (st_world s))).
  set (s0 := after_raised _).
  assert (Hq : quiet (logged (IoRecv sock 1023 0 (Z.of_nat (length d)) d)
                        (S (st_world s)) s) s0) by apply quiet_after_raised.
  assert (Hr0 : st_response s0 = st_response s) by apply Hq.
  destruct (buf_write_fits d (st_response s0)) as [buf' Hb].
  { rewrite Hr0, Hlen, length_response. subst d. rewrite length_take. lia. }
  unfold bind at 1, gets. unfold bind at 1. rewrite Hb. simpl.
  eexists. split; [reflexivity|]. split.
  - split; [now apply well_registered_after_raised|]. simpl.
    now rewrite (buf_write_length _ _ _ Hb), Hr0.
  - change (count_io is_recv (st_log s0) =
            (count_io is_recv (st_log s) + 1)%nat).
    rewrite (quiet_count_io is_recv _ _ (fun _ _ => eq_refl) Hq).
    apply count_io_snoc.
Qed.

(** Every unit of fuel is used for one more receive. *)
Lemma recv_loop_endless_run sock : forall fuel s,
  (forall n, chunk n <> []) -> safe s ->
  fst (recv_loop fuel sock s) = Halt OutOfFuel /\
  count_io is_recv (st_log (snd (recv_loop fuel sock s))) =
    (count_io is_recv (st_log s) + fuel)%nat /\
  safe (snd (recv_loop fuel sock s)).
Proof.
  induction fuel as [|fuel IH]; intros s Hc Hs.
  { split_and!; [reflexivity | simpl; lia | exact Hs]. }
  destruct (recv_endless sock s Hs) as (s1 & Hrecv & [Hw1 Hl1] & Hn1).
  set (d := take 1023 (chunk (st_world s))) in *.
  assert (Hd : (0 < length d <= 1023)%nat).
  { subst d. rewrite length_take. specialize (Hc (st_world s)).
    destruct (chunk (st_world s)); [done | cbn [length]; lia]. }
  destruct (buf_store_in_range (st_response s1) (Z.of_nat (length d)) NUL)
    as [buf' Hst].
  { rewrite Hl1, length_response. lia. }
  rewrite (recv_loop_chunk fuel sock s _ s1 buf' Hrecv ltac:(lia) Hst).
  set (s2 := set_log _ _).
  destruct (IH s2 Hc) as (Ho & Hn & Hsafe).
  { split; [exact Hw1|]. simpl. now rewrite (buf_store_length _ _ _ _ Hst). }
  split_and!; [exact Ho | | exact Hsafe].
  rewrite Hn. subst s2. simpl. rewrite count_io_snoc, Hn1. simpl. lia.
Qed.

(** C16: the receive loop has no bound.  Against a peer that always has
    another non-empty chunk to send, the loop never returns: whatever fuel
    it is given it is still looping when the fuel is used up, having made
    one [recv] for every unit of fuel. *)
Theorem recv_loop_never_ends_on_endless_stream fuel sock s :
  (forall n, chunk n <> []) -> safe s ->
  fst (recv_loop fuel sock s) = Halt OutOfFuel /\
  count_io is_recv (st_log (snd (recv_loop fuel sock s))) =
    (count_io is_recv (st_log s) + fuel)%nat.
Proof.
  intros Hc Hs.
  destruct (recv_loop_endless_run sock fuel s Hc Hs) as (Ho & Hn & _).
  now split.
Qed.

End Endless.

(** ** The theorem at a concrete input *)

Section Witnesses.
#[local] Existing Instance zephyr_event_codes.
#[local] Existing Instance zephyr_bus.

(** A peer that sends one more byte with every chunk. *)
Definition growing (n : nat) : list byte := replicate (S n) Byte.x2e.

Lemma recv_loop_never_ends_on_endless_stream_witness :
  let s := init_state 0%nat in
  fst (recv_loop (plat := endless_platform growing) 7 3 s) = Halt OutOfFuel /\
  count_io is_recv
    (st_log (snd (recv_loop (plat := endless_platform growing) 7 3 s))) =
    (count_io is_recv (st_log s) + 7)%nat.
Proof.
  apply (recv_loop_never_ends_on_endless_stream growing 7 3).
  - intros n. discriminate.
  - split; [constructor | reflexivity].
Defined.

End Witnesses.
