(* ===== verification/Main.v ===== *)
(** * [main] (http_get.c, lines 118-208)

    The phases in the order of the source, and the theorems about whole
    runs. *)

From Stdlib Require Import ZArith List Lia.
From Stdlib Require Import Strings.String.
From stdpp Require Import base tactics numbers list.
From S2P Require Import Prelude Monad Config Platform Script Readiness NetMgmt.
From S2P Require Import Syscalls ScriptRun Protocol ProtocolFacts ProtocolCheck.
From S2P Require Import Conform Wait.
From S2P Require Import Resolver.
From S2P Require Import Establisher Driver.

#[local] Open Scope Z_scope.
#[local] Open Scope prog_scope.

Section Main.
Context {W : Type} {plat : Platform W} {codes : NetEventCodes} {bus : EventBus}
  {consts : SocketConsts}.

(** Lines 139-207: the request, once the network is ready.  [tls] is
    [CONFIG_NET_SOCKETS_SOCKOPT_TLS]; [fuel_recv] bounds the receive
    loop. *)
Definition http_get (tls : bool) (fuel_recv : nat) : M (state W) unit :=
  tls_provision tls ;;
  res <- resolve tls ;;
  sock <- open_socket tls res ;;
  tls_configure tls sock ;;
  connect_to sock res ;;
  send_request sock ;;
  dump_response fuel_recv sock.

(** Lines 118-208.  [fuel_wait] bounds the wait loop. *)
Definition main (tls : bool) (fuel_wait fuel_recv : nat) : M (state W) unit :=
  setup_iface_events ;;
  st <- mdm_hl7800_reset ;;
  if bool_decide (st <> 0) then
    printk ("modem init err: %d" ++ LF) [AInt st] ;;
    halt Returned
  else
    wait_network_ready fuel_wait ;;
    http_get tls fuel_recv.

(** A whole run from the initial state: how it ended ([Val] when [main]
    ran to its last line) and the final state. *)
Definition run_main (tls : bool) (fuel_wait fuel_recv : nat) (w : W)
    : res unit * state W :=
  main tls fuel_wait fuel_recv (init_state w).

End Main.

(** ** Every run follows the protocol *)

Section MainConforms.
Context {W : Type} {plat : Platform W} {laws : PlatformLaws W}
  {codes : NetEventCodes} {bus : EventBus} {consts : SocketConsts}.
Variable tls : bool.
Implicit Types (s : state W).

(** The handlers in the order the bus holds them after the setup. *)
Definition all_subscribed : list fnptr :=
  [FN_iface_down_evt_handler; FN_iface_up_evt_handler;
   FN_iface_dns_added_evt_handler].

Lemma run_subscriptions : run tls (calls subscriptions) (Subscribing all_subscribed).
Proof.
  change (calls subscriptions) with
    ((([] ++ [IoAddCallback (Some FN_iface_dns_added_evt_handler)
                 (handler_event FN_iface_dns_added_evt_handler)])
      ++ [IoAddCallback (Some FN_iface_up_evt_handler)
            (handler_event FN_iface_up_evt_handler)])
     ++ [IoAddCallback (Some FN_iface_down_evt_handler)
           (handler_event FN_iface_down_evt_handler)]).
  repeat (econstructor; [|apply step_subscribe; by_compute]).
  constructor.
Qed.

Lemma setup_iface_events_conforms w :
  triple (fun s => s = init_state w) setup_iface_events
         (fun _ => at_phase tls [] (Subscribing []) (Subscribing all_subscribed)) (stops tls [] (Subscribing [])).
Proof.
  intros s ->. rewrite setup_iface_events_run.
  destruct (subscribe_all_state w) as (T & C & R & _ & M).
  repeat split.
  - unfold well_registered. rewrite T, C. repeat constructor.
  - now rewrite R.
  - rewrite <- calls_main_log, M. exists (calls subscriptions).
    split; [reflexivity | apply run_subscriptions].
Qed.

(** The phase after the modem reset returned [st]. *)
Definition modem_gate (st : Z) : phase :=
  if decide (st = 0) then Ready false else Stopped (ModemError st).

Lemma step_modem_gate st :
  step tls (Subscribing all_subscribed) (IoModemReset st) (modem_gate st).
Proof.
  assert (forall f, f ∈ all_subscribed) by (intros []; by_compute).
  unfold modem_gate. destruct (decide _) as [->|Hst].
  - now apply step_modem_ok.
  - now apply step_modem_error.
Qed.

(** The request, from the end of the wait to the close. *)
Lemma http_get_conforms l0 q0 fuel_recv :
  triple (at_phase tls l0 q0 (Ready false)) (http_get tls fuel_recv)
         (fun _ => at_phase tls l0 q0 (Stopped Finished)) (stops tls l0 q0).
Proof.
  unfold http_get.
  conforms_bind; [apply tls_provision_conforms|].
  conforms_bind; [apply resolve_conforms|].
  conforms_bind; [apply open_socket_conforms|].
  conforms_bind; [apply tls_configure_conforms|].
  conforms_bind; [apply connect_to_conforms|].
  conforms_bind; [apply send_request_conforms|].
  apply dump_response_conforms.
Qed.

(** From the initial state, [main] ends in a phase of the protocol in
    which it may end, with the log a run to that phase. *)
Lemma main_conforms fuel_wait fuel_recv w :
  triple (fun s => s = init_state w) (main tls fuel_wait fuel_recv)
         (fun _ => at_phase tls [] (Subscribing []) (Stopped Finished)) (stops tls [] (Subscribing [])).
Proof.
  unfold main. conforms_bind; [apply setup_iface_events_conforms|].
  conforms_bind.
  { apply (conforms_call _ _ _ _ _ _ modem_gate); [done | apply step_modem_gate]. }
  rename a0 into st. unfold modem_gate. case_bool_decide as Hst.
  - rewrite decide_False by exact Hst.
    conforms_bind; [apply conforms_printk | now apply conforms_return].
  - rewrite decide_True by (destruct (decide (st = 0)); tauto).
    conforms_bind; [apply wait_network_ready_conforms|].
    apply http_get_conforms.
Qed.

(** The phase a whole run ends in. *)
Lemma run_main_ends fuel_wait fuel_recv w :
  exists q,
    run tls (calls (st_log (snd (run_main tls fuel_wait fuel_recv w)))) q /\
    finishes (fst (run_main tls fuel_wait fuel_recv w)) q /\
    safe (snd (run_main tls fuel_wait fuel_recv w)).
Proof.
  unfold run_main.
  pose proof (main_conforms fuel_wait fuel_recv w _ eq_refl) as H.
  destruct (main _ _ _ _) as [[[]|o] s]; simpl.
  - destruct H as [Hs (k & -> & Ht)]. eauto.
  - destruct H as (q & [Hs (k & -> & Ht)] & He). eauto.
Qed.

End MainConforms.

(** ** A whole run against a script *)

Section MainScript.
Context {codes : NetEventCodes} {bus : EventBus} {consts : SocketConsts}.
Implicit Types (w : script) (l : list io).

(** Answers with which every step of the request succeeds: the resolver
    gives [a] and [rest], no socket call returns -1, and the peer sends
    [chunks], each as one [recv] returns it, and closes. *)
Definition good_answers (tls : bool) w (a : addrinfo) (rest : list addrinfo)
    (chunks : list (list byte)) : Prop :=
  sc_resolve w = ResolveOk a rest /\ sc_socket w <> -1 /\
  (tls -> sockopt_result w <> -1 /\ sockopt_result (sockopt_next w) <> -1) /\
  sc_connect w <> -1 /\ sc_send w <> -1 /\
  sc_recv w = RecvData <$> chunks /\ Forall fits chunks.

(** What [main] logs for the request with such answers. *)
Definition http_get_transcript (tls : bool) w (a : addrinfo)
    (rest : list addrinfo) (chunks : list (list byte)) : list io :=
  provision_transcript tls w ++ resolve_transcript tls a rest
  ++ socket_transcript tls a w ++ configure_transcript tls (sc_socket w) w
  ++ [IoConnect (sc_socket w) (ai_addr a) (ai_addrlen a) (sc_connect w)]
  ++ [IoSend (sc_socket w) (bytes_of REQUEST) 0 (sc_send w)]
  ++ response_transcript (sc_socket w) chunks (sc_close w).

(** What [main] logs in a whole run that waits [n] rounds. *)
Definition transcript (tls : bool) w (n : nat) (a : addrinfo)
    (rest : list addrinfo) (chunks : list (list byte)) : list io :=
  subscriptions ++ [IoModemReset 0]
  ++ concat (replicate n [waiting_line; IoSleep 5])
  ++ http_get_transcript tls w a rest chunks.

(** The script when the request is through. *)
Definition served (tls : bool) w : script :=
  set_sc_recv [] (configured_script tls w).

Lemma http_get_script tls fuel l w a rest chunks :
  good_answers tls w a rest chunks -> (length chunks < fuel)%nat ->
  triple (at_log l w) (http_get tls fuel)
         (fun _ => at_log (l ++ http_get_transcript tls w a rest chunks)
                          (served tls w)) never.
Proof.
  intros (Hres & Hsock & Hopt & Hconn & Hsend & Hrecv & Hfits) Hfuel.
  unfold http_get, http_get_transcript, served. rewrite !app_assoc.
  destruct tls.
  all: script_bind; [apply tls_provision_script|].
  all: script_bind; [now apply (resolve_script _ _ w a rest)|]; script_result.
  all: script_bind; [now apply open_socket_script|]; script_result.
  all: script_bind; [now apply tls_configure_script|].
  all: script_bind; [now apply connect_to_script|].
  all: script_bind; [now apply send_request_script|].
  all: cbn beta.
  all: match goal with
       | |- triple (at_log _ ?w') _ _ _ =>
         now apply (dump_response_script _ chunks _ _ w')
       end.
Qed.

(** C23: a credential that could not be installed does not stop the
    request.  In a TLS build, when [tls_credential_add] returns an error
    and every later call succeeds, the request still creates the socket,
    sets both TLS options, connects and runs to its end: the result of the
    installation is not looked at. *)
Theorem http_get_ignores_credential_failure fuel s r a rest chunks :
  safe s -> sc_credential (st_world s) = r -> r < 0 ->
  good_answers true (st_world s) a rest chunks ->
  (length chunks < fuel)%nat ->
  fst (http_get true fuel s) = Val tt /\
  exists k1 k2,
    main_log (st_log (snd (http_get true fuel s))) =
    main_log (st_log s) ++ [credential_call r] ++ k1 ++
    [IoConnect (sc_socket (st_world s)) (ai_addr a) (ai_addrlen a)
       (sc_connect (st_world s))] ++ k2.
Proof.
  intros [Hw Hl] Hc Hr Hgood Hfuel.
  pose proof (http_get_script true fuel (main_log (st_log s)) (st_world s)
                a rest chunks Hgood Hfuel s) as Hrun.
  destruct (http_get true fuel s) as [[[]|o] s'];
    [|destruct Hrun; now split_and!].
  destruct Hrun as (_ & _ & Hlog & _); [now split_and!|].
  split; [reflexivity|]. simpl. rewrite Hlog.
  unfold http_get_transcript, provision_transcript. rewrite Hc.
  exists (resolve_transcript true a rest ++ socket_transcript true a (st_world s)
          ++ configure_transcript true (sc_socket (st_world s)) (st_world s)),
    ([IoSend (sc_socket (st_world s)) (bytes_of REQUEST) 0 (sc_send (st_world s))]
     ++ response_transcript (sc_socket (st_world s)) chunks
          (sc_close (st_world s))).
  now rewrite <- !app_assoc.
Qed.

(** The state after the setup and a modem reset. *)
Definition started w : state script :=
  let s := subscribe_all (init_state w) in
  after_raised (logged (IoModemReset (sc_modem (st_world s))) (st_world s) s).

(** The four batches of events raised during the three registrations and
    the reset do not set the flag when they hold no DNS-server-added
    event. *)
Lemma warm_started w :
  Forall (fun evs => NET_EVENT_DNS_SERVER_ADD ∉ evs) (take 4 (sc_raised w)) ->
  warm 4 w (started w) /\ warm 3 w (subscribe_all (init_state w)).
Proof.
  intros Hq.
  assert (Hk : forall k, (k < 4)%nat ->
    NET_EVENT_DNS_SERVER_ADD ∉ default [] (sc_raised w !! k))
    by (intros k Hk;
        apply (Forall_take_lookup (fun evs => NET_EVENT_DNS_SERVER_ADD ∉ evs)
                 _ 4 k []); [exact Hq | apply not_elem_of_nil | exact Hk]).
  assert (H0 : warm 0 w (init_state w)) by now split_and!.
  assert (H3 : warm 3 w (subscribe_all (init_state w))).
  { repeat (eapply warm_after_raised; [|reflexivity..|apply Hk; lia]).
    exact H0. }
  split; [|exact H3].
  eapply warm_after_raised; [exact H3|reflexivity..|apply Hk; lia].
Qed.

Lemma started_script w :
  Forall (fun evs => NET_EVENT_DNS_SERVER_ADD ∉ evs) (take 4 (sc_raised w)) ->
  at_log (subscriptions ++ [IoModemReset (sc_modem w)]) w (started w) /\
  subscribed (started w) /\ st_ready (started w) = false /\
  sc_raised (st_world (started w)) = drop 4 (sc_raised w).
Proof.
  intros Hq. destruct (warm_started w Hq) as [(Hr & Hl & _) (_ & _ & Ha)].
  destruct (subscribe_all_state w) as (_ & _ & R & _ & M).
  split_and!; [|now apply subscribed_after_raised, subscribed_subscribe_all
               |exact Hr|exact Hl].
  unfold started.
  rewrite (answers_field sc_modem _ w (fun _ _ => eq_refl) Ha).
  apply (at_log_call _ _ w); [now apply call_not_handler_print | | exact Ha].
  split_and!; [apply well_registered_subscribe_all | now rewrite R | exact M
              | exact Ha].
Qed.

(** A run in which the modem comes up reaches the wait in that state. *)
Lemma main_started tls fuel_wait fuel_recv w :
  sc_modem w = 0 ->
  Forall (fun evs => NET_EVENT_DNS_SERVER_ADD ∉ evs) (take 4 (sc_raised w)) ->
  main tls fuel_wait fuel_recv (init_state w) =
  (wait_network_ready fuel_wait ;; http_get tls fuel_recv) (started w).
Proof.
  intros Hm Hq. destruct (warm_started w Hq) as [_ (_ & _ & Ha)].
  unfold main. erewrite bind_val by apply setup_iface_events_run.
  unfold mdm_hl7800_reset.
  erewrite bind_val by apply syscall_run, well_registered_subscribe_all.
  unfold started. cbn [plat_mdm_hl7800_reset script_platform fst snd].
  rewrite (answers_field sc_modem _ w (fun _ _ => eq_refl) Ha), Hm.
  now rewrite bool_decide_eq_false_2 by (intros H; now apply H).
Qed.

Lemma printed_body_transcript tls w n a rest chunks :
  printed_body (transcript tls w n a rest chunks) = concat (cstr <$> chunks).
Proof.
  unfold transcript, http_get_transcript.
  rewrite !printed_body_app, printed_body_waiting,
    printed_body_response_transcript.
  now destruct tls.
Qed.

(** C4: the end-to-end scenario.  Against a script in which the modem
    comes up, no DNS-server-added event is raised during the setup and the
    first sleeps, the batch raised during the next sleep holds one that no
    interface-down follows, and every step of the request succeeds, [main]
    given enough fuel runs to its last line: it sleeps once per batch up to
    that one, logs exactly the calls and the lines of [transcript], in that
    order, and prints of the response exactly the chunks the peer sent,
    each up to its first NUL. *)
Theorem main_end_to_end tls fuel_wait fuel_recv w silent b pre post later
    a rest chunks :
  sc_modem w = 0 ->
  Forall (fun evs => NET_EVENT_DNS_SERVER_ADD ∉ evs)
         (take 4 (sc_raised w) ++ silent) ->
  drop 4 (sc_raised w) = silent ++ b :: later ->
  b = pre ++ NET_EVENT_DNS_SERVER_ADD :: post -> NET_EVENT_IF_DOWN ∉ post ->
  good_answers tls w a rest chunks ->
  (length silent < fuel_wait)%nat -> (length chunks < fuel_recv)%nat ->
  exists s',
    run_main tls fuel_wait fuel_recv w = (Val tt, s') /\
    main_log (st_log s') = transcript tls w (S (length silent)) a rest chunks /\
    printed_body (st_log s') = concat (cstr <$> chunks).
Proof.
  intros Hm [Hq Hsilent]%Forall_app Hraised Hb Hpost Hgood Hfw Hfr.
  destruct (started_script w Hq) as (Hat & Hsub & Hready & Hdrop).
  destruct (wait_network_ready_script silent b pre post later fuel_wait
              (started w)) as [Hwait _];
    [apply Hat | exact Hsub | exact Hready | congruence | assumption..|].
  pose proof (http_get_script tls fuel_recv _ w a rest chunks Hgood Hfr _
                (at_log_rounds (S (length silent)) _ _ _ Hat)) as Hrun.
  unfold run_main. rewrite main_started by assumption.
  erewrite bind_val by exact Hwait.
  destruct (http_get tls fuel_recv _) as [[[]|o] s']; [|destruct Hrun].
  destruct Hrun as (_ & _ & Hl & _).
  assert (Hlog : main_log (st_log s') =
                 transcript tls w (S (length silent)) a rest chunks)
    by (rewrite Hl, Hm; unfold transcript; now rewrite <- !app_assoc).
  exists s'. split_and!; [reflexivity | exact Hlog |].
  now rewrite <- printed_body_main_log, Hlog, printed_body_transcript.
Qed.

End MainScript.

(** ** Theorems about every run *)

Section MainTheorems.
Context {W : Type} {plat : Platform W} {laws : PlatformLaws W}
  {codes : NetEventCodes} {bus : EventBus} {consts : SocketConsts}.
Variables (tls : bool) (fuel_wait fuel_recv : nat) (w : W).

#[local] Abbreviation result := (fst (run_main tls fuel_wait fuel_recv w)).
#[local] Abbreviation final := (snd (run_main tls fuel_wait fuel_recv w)).

(** C3: [main] refines the protocol.  On every platform that keeps the
    two promises of [PlatformLaws], whatever the build, the events and the
    answers, and however much fuel the loops are given, the calls that a
    run of [main] has logged are a run of the protocol, and the run is
    over in a phase that fits how it ended: [Finished] when [main] ran to
    its last line, a failure when it returned early or exited, a loop when
    the fuel ran out. *)
Theorem main_follows_protocol :
  exists q, run tls (calls (st_log final)) q /\ finishes result q.
Proof.
  destruct (run_main_ends tls fuel_wait fuel_recv w) as (q & Hrun & Hfin & _).
  eauto.
Qed.

(** C17: [main] is memory safe.  On every lawful platform no run
    dereferences a null pointer or accesses an array outside its bounds:
    [getaddrinfo]'s result is only used after success, the callback table
    is read up to its terminator, and [recv] is given one byte less than
    [response] holds, so the terminator stored behind what was received is
    inside the array.  The array keeps its size. *)
Theorem main_never_faults (f : fault) :
  result <> Halt (Faulted f) /\ length (st_response final) = 1024%nat.
Proof.
  destruct (run_main_ends tls fuel_wait fuel_recv w) as (q & _ & Hfin & _ & Hr).
  split; [|exact Hr]. destruct result as [a|o]; [done|].
  intros [= ->]. exact (ends_not_faulted _ _ f Hfin eq_refl).
Qed.

(** C18: the socket is closed exactly when [main] runs to its end, and
    then once; [socket] is called at most once.  So a run that fails after
    the socket was created ([CHECK] exits, [recv] reports an error) leaves
    it open. *)
Theorem main_closes_iff_finished :
  count_io is_close (st_log final) =
    match result with Val _ => 1%nat | Halt _ => 0%nat end /\
  (count_io is_socket (st_log final) <= 1)%nat.
Proof.
  destruct (run_main_ends tls fuel_wait fuel_recv w) as (q & Hrun & Hfin & _).
  rewrite <- (count_io_calls is_close), <- (count_io_calls is_socket)
    by (now intros []).
  rewrite (run_closed tls _ q Hrun), (run_opened tls _ q Hrun). split.
  - destruct result as [a|o]; simpl in Hfin; [now subst|].
    apply ends_not_finished in Hfin. now destruct q as [| | | | | | | | |[]].
  - destruct q as [| | | | | | | | |[]]; simpl; lia.
Qed.

(** C20: a receive that returns zero ends the stream: the close of the
    same socket follows it, and no other call. *)
Theorem main_stops_at_end_of_stream k1 sock cap flags data k2 :
  calls (st_log final) = k1 ++ IoRecv sock cap flags 0 data :: k2 ->
  exists r, k2 = [IoClose sock r].
Proof.
  intros Hk.
  destruct (run_main_ends tls fuel_wait fuel_recv w) as (q & Hrun & Hfin & _).
  rewrite Hk in Hrun.
  destruct (trace_end_of_stream tls _ _ _ _ _ _ _ _ Hrun) as [->|Hc]; [|exact Hc].
  exfalso. apply trace_snoc_inv in Hrun as (q1 & _ & Hs).
  step_inv Hs; try lia.
  - destruct data; [congruence | discriminate].
  - destruct result; simpl in Hfin; [discriminate|].
    destruct Hfin as [[_ [?|[? ?]]]|(? & ? & _)]; discriminate.
Qed.

(** C19: a connect is only made after the establishment.  The call before
    it opened the socket it connects, for the first address of the
    successful resolution, to which it connects; in a build with TLS the
    credential was installed before the resolution and both TLS options
    were set on that socket with success in between. *)
Theorem main_connects_after_establishment l1 sock addr len r l2 :
  calls (st_log final) = l1 ++ IoConnect sock addr len r :: l2 ->
  exists l' h a rest r1 r2,
    l1 = l' ++ establishment tls h a rest sock r1 r2 /\
    addr = ai_addr a /\ len = ai_addrlen a /\ sock <> -1 /\
    (tls -> r1 <> -1 /\ r2 <> -1 /\
       exists l'' r0, l' = l'' ++ [credential_call r0]).
Proof.
  intros Hk.
  destruct (run_main_ends tls fuel_wait fuel_recv w) as (q & Hrun & _).
  rewrite Hk in Hrun.
  apply run_before_connect in Hrun
    as (l' & h & a & rest & r1 & r2 & ? & ? & ? & ? & _ & ?).
  eauto 12.
Qed.

(** C21: what a run prints of the response is what it received: each
    chunk, in order, up to the first NUL byte of the chunk. *)
Theorem main_prints_received_chunks :
  printed_body (st_log final) = concat (cstr <$> received_chunks (st_log final)).
Proof.
  destruct (run_main_ends tls fuel_wait fuel_recv w) as (q & Hrun & Hfin & _).
  rewrite <- printed_body_calls, <- received_chunks_calls.
  rewrite <- (trace_printed tls (Subscribing []) _ q eq_refl Hrun).
  replace (pending q) with (@nil byte); [now rewrite app_nil_r|].
  destruct q; try reflexivity. exfalso.
  destruct result; simpl in Hfin; [discriminate|].
  destruct Hfin as [[_ [?|[? ?]]]|(? & ? & _)]; discriminate.
Qed.

(** C13: the request on the wire.  In every run a [send] carries exactly
    the 40 bytes of "GET / HTTP/1.0", CR LF, "Host: www.google.com", CR LF,
    CR LF, with no flags and without the NUL that ends the literal; it is
    made on the socket whose connect succeeded, as the call right after
    that connect, and no run sends twice. *)
Theorem main_sends_the_request l1 sock data flags r l2 :
  calls (st_log final) = l1 ++ IoSend sock data flags r :: l2 ->
  data = (bytes_of "GET / HTTP/1.0" ++ bytes_of CRLF ++
          bytes_of "Host: www.google.com" ++ bytes_of CRLF ++ bytes_of CRLF)
  /\ length data = 40%nat /\ (NUL ∉ data) /\ flags = 0 /\
  (exists l' a r',
     l1 = l' ++ [IoConnect sock (ai_addr a) (ai_addrlen a) r'] /\ r' <> -1) /\
  count_io is_send (st_log final) = 1%nat.
Proof.
  intros Hk.
  destruct (run_main_ends tls fuel_wait fuel_recv w) as (q & Hrun & _).
  pose proof (run_requested tls _ _ Hrun) as Hn.
  rewrite count_io_calls in Hn by (now intros []).
  rewrite Hk in Hrun. apply run_send in Hrun as (-> & -> & Hconn).
  destruct REQUEST_bytes as (Hb & Hlen & Hnul).
  split_and!; try assumption; try reflexivity.
  assert (Hq : (requested q <= 1)%nat)
    by (destruct q as [| | | | | | | | [] | []]; simpl; lia).
  assert (Hs : (1 <= count_io is_send (calls (st_log final)))%nat)
    by (rewrite Hk, (cons_middle _ l1 l2), app_assoc, count_io_app,
          count_io_snoc; simpl; lia).
  rewrite count_io_calls in Hs by (now intros []). lia.
Qed.

(** C6: the request starts only when the network is ready.  A run of
    [main], on every platform, is the registration, the modem reset and the
    wait, followed by the request of lines 139-207 from a state in which
    the flag is set; the log of that state shows it, a "DNS ready" line
    with no "Interface is down" line after it, and before it [main] has
    slept once for every poll that found the flag clear.  Otherwise the run
    is over before the request: the modem did not come up and [main]
    returned, or the flag is still clear when the fuel of the wait is used
    up. *)
Theorem main_requests_only_when_ready :
  (exists n s1,
     (n <= fuel_wait)%nat /\ st_ready s1 = true /\
     dns_ready_logged (st_log s1) /\
     main_log (st_log s1) =
       subscriptions ++ [IoModemReset 0]
       ++ concat (replicate n [waiting_line; IoSleep 5]) /\
     run_main tls fuel_wait fuel_recv w = http_get tls fuel_recv s1) \/
  (exists st, st <> 0 /\ result = Halt Returned /\
     main_log (st_log final) =
       subscriptions
       ++ [IoModemReset st; IoPrintk ("modem init err: %d" ++ LF) [AInt st]]) \/
  (result = Halt OutOfFuel /\ st_ready final = false /\
   main_log (st_log final) =
     subscriptions ++ [IoModemReset 0]
     ++ concat (replicate fuel_wait [waiting_line; IoSleep 5])).
Proof.
  unfold run_main, main. erewrite bind_val by apply setup_iface_events_run.
  set (s0 := subscribe_all (init_state w)).
  assert (Hw0 : well_registered s0) by apply well_registered_subscribe_all.
  destruct (subscribe_all_state w) as (_ & _ & _ & _ & Hl0). fold s0 in Hl0.
  unfold mdm_hl7800_reset. erewrite bind_val by (apply syscall_run; exact Hw0).
  set (st := fst (plat_mdm_hl7800_reset (st_world s0))).
  set (sm := after_raised _).
  assert (Hwm : well_registered sm) by now apply well_registered_after_raised.
  assert (Hlm : main_log (st_log sm) = subscriptions ++ [IoModemReset st]).
  { unfold sm. rewrite (quiet_main_log _ _ (quiet_after_raised _)).
    simpl. rewrite main_log_snoc, Hl0; [reflexivity|].
    now intros (g & E)%handler_prints_printk. }
  assert (Hfm : flag_logged sm).
  { apply flag_logged_after_raised.
    apply (flag_logged_emit (IoModemReset st) (set_world _ s0)); [reflexivity|].
    apply flag_logged_subscribe_all. }
  destruct (decide (st <> 0)) as [Hst|Hst].
  { right. left. exists st. rewrite bool_decide_eq_true_2 by exact Hst.
    split_and!; [exact Hst | reflexivity |]. simpl.
    rewrite main_log_snoc, Hlm, <- app_assoc; [reflexivity|].
    intros (g & E)%handler_prints_printk. destruct g; discriminate. }
  rewrite bool_decide_eq_false_2 by exact Hst.
  assert (E : st = 0) by (destruct (decide (st = 0)); tauto). rewrite E in Hlm.
  destruct (wait_network_ready_cases fuel_wait sm Hwm)
    as [(n & Hn & Hset & Hrun)|[Hclear Hrun]].
  - left. exists n, (rounds n sm). erewrite bind_val by exact Hrun.
    split_and!; try done.
    + apply flag_logged_ready; [now apply flag_logged_rounds | exact Hset].
    + now rewrite main_log_rounds, Hlm, <- app_assoc.
  - right. right. erewrite bind_stop by exact Hrun. simpl.
    split_and!; try done. now rewrite main_log_rounds, Hlm, <- app_assoc.
Qed.

(** C27: a modem that does not come up ends the run before any
    networking: [main] returns, and the log holds no resolution and no
    socket call. *)
Theorem main_modem_error_is_final st :
  IoModemReset st ∈ st_log final -> st <> 0 ->
  result = Halt Returned /\
  count_io is_getaddrinfo (st_log final) = 0%nat /\
  count_io is_socket (st_log final) = 0%nat.
Proof.
  intros He Hst.
  destruct (run_main_ends tls fuel_wait fuel_recv w) as (q & Hrun & Hfin & _).
  rewrite <- (count_io_calls is_getaddrinfo), <- (count_io_calls is_socket)
    by (now intros []).
  rewrite (run_looked_up tls _ q Hrun), (run_opened tls _ q Hrun).
  assert (q = Stopped (ModemError st)) as ->
    by (eapply run_modem_error; [exact Hrun | now apply elem_of_calls | exact Hst]).
  split_and!; [|reflexivity..]. now apply finishes_stopped in Hfin.
Qed.

(** C28: a resolution that reports an error ends the run before a socket
    is created: [main] returns, whatever the status was. *)
Theorem main_resolve_error_is_final host port h st res :
  IoGetaddrinfo host port h st res ∈ st_log final -> st <> 0 ->
  result = Halt Returned /\ count_io is_socket (st_log final) = 0%nat.
Proof.
  intros He Hst.
  destruct (run_main_ends tls fuel_wait fuel_recv w) as (q & Hrun & Hfin & _).
  rewrite <- (count_io_calls is_socket) by (now intros []).
  rewrite (run_opened tls _ q Hrun).
  assert (q = Stopped (ResolveError st)) as ->
    by (eapply run_resolve_error;
        [exact Hrun | apply elem_of_calls; [reflexivity | exact He] | exact Hst]).
  split; [|reflexivity]. now apply finishes_stopped in Hfin.
Qed.

End MainTheorems.

(** C29: a build without TLS never installs a credential and never sets a
    socket option. *)
Theorem main_without_tls_makes_no_tls_call
    {W : Type} {plat : Platform W} {laws : PlatformLaws W}
    {codes : NetEventCodes} {bus : EventBus} {consts : SocketConsts}
    (fuel_wait fuel_recv : nat) (w : W) :
  Forall (fun e => is_tls_io e = false)
         (st_log (snd (run_main false fuel_wait fuel_recv w))).
Proof.
  destruct (run_main_ends false fuel_wait fuel_recv w) as (q & Hrun & _).
  apply Forall_calls; [now intros [] |].
  eapply trace_no_tls; [|exact Hrun]. now intros [].
Qed.

(** ** The theorems at concrete inputs *)

Section Witnesses.
#[local] Existing Instance zephyr_event_codes.
#[local] Existing Instance zephyr_bus.
#[local] Existing Instance zephyr_socket_consts.

(** The network is ready during the first sleep; the server answers in two
    chunks and closes. *)
Definition demo : script :=
  happy_script [[]; []; []; []; [NET_EVENT_DNS_SERVER_ADD]] example_addrinfo
    [bytes_of "abc"; bytes_of "de"].

(** The same, with a response of 2000 bytes that arrives at once, and a
    second receive that fails. *)
Definition demo_reset : script :=
  set_sc_recv [RecvData (replicate 2000 Byte.x41); RecvErr 104] demo.

(** The modem does not come up. *)
Definition demo_modem_down : script :=
  {| sc_raised := []; sc_modem := -5; sc_credential := 0;
     sc_resolve := ResolveOk example_addrinfo []; sc_socket := 3;
     sc_setsockopt := []; sc_connect := 0; sc_send := 40; sc_recv := [];
     sc_close := 0 |}.

(** The name does not resolve. *)
Definition demo_unresolved : script :=
  {| sc_raised := [[]; []; []; [NET_EVENT_DNS_SERVER_ADD]]; sc_modem := 0;
     sc_credential := 0; sc_resolve := ResolveErr (-2); sc_socket := 3;
     sc_setsockopt := []; sc_connect := 0; sc_send := 40; sc_recv := [];
     sc_close := 0 |}.

(** The end-to-end scenario: one silent round, then the event. *)
Definition demo_late : script :=
  happy_script [[]; []; []; [NET_EVENT_IF_UP]; []; [NET_EVENT_DNS_SERVER_ADD]]
    example_addrinfo [bytes_of "HTTP/1.0 200 OK"; bytes_of "hello"].

Lemma main_end_to_end_witness :
  exists s',
    run_main true 3 3 demo_late = (Val tt, s') /\
    main_log (st_log s') =
      transcript true demo_late 2 example_addrinfo []
        [bytes_of "HTTP/1.0 200 OK"; bytes_of "hello"] /\
    printed_body (st_log s') =
      concat (cstr <$> [bytes_of "HTTP/1.0 200 OK"; bytes_of "hello"]).
Proof.
  apply (main_end_to_end true 3 3 demo_late [[]] [NET_EVENT_DNS_SERVER_ADD]
           [] [] []); try by_compute; try reflexivity.
  repeat split; try by_compute; try reflexivity; try discriminate.
Defined.

(** The certificate store is full. *)
Definition demo_no_credential : script :=
  {| sc_raised := []; sc_modem := 0; sc_credential := -12;
     sc_resolve := ResolveOk example_addrinfo []; sc_socket := 3;
     sc_setsockopt := []; sc_connect := 0; sc_send := 40;
     sc_recv := [RecvData (bytes_of "ok")]; sc_close := 0 |}.

Lemma http_get_ignores_credential_failure_witness :
  let s := init_state demo_no_credential in
  fst (http_get true 3 s) = Val tt /\
  exists k1 k2,
    main_log (st_log (snd (http_get true 3 s))) =
    main_log (st_log s) ++ [credential_call (-12)] ++ k1 ++
    [IoConnect 3 (ai_addr example_addrinfo) (ai_addrlen example_addrinfo) 0]
    ++ k2.
Proof.
  apply (http_get_ignores_credential_failure 3
           (init_state demo_no_credential) (-12) example_addrinfo []
           [bytes_of "ok"]); try reflexivity; try lia.
  - split; [constructor | reflexivity].
  - split_and!; try reflexivity; try discriminate.
    + intros _. split; discriminate.
    + constructor; [split; [discriminate | simpl; lia] | constructor].
  - simpl. lia.
Defined.

Lemma main_follows_protocol_witness :
  exists q,
    run true (calls (st_log (snd (run_main true 5 5 demo)))) q /\
    finishes (fst (run_main true 5 5 demo)) q.
Proof. exact (main_follows_protocol true 5 5 demo). Defined.

(** The checker run on three recorded logs: a run to the end, one whose
    second receive fails, and one whose modem stays down. *)
Example checker_on_recorded_runs :
  accepts true (calls (st_log (snd (run_main true 5 5 demo)))) =
    Some (Stopped Finished) /\
  accepts false (calls (st_log (snd (run_main false 5 5 demo_reset)))) =
    Some (Stopped (RecvError (-104))) /\
  accepts true (calls (st_log (snd (run_main true 5 5 demo_modem_down)))) =
    Some (Stopped (ModemError (-5))).
Proof. repeat split; vm_compute; reflexivity. Qed.

Lemma main_never_faults_witness :
  fst (run_main false 5 5 demo_reset) <> Halt (Faulted OutOfBounds) /\
  length (st_response (snd (run_main false 5 5 demo_reset))) = 1024%nat.
Proof. exact (main_never_faults false 5 5 demo_reset OutOfBounds). Defined.

Lemma main_closes_iff_finished_witness :
  count_io is_close (st_log (snd (run_main false 5 5 demo_reset))) =
    match fst (run_main false 5 5 demo_reset) with
    | Val _ => 1%nat
    | Halt _ => 0%nat
    end /\
  (count_io is_socket (st_log (snd (run_main false 5 5 demo_reset))) <= 1)%nat.
Proof. exact (main_closes_iff_finished false 5 5 demo_reset). Defined.

Lemma main_stops_at_end_of_stream_witness :
  exists r, [IoClose 3 0] = [IoClose 3 r].
Proof.
  apply (main_stops_at_end_of_stream false 5 5 demo
           (take 13 (calls (st_log (snd (run_main false 5 5 demo)))))
           3 1023%nat 0 []).
  vm_compute. reflexivity.
Defined.

Lemma main_connects_after_establishment_witness :
  exists l' h a rest r1 r2,
    take 10 (calls (st_log (snd (run_main true 5 5 demo)))) =
      l' ++ establishment true h a rest 3 r1 r2 /\
    ai_addr example_addrinfo = ai_addr a /\ 8 = ai_addrlen a /\ 3 <> -1 /\
    (true -> r1 <> -1 /\ r2 <> -1 /\
       exists l'' r0, l' = l'' ++ [credential_call r0]).
Proof.
  apply (main_connects_after_establishment true 5 5 demo _ 3 _ 8 0
           (drop 11 (calls (st_log (snd (run_main true 5 5 demo)))))).
  vm_compute. reflexivity.
Defined.

Lemma main_sends_the_request_witness :
  bytes_of REQUEST =
    (bytes_of "GET / HTTP/1.0" ++ bytes_of CRLF ++
     bytes_of "Host: www.google.com" ++ bytes_of CRLF ++ bytes_of CRLF)
  /\ length (bytes_of REQUEST) = 40%nat /\ (NUL ∉ bytes_of REQUEST) /\ 0 = 0 /\
  (exists l' a r',
     take 11 (calls (st_log (snd (run_main true 5 5 demo)))) =
       l' ++ [IoConnect 3 (ai_addr a) (ai_addrlen a) r'] /\ r' <> -1) /\
  count_io is_send (st_log (snd (run_main true 5 5 demo))) = 1%nat.
Proof.
  apply (main_sends_the_request true 5 5 demo _ 3 _ 0 40
           (drop 12 (calls (st_log (snd (run_main true 5 5 demo)))))).
  vm_compute. reflexivity.
Defined.

Lemma main_prints_received_chunks_witness :
  printed_body (st_log (snd (run_main false 5 5 demo_reset))) =
  concat (cstr <$> received_chunks (st_log (snd (run_main false 5 5 demo_reset)))).
Proof. exact (main_prints_received_chunks false 5 5 demo_reset). Defined.

Lemma main_modem_error_is_final_witness :
  fst (run_main true 5 5 demo_modem_down) = Halt Returned /\
  count_io is_getaddrinfo (st_log (snd (run_main true 5 5 demo_modem_down))) = 0%nat /\
  count_io is_socket (st_log (snd (run_main true 5 5 demo_modem_down))) = 0%nat.
Proof.
  apply (main_modem_error_is_final true 5 5 demo_modem_down (-5));
    [by_compute | lia].
Defined.

Lemma main_resolve_error_is_final_witness :
  fst (run_main false 5 5 demo_unresolved) = Halt Returned /\
  count_io is_socket (st_log (snd (run_main false 5 5 demo_unresolved))) = 0%nat.
Proof.
  apply (main_resolve_error_is_final false 5 5 demo_unresolved
           HTTP_HOST (HTTP_PORT false) hints (-2) []); [by_compute | lia].
Defined.

Lemma main_without_tls_makes_no_tls_call_witness :
  Forall (fun e => is_tls_io e = false)
         (st_log (snd (run_main false 5 5 demo))).
Proof. exact (main_without_tls_makes_no_tls_call 5 5 demo). Defined.

End Witnesses.
