(* ===== verification/Isolation.v ===== *)
(** * The request is isolated from the callbacks

    The handlers run in the context of the network stack and share one
    object with [main], the flag, which [main] reads in the condition of
    the wait loop and nowhere else.  This file states that as a relational
    property: two states that agree on what [main] itself owns (the world,
    the buffer, [main]'s own lines of the log) and differ in the flag, in
    the callbacks that are registered and in what the handlers have printed
    are taken by every step of the request to two such states, with the
    same result. *)

From Stdlib Require Import ZArith List Lia Morphisms.
From Stdlib Require Import Strings.String.
From stdpp Require Import base tactics numbers list.
From S2P Require Import Prelude Monad Config Platform Script Readiness NetMgmt.
From S2P Require Import Syscalls Wait Resolver Establisher Driver Main.

#[local] Open Scope Z_scope.
#[local] Open Scope prog_scope.

Section Isolation.
Context {W : Type} {plat : Platform W} {codes : NetEventCodes} {bus : EventBus}
  {consts : SocketConsts}.
Implicit Types (s : state W).

(** The states agree on all that [main] owns.  It is a partial
    equivalence: a state is related to itself when its callbacks are well
    registered. *)
Definition same_main s s' : Prop :=
  well_registered s /\ well_registered s' /\
  st_world s = st_world s' /\ st_response s = st_response s' /\
  main_log (st_log s) = main_log (st_log s').

#[export] Instance same_main_symmetric : Symmetric same_main.
Proof. intros s s' (? & ? & ? & ? & ?). now split_and!. Qed.

#[export] Instance same_main_transitive : Transitive same_main.
Proof.
  intros s1 s2 s3 (? & ? & ? & ? & ?) (? & ? & ? & ? & ?).
  split_and!; try assumption; etransitivity; eassumption.
Qed.

#[export] Instance same_main_per : RelationClasses.PER same_main := {}.

Lemma same_main_refl s : well_registered s -> same_main s s.
Proof. intros H. now split_and!. Qed.

(** The same result in states that agree on what [main] owns. *)
Definition same_result {A} : relation (res A * state W) :=
  prod_relation eq same_main.

(** [m] neither reads nor writes what the callbacks own. *)
Definition isolated {A} (m : M (state W) A) : Prop :=
  Proper (same_main ==> same_result) m.

(** ** The state functions *)

Lemma same_main_logged e w s s' :
  same_main s s' -> same_main (logged e w s) (logged e w s').
Proof.
  intros (? & ? & ? & ? & Hl). split_and!; try assumption; [reflexivity|].
  change (main_log (st_log s ++ [e]) = main_log (st_log s' ++ [e])).
  now rewrite !main_log_app, Hl.
Qed.

Lemma same_main_after_raised s s' :
  same_main s s' -> same_main (after_raised s) (after_raised s').
Proof.
  intros (? & ? & Hw & Hr & Hl).
  pose proof (quiet_after_raised s) as Hq.
  pose proof (quiet_after_raised s') as Hq'.
  split_and!; try now apply well_registered_after_raised.
  - now rewrite !st_world_after_raised, Hw.
  - destruct Hq as [-> _], Hq' as [-> _]. exact Hr.
  - now rewrite (quiet_main_log _ _ Hq), (quiet_main_log _ _ Hq').
Qed.

Lemma same_main_set_response buf s s' :
  same_main s s' -> same_main (set_response buf s) (set_response buf s').
Proof. intros (? & ? & ? & ? & ?). now split_and!. Qed.

(** ** The combinators *)

Lemma isolated_ret {A} (a : A) : isolated (ret a).
Proof. intros s s' H. now split. Qed.

Lemma isolated_halt {A} (o : outcome) : isolated (halt (A := A) o).
Proof. intros s s' H. now split. Qed.

Lemma isolated_bind {A B} (m : M (state W) A) (k : A -> M (state W) B) :
  isolated m -> (forall a, isolated (k a)) -> isolated (bind m k).
Proof.
  intros Hm Hk s s' H. unfold bind. destruct (Hm s s' H) as [E1 E2].
  destruct (m s) as [[a|o] s1], (m s') as [[a'|o'] s1']; simpl in *;
    simplify_eq; [now apply Hk | now split].
Qed.

Lemma isolated_check {A} (f : fault) (o : option A) : isolated (check f o).
Proof. destruct o; [apply isolated_ret | apply isolated_halt]. Qed.

Lemma isolated_emit e : isolated (emit e).
Proof.
  intros s s' (? & ? & ? & ? & Hl). split; [reflexivity|].
  split_and!; try assumption.
  change (main_log (st_log s ++ [e]) = main_log (st_log s' ++ [e])).
  now rewrite !main_log_app, Hl.
Qed.

Lemma isolated_exit {A} code : isolated (exit (A := A) code).
Proof.
  apply isolated_bind; [apply isolated_emit | intros _; apply isolated_halt].
Qed.

Lemma isolated_gets_response : isolated (gets st_response).
Proof. intros s s' H. split; [|exact H]. simpl. f_equal. apply H. Qed.

Lemma isolated_set_response buf : isolated (modify (set_response buf)).
Proof. intros s s' H. split; [reflexivity|]. now apply same_main_set_response. Qed.

(** A call of the platform: the world answers the same, and whatever the
    handlers then do stays on their side. *)
Lemma isolated_syscall {A} (f : W -> A * W) (entry : A -> io) :
  isolated (syscall f entry).
Proof.
  intros s s' H. destruct H as (Hs & Hs' & Hw & Hr & Hl).
  rewrite !syscall_run by assumption. rewrite <- Hw. split; [reflexivity|].
  apply same_main_after_raised, same_main_logged. now split_and!.
Qed.

End Isolation.

#[export] Hint Resolve isolated_ret isolated_halt isolated_check isolated_emit
  isolated_exit isolated_gets_response isolated_set_response isolated_syscall
  : httpget.

(** One step of a proof that a program is isolated: through a bind or a
    conditional, or a basic operation. *)
Ltac isolated_step :=
  first
    [ solve [unfold printf, printk; auto with httpget]
    | match goal with
      | |- isolated (if ?b then _ else _) => destruct b
      end
    | apply isolated_bind; [|intros ?] ].

(** ** The request *)

Section Request.
Context {W : Type} {plat : Platform W} {codes : NetEventCodes} {bus : EventBus}
  {consts : SocketConsts}.
Implicit Types (s : state W).

Lemma isolated_CHECK expr r : isolated (W := W) (CHECK expr r).
Proof. unfold CHECK. repeat isolated_step. Qed.

Lemma isolated_recv sock cap flags : isolated (W := W) (recv sock cap flags).
Proof. unfold recv. repeat isolated_step. Qed.

Lemma isolated_resolve tls : isolated (W := W) (resolve tls).
Proof. unfold resolve, dump_addrinfo, getaddrinfo. repeat isolated_step. Qed.

Lemma isolated_tls_provision tls : isolated (W := W) (tls_provision tls).
Proof. unfold tls_provision, tls_credential_add. repeat isolated_step. Qed.

Lemma isolated_open_socket tls a : isolated (W := W) (open_socket tls a).
Proof.
  unfold open_socket, socket.
  repeat first [apply isolated_CHECK | isolated_step].
Qed.

Lemma isolated_tls_configure tls sock : isolated (W := W) (tls_configure tls sock).
Proof.
  unfold tls_configure, setsockopt.
  repeat first [apply isolated_CHECK | isolated_step].
Qed.

Lemma isolated_connect_to sock a : isolated (W := W) (connect_to sock a).
Proof.
  unfold connect_to, connect. repeat first [apply isolated_CHECK | isolated_step].
Qed.

Lemma isolated_send_request sock : isolated (W := W) (send_request sock).
Proof.
  unfold send_request, send. repeat first [apply isolated_CHECK | isolated_step].
Qed.

Lemma isolated_recv_loop fuel sock : isolated (W := W) (recv_loop fuel sock).
Proof.
  induction fuel as [|fuel IH]; cbn [recv_loop]; [apply isolated_halt|].
  repeat first [apply isolated_recv | exact IH | isolated_step].
Qed.

Lemma isolated_dump_response fuel sock :
  isolated (W := W) (dump_response fuel sock).
Proof.
  unfold dump_response, close.
  repeat first [apply isolated_recv_loop | isolated_step].
Qed.

Lemma isolated_http_get tls fuel : isolated (W := W) (http_get tls fuel).
Proof.
  unfold http_get.
  repeat first
    [ apply isolated_tls_provision | apply isolated_resolve
    | apply isolated_open_socket | apply isolated_tls_configure
    | apply isolated_connect_to | apply isolated_send_request
    | apply isolated_dump_response | isolated_step ].
Qed.

(** C15: the request does not depend on the callbacks.  Take two states
    that agree on the world, on [response] and on the lines [main] itself
    has logged, and that may differ in the flag, in the callbacks that are
    registered and in what the handlers have printed.  From both, the
    request of lines 139-207 makes the same calls with the same results,
    prints the same, leaves the same buffer and ends the same way: the
    flag is the only thing the handlers tell [main], and the request never
    reads it. *)
Theorem http_get_ignores_callbacks tls fuel s s' :
  same_main s s' ->
  fst (http_get tls fuel s) = fst (http_get tls fuel s') /\
  same_main (snd (http_get tls fuel s)) (snd (http_get tls fuel s')).
Proof. intros H. exact (isolated_http_get tls fuel s s' H). Qed.

End Request.

(** ** The theorems at concrete inputs *)

Section Witnesses.
#[local] Existing Instance zephyr_event_codes.
#[local] Existing Instance zephyr_bus.
#[local] Existing Instance zephyr_socket_consts.

(** The state before anything ran, and the same with the flag set by a
    handler that has printed its line. *)
Definition flag_set : state script :=
  set_ready true
    (set_log [IoPrintk (handler_message FN_iface_dns_added_evt_handler) []]
       (init_state demo)).

Lemma http_get_ignores_callbacks_witness :
  fst (http_get true 5 (init_state demo)) = fst (http_get true 5 flag_set) /\
  same_main (snd (http_get true 5 (init_state demo)))
            (snd (http_get true 5 flag_set)).
Proof.
  apply (http_get_ignores_callbacks true 5 (init_state demo) flag_set).
  split_and!; try reflexivity; constructor.
Defined.

End Witnesses.
