(* ===== verification/Diagnostics.v ===== *)
(** * Every failure is reported

    When [main] gives up it says why: the last lines it has logged are the
    call that failed, with the result that made it fail, and the
    diagnostic; a failed [CHECK] names the expression that was checked and
    is followed by [exit(1)].  This holds on every platform, lawful or
    not. *)

From Stdlib Require Import ZArith List Lia.
From Stdlib Require Import Strings.String.
From stdpp Require Import base tactics numbers list.
From S2P Require Import Prelude Monad Config Platform Readiness NetMgmt.
From S2P Require Import Syscalls Protocol Conform Wait Resolver Establisher.
From S2P Require Import Driver Main.

#[local] Open Scope Z_scope.
#[local] Open Scope prog_scope.

Section Diagnostics.
Context {W : Type} {plat : Platform W} {codes : NetEventCodes} {bus : EventBus}
  {consts : SocketConsts}.
Implicit Types (s : state W) (e : io).

(** The text [CHECK] is given for each call it guards. *)
Inductive failed_call : io -> string -> Prop :=
| failed_socket family type proto :
    failed_call (IoSocket family type proto (-1)) "sock"
| failed_tag_list sock val len :
    failed_call (IoSetsockopt sock SOL_TLS TLS_SEC_TAG_LIST val len (-1))
      ("setsockopt(sock, SOL_TLS, TLS_SEC_TAG_LIST, "
       ++ "sec_tag_opt, sizeof(sec_tag_opt))")
| failed_hostname sock val len :
    failed_call (IoSetsockopt sock SOL_TLS TLS_HOSTNAME val len (-1))
      ("setsockopt(sock, SOL_TLS, TLS_HOSTNAME, "
       ++ "HTTP_HOST, sizeof(HTTP_HOST))")
| failed_connect sock addr addrlen :
    failed_call (IoConnect sock addr addrlen (-1))
      "connect(sock, res->ai_addr, res->ai_addrlen)"
| failed_send sock data flags :
    failed_call (IoSend sock data flags (-1))
      "send(sock, REQUEST, SSTRLEN(REQUEST), 0)".

(** The last lines of a run that ended with [o]. *)
Inductive report : outcome -> list io -> Prop :=
| report_check e expr :
    failed_call e expr ->
    report (Exited 1) [e; IoPrintf ("Error: " ++ expr ++ LF) []; IoExit 1]
| report_modem st :
    st <> 0 ->
    report Returned
      [IoModemReset st; IoPrintk ("modem init err: %d" ++ LF) [AInt st]]
| report_resolve host port h st res :
    st <> 0 ->
    report Returned
      [IoGetaddrinfo host port h st res;
       IoPrintf ("getaddrinfo status: %d" ++ LF) [AInt st];
       IoPrintf ("Unable to resolve address, quitting" ++ LF) []]
| report_recv sock cap flags len data :
    len < 0 ->
    report Returned
      [IoRecv sock cap flags len data;
       IoPrintf ("Error reading response" ++ LF) []].

(** A run that returned early or exited has reported why. *)
Definition reported (o : outcome) s : Prop :=
  match o with
  | Returned | Exited _ =>
      exists l k, main_log (st_log s) = l ++ k /\ report o k
  | Faulted _ | OutOfFuel => True
  end.

(** [m] keeps the state safe and reports before it gives up. *)
Definition reports {A} (m : M (state W) A) : Prop :=
  triple safe m (fun _ => safe) reported.

(** ** The basic operations *)

Lemma reports_bind {A B} (m : M (state W) A) (k : A -> M (state W) B) :
  reports m -> (forall a, reports (k a)) -> reports (bind m k).
Proof. intros Hm Hk. eapply triple_bind; [exact Hm | exact Hk]. Qed.

Lemma reports_ret {A} (a : A) : reports (ret a).
Proof. intros s Hs. exact Hs. Qed.

Lemma reports_fuel {A} : reports (halt (A := A) OutOfFuel).
Proof. intros s Hs. exact I. Qed.

Lemma reports_check {A} f (o : option A) : reports (check f o).
Proof. intros s Hs. destruct o; [exact Hs | exact I]. Qed.

Lemma reports_emit e : reports (emit e).
Proof. intros s Hs. exact Hs. Qed.

(** A call of the platform is logged with its result. *)
Lemma syscall_logged {A} (f : W -> A * W) (entry : A -> io) s :
  (forall a fmt args, entry a <> IoPrintk fmt args) -> safe s ->
  exists a s1, syscall f entry s = (Val a, s1) /\ safe s1 /\
    main_log (st_log s1) = main_log (st_log s) ++ [entry a].
Proof.
  intros He [Hw Hr]. rewrite syscall_run by exact Hw.
  set (a := fst (f (st_world s))). set (s0 := logged _ _ s).
  pose proof (quiet_after_raised s0) as Hq.
  exists a, (after_raised s0). split; [reflexivity|]. split; [split|].
  - now apply well_registered_after_raised.
  - destruct Hq as [-> _]. exact Hr.
  - rewrite (quiet_main_log _ _ Hq). apply main_log_snoc.
    intros (g & E)%handler_prints_printk. exact (He _ _ _ E).
Qed.

Lemma reports_syscall {A} (f : W -> A * W) (entry : A -> io) :
  (forall a fmt args, entry a <> IoPrintk fmt args) ->
  reports (syscall f entry).
Proof.
  intros He s Hs.
  destruct (syscall_logged f entry s He Hs) as (a & s1 & -> & Hs1 & _).
  exact Hs1.
Qed.

(** A call whose result goes through [CHECK]: on -1 the last lines are
    the call, the text of the call, and the exit. *)
Lemma checked_call (f : W -> Z * W) (entry : Z -> io) expr s :
  (forall a fmt args, entry a <> IoPrintk fmt args) ->
  failed_call (entry (-1)) expr -> safe s ->
  exists r s1, syscall f entry s = (Val r, s1) /\ safe s1 /\
    (r = -1 ->
     reported (Exited 1)
       (set_log (st_log s1 ++ [IoPrintf ("Error: " ++ expr ++ LF) []; IoExit 1])
                s1)).
Proof.
  intros He Hf Hs.
  destruct (syscall_logged f entry s He Hs) as (r & s1 & Hrun & Hs1 & Hl).
  exists r, s1. split; [exact Hrun|]. split; [exact Hs1 | intros ->].
  exists (main_log (st_log s)),
    [entry (-1); IoPrintf ("Error: " ++ expr ++ LF) []; IoExit 1].
  split; [|now constructor].
  simpl. now rewrite main_log_app, Hl, <- app_assoc.
Qed.

Lemma reports_checked {A} (f : W -> Z * W) (entry : Z -> io) expr
    (k : Z -> M (state W) A) :
  (forall a fmt args, entry a <> IoPrintk fmt args) ->
  failed_call (entry (-1)) expr ->
  (forall r, reports (k r)) ->
  reports (r <- syscall f entry ;; CHECK expr r ;; k r).
Proof.
  intros He Hf Hk s Hs.
  destruct (checked_call f entry expr s He Hf Hs) as (r & s1 & Hrun & Hs1 & Hr).
  erewrite bind_val by exact Hrun.
  destruct (decide (r = -1)) as [->|Hne].
  - erewrite bind_stop by apply CHECK_fail. now apply Hr.
  - erewrite bind_val by (now apply CHECK_pass). now apply Hk.
Qed.

Lemma reports_checked_last (f : W -> Z * W) (entry : Z -> io) expr :
  (forall a fmt args, entry a <> IoPrintk fmt args) ->
  failed_call (entry (-1)) expr ->
  reports (r <- syscall f entry ;; CHECK expr r).
Proof.
  intros He Hf s Hs.
  destruct (checked_call f entry expr s He Hf Hs) as (r & s1 & Hrun & Hs1 & Hr).
  erewrite bind_val by exact Hrun.
  destruct (decide (r = -1)) as [->|Hne].
  - rewrite CHECK_fail. now apply Hr.
  - now rewrite CHECK_pass.
Qed.

End Diagnostics.

#[export] Hint Resolve reports_ret reports_fuel reports_check reports_emit
  : httpget.

(** One step of a proof of [reports]. *)
Ltac reports_step :=
  first
    [ solve [unfold printf, printk; auto with httpget]
    | apply reports_syscall; discriminate
    | apply reports_checked_last; [discriminate | simpl; constructor]
    | apply reports_checked;
        [discriminate | simpl; constructor | intros ?]
    | match goal with
      | |- reports (if ?b then _ else _) => destruct b
      end
    | apply reports_bind; [|intros ?] ].

(** ** The phases *)

Section Phases.
Context {W : Type} {plat : Platform W} {codes : NetEventCodes} {bus : EventBus}
  {consts : SocketConsts}.
Implicit Types (s : state W).

Lemma reports_tls_provision tls : reports (W := W) (tls_provision tls).
Proof. unfold tls_provision, tls_credential_add. repeat reports_step. Qed.

(** The resolution: on a status that is not zero the last lines are the
    call, the status and the diagnostic. *)
Lemma reports_resolve tls : reports (W := W) (resolve tls).
Proof.
  unfold resolve, getaddrinfo, dump_addrinfo.
  apply reports_bind; [reports_step | intros _]. intros s Hs.
  destruct (syscall_logged (plat_getaddrinfo HTTP_HOST (HTTP_PORT tls) hints)
              (fun r => IoGetaddrinfo HTTP_HOST (HTTP_PORT tls) hints
                          (fst r) (snd r)) s ltac:(discriminate) Hs)
    as ([st res] & s1 & Hrun & Hs1 & Hl).
  erewrite bind_val by exact Hrun. simpl fst. simpl snd.
  erewrite bind_val by apply printf_run.
  destruct (decide (st <> 0)) as [Hst|Hst].
  - rewrite bool_decide_eq_true_2 by exact Hst. simpl.
    exists (main_log (st_log s)). eexists. split.
    2: now apply (report_resolve HTTP_HOST (HTTP_PORT tls) hints st res).
    rewrite !main_log_snoc, Hl, <- !app_assoc
      by (now intros (g & E)%handler_prints_printk).
    reflexivity.
  - rewrite bool_decide_eq_false_2 by exact Hst.
    revert Hs1. generalize s1. clear.
    intros s1 Hs1.
    assert (H : reports (W := W) (res0 <- check NullDeref (head res) ;;
                                  dump_addrinfo res0 ;; ret res0))
      by (unfold dump_addrinfo; repeat reports_step).
    now apply (H _).
Qed.

Lemma reports_open_socket tls a : reports (W := W) (open_socket tls a).
Proof. unfold open_socket, socket. repeat reports_step. Qed.

Lemma reports_tls_configure tls sock : reports (W := W) (tls_configure tls sock).
Proof. unfold tls_configure, setsockopt. repeat reports_step. Qed.

Lemma reports_connect_to sock a : reports (W := W) (connect_to sock a).
Proof. unfold connect_to, connect. repeat reports_step. Qed.

Lemma reports_send_request sock : reports (W := W) (send_request sock).
Proof. unfold send_request, send. repeat reports_step. Qed.

(** [recv] is logged with what it returned; it gives up only on a fault. *)
Lemma recv_logged sock cap flags s :
  safe s ->
  match recv sock cap flags s with
  | (Val len, s1) =>
      safe s1 /\
      exists data,
        main_log (st_log s1) =
        main_log (st_log s) ++ [IoRecv sock cap flags len data]
  | (Halt o, _) => exists f, o = Faulted f
  end.
Proof.
  intros Hs. unfold recv.
  destruct (syscall_logged (plat_recv sock cap flags)
              (fun r => IoRecv sock cap flags (fst r) (snd r)) s
              ltac:(discriminate) Hs)
    as ([len data] & s1 & Hrun & [Hw1 Hr1] & Hl).
  erewrite bind_val by exact Hrun. unfold bind at 1, gets. unfold bind at 1.
  cbn [fst snd].
  destruct (buf_write data (st_response s1)) as [buf'|] eqn:Hb; simpl; [|eauto].
  split; [|eauto]. split; [exact Hw1|].
  simpl. now rewrite (buf_write_length _ _ _ Hb).
Qed.

(** The receive loop: when [recv] fails the last lines are the call and
    the diagnostic. *)
Lemma reports_recv_loop fuel sock : reports (W := W) (recv_loop fuel sock).
Proof.
  induction fuel as [|fuel IH]; [apply reports_fuel|]. intros s Hs.
  cbn [recv_loop]. pose proof (recv_logged sock (length response - 1) 0 s Hs) as H.
  destruct (recv sock _ 0 s) as [[len|o] s1] eqn:Hrecv.
  2: { erewrite bind_stop by exact Hrecv. now destruct H as [f ->]. }
  destruct H as [Hs1 (data & Hl)]. erewrite bind_val by exact Hrecv.
  destruct (decide (len < 0)) as [Hneg|Hpos].
  { rewrite bool_decide_eq_true_2 by exact Hneg. simpl.
    exists (main_log (st_log s)). eexists. split.
    2: now apply (report_recv sock (length response - 1) 0 len data).
    rewrite main_log_snoc, Hl, <- app_assoc
      by (now intros (g & E)%handler_prints_printk).
    reflexivity. }
  rewrite bool_decide_eq_false_2 by exact Hpos.
  destruct (decide (len = 0)) as [->|Hne]; [exact Hs1|].
  rewrite bool_decide_eq_false_2 by exact Hne.
  unfold bind at 1, gets. unfold bind at 1.
  destruct (buf_store (st_response s1) len NUL) as [buf'|] eqn:Hst; [|exact I].
  apply IH. destruct Hs1 as [Hw1 Hr1]. split; [exact Hw1|].
  simpl. now rewrite (buf_store_length _ _ _ _ Hst).
Qed.

Lemma reports_dump_response fuel sock :
  reports (W := W) (dump_response fuel sock).
Proof.
  unfold dump_response, close.
  repeat first [apply reports_recv_loop | reports_step].
Qed.

Lemma reports_http_get tls fuel : reports (W := W) (http_get tls fuel).
Proof.
  unfold http_get.
  repeat first
    [ apply reports_tls_provision | apply reports_resolve
    | apply reports_open_socket | apply reports_tls_configure
    | apply reports_connect_to | apply reports_send_request
    | apply reports_dump_response | apply reports_bind; [|intros ?] ].
Qed.

Lemma reports_wait_network_ready fuel :
  reports (W := W) (wait_network_ready fuel).
Proof.
  induction fuel as [|fuel IH]; cbn [wait_network_ready];
    (apply reports_bind; [now intros s Hs | intros []; simpl]);
    try apply reports_ret; try apply reports_fuel.
  unfold k_sleep. repeat first [exact IH | reports_step].
Qed.

(** The whole program, once the callbacks are registered. *)
Lemma reports_after_setup tls fuel_wait fuel_recv :
  reports (W := W)
    (st <- mdm_hl7800_reset ;;
     if bool_decide (st <> 0) then
       printk ("modem init err: %d" ++ LF) [AInt st] ;; halt Returned
     else wait_network_ready fuel_wait ;; http_get tls fuel_recv).
Proof.
  intros s Hs. unfold mdm_hl7800_reset.
  destruct (syscall_logged plat_mdm_hl7800_reset IoModemReset s
              ltac:(discriminate) Hs) as (st & s1 & Hrun & Hs1 & Hl).
  erewrite bind_val by exact Hrun.
  destruct (decide (st <> 0)) as [Hst|Hst].
  - rewrite bool_decide_eq_true_2 by exact Hst. simpl.
    exists (main_log (st_log s)). eexists. split.
    2: now apply (report_modem st).
    rewrite main_log_snoc, Hl, <- app_assoc.
    + reflexivity.
    + intros (g & E)%handler_prints_printk. destruct g; discriminate.
  - rewrite bool_decide_eq_false_2 by exact Hst.
    now apply (reports_bind _ _ (reports_wait_network_ready fuel_wait)
                 (fun _ => reports_http_get tls fuel_recv)).
Qed.

(** C14: every failure is reported.  On every platform, a run of [main]
    that returns early or exits has logged, as its last lines, the call
    that made it give up with the result it returned, and the diagnostic:
    after a failed [CHECK] the text of the checked expression and then
    [exit(1)]; after a modem reset, a resolution or a receive that failed,
    the line that says so. *)
Theorem main_reports_failure tls fuel_wait fuel_recv (w : W) :
  match fst (run_main tls fuel_wait fuel_recv w) with
  | Val _ => True
  | Halt o => reported o (snd (run_main tls fuel_wait fuel_recv w))
  end.
Proof.
  unfold run_main, main.
  erewrite bind_val by apply setup_iface_events_run.
  assert (Hs : safe (subscribe_all (init_state w))).
  { split; [apply well_registered_subscribe_all|].
    now destruct (subscribe_all_state w) as (_ & _ & -> & _). }
  pose proof (reports_after_setup tls fuel_wait fuel_recv _ Hs) as H.
  now destruct (bind mdm_hl7800_reset _ _) as [[[]|o] s'].
Qed.

End Phases.
